(** * CDMam_wadwrapper: the WAD-QC wrapper of the CDMAM analysis

    A shallow embedding of [CDMam_wadwrapper.py] (version 20170825).  The
    wrapper is glue code: it reads the runtime parameters of an action,
    builds the analysis structure through [CDMam_lib], picks the detector,
    and writes named results.  The libraries it drives ([CDMam_lib],
    [wadwrapper_lib]) are an interface here; every property below holds for
    all their behaviours, failing and stateful ones included.

    Layout: Python values and builtins, the library interface, the monad of
    wrapper computations, the wrapper functions, a small concrete library to
    run them on, and then the properties. *)

From Stdlib Require Import ZArith String Ascii List DecimalString SpecFloat Lia.
From stdpp Require Import base strings gmap list.

Local Open Scope string_scope.
Local Open Scope list_scope.

(** ** Python values and builtins *)

Module Py.

(** The exception classes that occur in the wrapper.  [OtherError] stands
    for whatever else a library raises. *)
Inductive exn : Type :=
| KeyError (key : string)
| IndexError (msg : string)
| AttributeError (msg : string)
| ValueError (msg : string)
| NameError (name : string)
| UnboundLocalError (name : string)
| ZeroDivisionError (msg : string)
| OtherError (cls msg : string).

Definition is_AttributeError (e : exn) : bool :=
  match e with AttributeError _ => true | _ => false end.

Definition is_KeyError (e : exn) : bool :=
  match e with KeyError _ => true | _ => false end.

Definition is_ValueError (e : exn) : bool :=
  match e with ValueError _ => true | _ => false end.

(** An expression either yields a value or raises. *)
Inductive Outcome (A : Type) : Type :=
| Return (a : A)
| Raise (e : exn).
Global Arguments Return {A} a.
Global Arguments Raise {A} e.

Global Instance Outcome_ret : MRet Outcome := @Return.
Global Instance Outcome_bind : MBind Outcome := fun A B f m =>
  match m with
  | Return a => f a
  | Raise e => Raise e
  end.

(** Python floats are IEEE 754 binary64 numbers. *)
Abbreviation pyfloat := spec_float.

Definition float_of_Z (z : Z) : pyfloat := binary_normalize 53 1024 z 0 false.
Definition float_add : pyfloat -> pyfloat -> pyfloat := SFadd 53 1024.

Global Instance pyfloat_eq_dec : EqDecision pyfloat.
Proof. solve_decision. Defined.

(** [x / n] for a float [x] and an int [n]. *)
Definition float_div_int (x : pyfloat) (n : Z) : Outcome pyfloat :=
  if (n =? 0)%Z then Raise (ZeroDivisionError "float division by zero")
  else Return (SFdiv 53 1024 x (float_of_Z n)).

(** The values a JSON configuration or a DICOM field holds.  Of a number
    with a fraction, a list or a dict only the string form is ever used;
    none of them has a [split] attribute. *)
Inductive PyVal : Type :=
| PyNone
| PyBool (b : bool)
| PyInt (z : Z)
| PyStr (s : string)
| PyObj (str_form : string).

(** [str(v)] *)
Definition str (v : PyVal) : string :=
  match v with
  | PyNone => "None"
  | PyBool true => "True"
  | PyBool false => "False"
  | PyInt z => NilZero.string_of_int (Z.to_int z)
  | PyStr s => s
  | PyObj s => s
  end.

(** [s.lower()]: strings are byte strings, only ASCII letters have a case. *)
Definition lower_ascii (c : ascii) : ascii :=
  let n := N_of_ascii c in
  if ((65 <=? n) && (n <=? 90))%N then ascii_of_N (n + 32) else c.

Fixpoint lower (s : string) : string :=
  match s with
  | EmptyString => EmptyString
  | String c s' => String (lower_ascii c) (lower s')
  end.

(** [s.split(sep)] for a one-character separator. *)
Fixpoint split (sep : ascii) (s : string) : list string :=
  match s with
  | EmptyString => [EmptyString]
  | String c s' =>
      if Ascii.eqb c sep then EmptyString :: split sep s'
      else match split sep s' with
           | h :: t => String c h :: t
           | [] => [String c EmptyString]
           end
  end.

(** [v.split(';')] on a value: only a [str] has the attribute. *)
Definition split_val (sep : ascii) (v : PyVal) : Outcome (list string) :=
  match v with
  | PyStr s => Return (split sep s)
  | _ => Raise (AttributeError "object has no attribute 'split'")
  end.

(** [sub in s] *)
Fixpoint contains (sub s : string) : bool :=
  String.prefix sub s ||
  match s with
  | EmptyString => false
  | String _ s' => contains sub s'
  end.

Fixpoint repeat_char (c : ascii) (n : nat) : string :=
  match n with
  | O => EmptyString
  | S n' => String c (repeat_char c n')
  end.

(** [s.zfill(width)]: zeros go after a leading sign. *)
Definition zfill (width : nat) (s : string) : string :=
  if (width <=? String.length s)%nat then s
  else
    let fill := repeat_char "0" (width - String.length s) in
    match s with
    | String c s' =>
        if Ascii.eqb c "+" || Ascii.eqb c "-" then String c (fill +:+ s')
        else fill +:+ s
    | EmptyString => fill
    end.

(** [s[:k]] *)
Definition slice_to (k : nat) (s : string) : string := String.substring 0 k s.

(** ['%0.2f' % x]: the exact value rounded to hundredths, ties to even. *)
Definition hundredths (m : positive) (e : Z) : Z :=
  match e with
  | Zneg p =>
      let den := Z.pow_pos 2 p in
      let num := (Zpos m * 100)%Z in
      let q := (num / den)%Z in
      let r := (num mod den)%Z in
      match (2 * r ?= den)%Z with
      | Gt => (q + 1)%Z
      | Eq => if Z.even q then q else (q + 1)%Z
      | Lt => q
      end
  | _ => (Zpos m * 100 * 2 ^ e)%Z
  end.

Definition two_digits (n : Z) : string :=
  NilZero.string_of_uint (N.to_uint (Z.to_N (n / 10))) +:+ NilZero.string_of_uint (N.to_uint (Z.to_N (n mod 10))).

Definition fixed2 (h : Z) : string :=
  NilZero.string_of_uint (N.to_uint (Z.to_N (h / 100))) +:+ "." +:+ two_digits (h mod 100).

Definition format_0_2f (x : pyfloat) : string :=
  match x with
  | S754_nan => "nan"
  | S754_infinity false => "inf"
  | S754_infinity true => "-inf"
  | S754_zero false => "0.00"
  | S754_zero true => "-0.00"
  | S754_finite s m e => (if s then "-" else "") +:+ fixed2 (hundredths m e)
  end.

End Py.
Import Py.

(** Loops: [for a in l: s = body(a, s)], in any monad. *)
Fixpoint for_in `{MBind T, MRet T} {A S : Type} (l : list A) (body : A -> S -> T S) (s : S) : T S :=
  match l with
  | [] => mret s
  | a :: l' => s' ← body a s; for_in l' body s'
  end.

(** [range(n)] *)
Definition range (n : nat) : list nat := seq 0 n.

(** [l[i]] for an index that is not negative. *)
Definition index {A : Type} (l : list A) (i : nat) : Outcome A :=
  match l !! i with
  | Some a => Return a
  | None => Raise (IndexError "list index out of range")
  end.

(** [d[k]] on a dict. *)
Definition getitem {V : Type} (d : gmap string V) (k : string) : Outcome V :=
  match d !! k with
  | Some v => Return v
  | None => Raise (KeyError k)
  end.

(** [d.get(k, dflt)] *)
Definition get {V : Type} (d : gmap string V) (k : string) (dflt : V) : V :=
  default dflt (d !! k).

(** [try: body  except <class>: handler] *)
Definition try_except {A : Type} (body : Outcome A) (class : exn -> bool) (handler : Outcome A) : Outcome A :=
  match body with
  | Return a => Return a
  | Raise e => if class e then handler else Raise e
  end.

(** A local variable that is assigned somewhere in a function body is
    unbound until the assignment runs; a name bound nowhere in the module is
    looked up among the globals and the builtins, and not found. *)
Definition local {A : Type} (name : string) (v : option A) : Outcome A :=
  match v with
  | Some a => Return a
  | None => Raise (UnboundLocalError name)
  end.

Definition undefined_global {A : Type} (name : string) : Outcome A := Raise (NameError name).

(** ** Score matrices *)

(** A score matrix is a list of rows of floats. *)
Abbreviation Score := (list (list pyfloat)).

(** [np.zeros(shape, dtype=float).tolist()] for a two-dimensional shape. *)
Definition zeros (shape : nat * nat) : Score :=
  replicate shape.1 (replicate shape.2 (S754_zero false)).

(** [finalscore[y][x] += score[y][x]] *)
Definition iadd_cell (finalscore score : Score) (y x : nat) : Outcome Score :=
  frow ← index finalscore y;
  f ← index frow x;
  srow ← index score y;
  s ← index srow x;
  mret (<[y := <[x := float_add f s]> frow]> finalscore).

(** Lines 145-147: the score of one image is added into [finalscore]. *)
Definition accumulate (finalscore score : Score) : Outcome Score :=
  for_in (range (length score)) (fun y fs =>
    row0 ← index score 0;
    for_in (range (length row0)) (fun x fs => iadd_cell fs score y x) fs) finalscore.

(** [finalscore[y][x] /= count], where evaluating [count] may raise. *)
Definition idiv_cell (count : Outcome Z) (finalscore : Score) (y x : nat) : Outcome Score :=
  frow ← index finalscore y;
  f ← index frow x;
  n ← count;
  q ← float_div_int f n;
  mret (<[y := <[x := q]> frow]> finalscore).

(** Lines 152-154: every cell is divided by [count]. *)
Definition average (count : Outcome Z) (finalscore : Score) : Outcome Score :=
  for_in (range (length finalscore)) (fun y fs =>
    row0 ← index fs 0;
    for_in (range (length row0)) (fun x fs => idiv_cell count fs y x) fs) finalscore.

(** ** The analysis structure and the library interface *)

(** [CDMam_lib.CDMamStruct]: the attributes the wrapper reads or writes, and
    the rest of the object. *)
Record CDMamStruct (R : Type) : Type := mkStruct {
  imnum : Z;
  verbose : bool;
  imageFileName : string;
  parsCDCOM : list string;
  filtername : string;
  energypresentation : string;
  groundtruth_shape : nat * nat;
  diam_mm : list pyfloat;
  limit_um : list pyfloat;
  iqf : pyfloat;
  threshold_fnames : list string;
  fit_fnames : list string;
  rest : R
}.
Arguments mkStruct {R}.
Arguments imnum {R}.
Arguments verbose {R}.
Arguments imageFileName {R}.
Arguments parsCDCOM {R}.
Arguments filtername {R}.
Arguments energypresentation {R}.
Arguments groundtruth_shape {R}.
Arguments diam_mm {R}.
Arguments limit_um {R}.
Arguments iqf {R}.
Arguments threshold_fnames {R}.
Arguments fit_fnames {R}.
Arguments rest {R}.

Definition set_imnum {R} (v : Z) (cs : CDMamStruct R) : CDMamStruct R :=
  mkStruct v (verbose cs) (imageFileName cs) (parsCDCOM cs) (filtername cs)
    (energypresentation cs) (groundtruth_shape cs) (diam_mm cs) (limit_um cs) (iqf cs)
    (threshold_fnames cs) (fit_fnames cs) (rest cs).

Definition set_verbose {R} (v : bool) (cs : CDMamStruct R) : CDMamStruct R :=
  mkStruct (imnum cs) v (imageFileName cs) (parsCDCOM cs) (filtername cs)
    (energypresentation cs) (groundtruth_shape cs) (diam_mm cs) (limit_um cs) (iqf cs)
    (threshold_fnames cs) (fit_fnames cs) (rest cs).

Definition set_imageFileName {R} (v : string) (cs : CDMamStruct R) : CDMamStruct R :=
  mkStruct (imnum cs) (verbose cs) v (parsCDCOM cs) (filtername cs)
    (energypresentation cs) (groundtruth_shape cs) (diam_mm cs) (limit_um cs) (iqf cs)
    (threshold_fnames cs) (fit_fnames cs) (rest cs).

Definition set_parsCDCOM {R} (v : list string) (cs : CDMamStruct R) : CDMamStruct R :=
  mkStruct (imnum cs) (verbose cs) (imageFileName cs) v (filtername cs)
    (energypresentation cs) (groundtruth_shape cs) (diam_mm cs) (limit_um cs) (iqf cs)
    (threshold_fnames cs) (fit_fnames cs) (rest cs).

(** What the wrapper imports.  [Env] is everything outside the wrapper that
    a call may read or change: the files, the objects of the libraries.  A
    method that changes the structure in place returns the changed one. *)
Class Library : Type := {
  Env : Type;
  Dicom : Type;
  Pixels : Type;
  DicomMode : Type;
  QCLib : Type;
  Rest : Type;
  (** [wadwrapper_lib.prepareInput(inputfile, headers_only, logTag)] *)
  prepareInput : list string -> bool -> string -> Env -> Outcome (Dicom * Pixels * DicomMode) * Env;
  (** [CDMam_lib.CDMam()] *)
  new_CDMam : Env -> Outcome QCLib * Env;
  (** [CDMam_lib.CDMamStruct(dcmInfile, pixeldataIn, phantomversion)] *)
  new_CDMamStruct : Dicom -> Pixels -> PyVal -> Env -> Outcome (CDMamStruct Rest) * Env;
  qcversion : QCLib -> PyVal;
  determineScannerID : QCLib -> CDMamStruct Rest -> Env -> Outcome (CDMamStruct Rest) * Env;
  CDMamSingle : QCLib -> CDMamStruct Rest -> Env -> Outcome (CDMamStruct Rest * Score) * Env;
  CDCOMSingle : QCLib -> CDMamStruct Rest -> Env -> Outcome (CDMamStruct Rest * Score) * Env;
  thresholdThickness : QCLib -> CDMamStruct Rest -> Score -> Env -> Outcome (CDMamStruct Rest) * Env;
  DICOMInfo : QCLib -> CDMamStruct Rest -> string -> Env -> Outcome (CDMamStruct Rest * list (string * PyVal)) * Env;
  (** [os.path.splitext(fn)[0]] *)
  splitext_root : string -> string
}.

(** The input of a module run: [data.series_filelist] and [action]. *)
Record Data : Type := { series_filelist : list (list string) }.
Record Action : Type := { action_items : gmap string (gmap string PyVal) }.

(** ** Wrapper computations *)

Section Wrapper.
Context {L : Library}.

Abbreviation CS := (CDMamStruct Rest).

(** A call into a library, with what it was given and what came back. *)
Inductive Event : Type :=
| ev_prepareInput (inputfile : list string) (headers_only : bool)
    (out : Outcome (Dicom * Pixels * DicomMode))
| ev_CDMam (out : Outcome QCLib)
| ev_CDMamStruct (dcmInfile : Dicom) (pixeldataIn : Pixels) (phantomversion : PyVal)
    (out : Outcome CS)
| ev_determineScannerID (qclib : QCLib) (cs : CS) (out : Outcome CS)
| ev_CDMamSingle (qclib : QCLib) (cs : CS) (out : Outcome (CS * Score))
| ev_CDCOMSingle (qclib : QCLib) (cs : CS) (out : Outcome (CS * Score))
| ev_thresholdThickness (qclib : QCLib) (cs : CS) (score : Score) (out : Outcome CS)
| ev_DICOMInfo (qclib : QCLib) (cs : CS) (level : string)
    (out : Outcome (CS * list (string * PyVal))).

Definition is_detector (ev : Event) : bool :=
  match ev with
  | ev_CDMamSingle _ _ _ | ev_CDCOMSingle _ _ _ => true
  | _ => false
  end.

Definition is_thresholdThickness (ev : Event) : bool :=
  match ev with
  | ev_thresholdThickness _ _ _ _ => true
  | _ => false
  end.

Definition is_setup (ev : Event) : bool :=
  match ev with
  | ev_prepareInput _ _ _ | ev_CDMam _ | ev_CDMamStruct _ _ _ _
  | ev_determineScannerID _ _ _ => true
  | _ => false
  end.

(** The exception a call ended with, if it did. *)
Definition exn_of {A : Type} (o : Outcome A) : option exn :=
  match o with
  | Return _ => None
  | Raise e => Some e
  end.

Definition raised (ev : Event) : option exn :=
  match ev with
  | ev_prepareInput _ _ out => exn_of out
  | ev_CDMam out => exn_of out
  | ev_CDMamStruct _ _ _ out => exn_of out
  | ev_determineScannerID _ _ out => exn_of out
  | ev_CDMamSingle _ _ out => exn_of out
  | ev_CDCOMSingle _ _ out => exn_of out
  | ev_thresholdThickness _ _ _ out => exn_of out
  | ev_DICOMInfo _ _ _ out => exn_of out
  end.

(** What is written to the [results] object; the object itself is the list
    of these, in the order of the calls. *)
Inductive Result : Type :=
| addFloat (name : string) (value : pyfloat)
| addString (name : string) (value : string)
| addObject (name : string) (filename : string).

Definition float_results (rs : list Result) : list (string * pyfloat) :=
  omap (fun r => match r with addFloat n v => Some (n, v) | _ => None end) rs.

Definition string_results (rs : list Result) : list (string * string) :=
  omap (fun r => match r with addString n v => Some (n, v) | _ => None end) rs.

(** One run of a computation: how it ended, the world it left, the library
    calls it made and the results it wrote, both in order. *)
Record Run (A : Type) : Type := mkRun {
  outcome : Outcome A;
  env_after : Env;
  calls : list Event;
  emitted : list Result
}.
Global Arguments mkRun {A}.
Global Arguments outcome {A}.
Global Arguments env_after {A}.
Global Arguments calls {A}.
Global Arguments emitted {A}.

Definition M (A : Type) : Type := Env -> Run A.

(** A run that comes after the calls [cs] and the results [rs]. *)
Definition after {A : Type} (cs : list Event) (rs : list Result) (r : Run A) : Run A :=
  mkRun (outcome r) (env_after r) (cs ++ calls r) (rs ++ emitted r).

(** The rest of a computation after a first part has run: an exception
    ends the run where it is raised. *)
Definition and_then {A B : Type} (r : Run A) (k : A -> M B) : Run B :=
  match outcome r with
  | Return a => after (calls r) (emitted r) (k a (env_after r))
  | Raise e => mkRun (Raise e) (env_after r) (calls r) (emitted r)
  end.

Global Instance M_ret : MRet M := fun A a env => mkRun (Return a) env [] [].
Global Instance M_bind : MBind M := fun A B k m env => and_then (m env) k.

(** An expression of the wrapper's own: no call, nothing written. *)
Definition lift {A : Type} (o : Outcome A) : M A := fun env => mkRun o env [] [].

(** A library call. *)
Definition call {A : Type} (ev : Outcome A -> Event) (f : Env -> Outcome A * Env) : M A :=
  fun env => let r := f env in mkRun r.1 r.2 [ev r.1] [].

(** [results.addFloat], [results.addString], [results.addObject] *)
Definition emit (r : Result) : M unit := fun env => mkRun (Return tt) env [] [r].

(** Several results written one after the other. *)
Definition emit_all (rs : list Result) : M unit := fun env => mkRun (Return tt) env [] rs.

Definition logTag : string := "[CDMam_wadwrapper] ".

(** Shared routine to set the runtime parameters and build the structure. *)
Definition cdmamsetup_series (inputfile : list string) (params : gmap string PyVal)
    (headers_only : bool) : M (QCLib * CS * bool) :=
  (* 1. Set runtime parameters *)
  '(phantomversion, modeCDCOM, parsCDCOM) ← lift (
    if negb headers_only then
      phantomversion ← try_except (getitem params "phantomversion")
        is_AttributeError (Raise (ValueError (logTag +:+ " missing phantomversion parameter!")));
      modeCDCOM ← try_except
        (v ← getitem params "modeCDCOM"; mret (String.eqb (lower (str v)) "true"))
        is_AttributeError (Raise (ValueError (logTag +:+ " missing cdcommode parameter!")));
      parsCDCOM ← try_except
        (let parsCDCOM := get params "parsCDCOM" (PyStr "") in split_val ";" parsCDCOM)
        is_AttributeError (Raise (ValueError (logTag +:+ " malformed parsCDCOM parameter!")));
      mret (phantomversion, modeCDCOM, parsCDCOM)
    else
      mret (PyStr "3.2", false, []));
  (* 2. Check data format *)
  '(dcmInfile, pixeldataIn, dicomMode) ←
    call (ev_prepareInput inputfile headers_only) (prepareInput inputfile headers_only logTag);
  (* 3. Build and populate qcstructure *)
  qclib ← call ev_CDMam new_CDMam;
  cs ← call (ev_CDMamStruct dcmInfile pixeldataIn phantomversion)
         (new_CDMamStruct dcmInfile pixeldataIn phantomversion);
  let cs := set_imnum 0 cs in
  let cs := set_verbose false cs in
  fname ← lift (index inputfile 0);
  let cs := set_imageFileName fname cs in
  let cs := set_parsCDCOM parsCDCOM cs in
  cs ← call (ev_determineScannerID qclib cs) (determineScannerID qclib cs);
  mret (qclib, cs, modeCDCOM).

(** Come up with a simple identification tag. *)
Definition identifyName (cs : CS) : string :=
  let idname := "_XX" in
  let idname :=
    if contains "RHO" (filtername cs) then "_RH"
    else if contains "MOL" (filtername cs) then "_MO"
    else if contains "ALU" (filtername cs) then "_AL"
    else if contains "SILV" (filtername cs) then "_AG"
    else idname in
  let idname :=
    if contains "SUM" (energypresentation cs) then idname +:+ "su"
    else if contains "HIGH" (energypresentation cs) then idname +:+ "hi"
    else if contains "LOW" (energypresentation cs) then idname +:+ "lo"
    else idname in
  let idname :=
    if contains "PROC" (energypresentation cs) then idname +:+ "proc"
    else if contains "PRES" (energypresentation cs) then idname +:+ "pres"
    else idname in
  idname.

(** The locals of [cdmamqc_list] that its loop assigns. *)
Record ListLocals : Type := mkLocals {
  l_finalscore : Score;
  l_qclib : option QCLib;
  l_cs : option CS;
  l_imnum : Z
}.

(** Lines 137-149: the body of the loop over the images. *)
Definition cdmamqc_list_image (params : gmap string PyVal) (fname : string)
    (st : ListLocals) : M ListLocals :=
  let inputfile := [fname] in
  '(qclib, cs, modeCDCOM) ← cdmamsetup_series inputfile params false;
  let cs := set_imnum (l_imnum st) cs in
  '(cs, score) ←
    (if negb modeCDCOM then call (ev_CDMamSingle qclib cs) (CDMamSingle qclib cs)
     else call (ev_CDCOMSingle qclib cs) (CDCOMSingle qclib cs));
  finalscore ← lift (accumulate (l_finalscore st) score);
  mret (mkLocals finalscore (Some qclib) (Some cs) (l_imnum st + 1)).

(** Lines 135-156: from [imnum = 0] to the call of [thresholdThickness],
    for the locals as line 133 leaves them. *)
Definition cdmamqc_list_from (st : ListLocals) (data : Data) (params : gmap string PyVal)
    : M unit :=
  let st := mkLocals (l_finalscore st) (l_qclib st) (l_cs st) 0 in
  filelist ← lift (index (series_filelist data) 0);
  st ← for_in filelist (cdmamqc_list_image params) st;
  (* calculate average score *)
  finalscore ← lift (average (imagelist ← undefined_global "imagelist";
                              mret (Z.of_nat (length (imagelist : list string))))
                             (l_finalscore st));
  qclib ← lift (local "qclib" (l_qclib st));
  cs ← lift (local "cs" (l_cs st));
  _ ← call (ev_thresholdThickness qclib cs finalscore) (thresholdThickness qclib cs finalscore);
  mret tt.

(** CDMAM analysis for a list of images.  [cs] and [qclib] are locals of
    the function, assigned in the loop. *)
Definition cdmamqc_list (data : Data) (params : gmap string PyVal) : M unit :=
  let l_cs : option CS := None in
  let l_qclib : option QCLib := None in
  cs ← lift (local "cs" l_cs);
  let finalscore := zeros (groundtruth_shape cs) in
  cdmamqc_list_from (mkLocals finalscore l_qclib l_cs 0) data params.

(** CDMAM analysis of one image. *)
Definition qc_series (data : Data) (action : Action) : M unit :=
  (* 1.-3. *)
  params ← lift (try_except (getitem (action_items action) "params") is_KeyError (Return ∅));
  inputfile ← lift (index (series_filelist data) 0);
  '(qclib, cs, modeCDCOM) ← cdmamsetup_series inputfile params false;
  (* 4. Run tests *)
  '(cs, score) ←
    (if negb modeCDCOM then call (ev_CDMamSingle qclib cs) (CDMamSingle qclib cs)
     else call (ev_CDCOMSingle qclib cs) (CDCOMSingle qclib cs));
  cs ← call (ev_thresholdThickness qclib cs score) (thresholdThickness qclib cs score);
  (* 5. Build xml output *)
  let idname := identifyName cs in
  _ ← for_in (zip (diam_mm cs) (limit_um cs)) (fun '(di, lim) _ =>
        let varname := "limit_um_" +:+ zfill 4 (format_0_2f di) +:+ idname in
        emit (addFloat varname lim)) tt;
  let varname := "iqf" +:+ idname in
  _ ← emit (addFloat varname (iqf cs));
  (* 6. also store images as results *)
  _ ← for_in (threshold_fnames cs) (fun fn _ =>
        let varname := splitext_root fn in emit (addObject varname fn)) tt;
  for_in (fit_fnames cs) (fun fn _ =>
        let varname := splitext_root fn in emit (addObject varname fn)) tt.

(** Read selected dicomfields and write them to the results. *)
Definition header_series (data : Data) (action : Action) : M unit :=
  (* 1.-3. *)
  params ← lift (try_except (getitem (action_items action) "params") is_KeyError (Return ∅));
  inputfile ← lift (index (series_filelist data) 0);
  '(qclib, cs, modeCDCOM) ← cdmamsetup_series inputfile params true;
  (* 4. Run tests *)
  '(cs, dicominfo) ← call (ev_DICOMInfo qclib cs "qc") (DICOMInfo qclib cs "qc");
  let idname := identifyName cs in
  (* 2. Add results to 'result' object *)
  let varname := "pluginversion" +:+ idname in
  _ ← emit (addString varname (str (qcversion qclib)));
  for_in dicominfo (fun di _ =>
    let varname := di.1 +:+ idname in
    emit (addString varname
            (slice_to (Nat.min (String.length (str di.2)) 100) (str di.2)))) tt.

(** What the loops of lines 205-217 and 267-269 write, as lists. *)
Definition limit_float (idname : string) (p : pyfloat * pyfloat) : Result :=
  addFloat ("limit_um_" +:+ zfill 4 (format_0_2f p.1) +:+ idname) p.2.

Definition report (cs : CS) : list Result :=
  map (limit_float (identifyName cs)) (zip (diam_mm cs) (limit_um cs)) ++
  [addFloat ("iqf" +:+ identifyName cs) (iqf cs)] ++
  map (fun fn => addObject (splitext_root fn) fn) (threshold_fnames cs) ++
  map (fun fn => addObject (splitext_root fn) fn) (fit_fnames cs).

Definition field_string (idname : string) (di : string * PyVal) : Result :=
  addString (di.1 +:+ idname)
    (slice_to (Nat.min (String.length (str di.2)) 100) (str di.2)).

End Wrapper.

(** ** Notions used in the statements *)

(** A string that reads "true" when the case of its letters is ignored. *)
Definition is_true_nocase (s : string) : Prop :=
  exists a b c d : ascii,
    s = String a (String b (String c (String d EmptyString))) /\
    (a = "t" \/ a = "T")%char /\ (b = "r" \/ b = "R")%char /\
    (c = "u" \/ c = "U")%char /\ (d = "e" \/ d = "E")%char.

(** A matrix of [shape.1] rows of [shape.2] cells each. *)
Definition has_shape (shape : nat * nat) (m : Score) : Prop :=
  length m = shape.1 /\ Forall (fun row => length row = shape.2) m.

(** [m[y][x]], if there is such a cell. *)
Definition cell (m : Score) (y x : nat) : option pyfloat :=
  row ← m !! y; row !! x.

(** A detection flag: the float 0.0 or the float 1.0. *)
Definition is_flag (x : pyfloat) : Prop := x = float_of_Z 0 \/ x = float_of_Z 1.

Definition flag_matrix (m : Score) : Prop := Forall (Forall is_flag) m.

(** The flag as a number. *)
Definition flag_value (x : pyfloat) : nat :=
  match x with
  | S754_zero _ => 0
  | _ => 1
  end.

(** The cell (y, x) of every matrix of a list; a missing cell reads 0.0. *)
Definition column (y x : nat) (scores : list Score) : list pyfloat :=
  (fun m => default (S754_zero false) (cell m y x)) <$> scores.

(** The float of a count of images: counts from 2^53 on have the float of
    2^53, where sums of flags stay. *)
Definition capped (n : nat) : pyfloat := float_of_Z (Z.min (Z.of_nat n) (2 ^ 53)).

(** A mantissa with nothing shifted out of it, and a mantissa shifted left. *)
Definition exact_record (m : Z) : shr_record := Build_shr_record m false false.

Definition shift (p : positive) (z : Z) : positive :=
  match z with
  | Zpos n => Pos.iter xO p n
  | _ => p
  end.

(** The float results whose name starts with ["limit_um_"], and those of a
    given name. *)
Definition limit_results (rs : list (string * pyfloat)) : list (string * pyfloat) :=
  List.filter (fun p => String.prefix "limit_um_" p.1) rs.

Definition results_named (name : string) (rs : list (string * pyfloat))
    : list (string * pyfloat) :=
  List.filter (fun p => String.eqb p.1 name) rs.

(** ** A small library to run the wrapper on

    The world counts the detector calls made so far.  A file named
    ["bad.dcm"] makes either detector fail; the thresholds come back with
    three diameters and two limits. *)

Module Demo.

Definition fq (a b : Z) : pyfloat := SFdiv 53 1024 (float_of_Z a) (float_of_Z b).

Definition blank (shape : nat * nat) : CDMamStruct unit :=
  mkStruct 0 true "" [] "" "" shape [] [] (S754_zero false) [] [] tt.

Definition known_version (v : PyVal) : bool :=
  match v with
  | PyStr s => String.eqb s "3.2" || String.eqb s "3.4"
  | _ => false
  end.

Definition scanned (cs : CDMamStruct unit) : CDMamStruct unit :=
  mkStruct (imnum cs) (verbose cs) (imageFileName cs) (parsCDCOM cs) "RHODIUM" "SUMPRES"
    (groundtruth_shape cs) (diam_mm cs) (limit_um cs) (iqf cs)
    (threshold_fnames cs) (fit_fnames cs) (rest cs).

(** The structure as the setup hands it to the detector. *)
Definition ready (fname : string) (pars : list string) : CDMamStruct unit :=
  scanned (set_parsCDCOM pars (set_imageFileName fname
    (set_verbose false (set_imnum 0 (blank (1, 2)%nat))))).

(** The structure as the setup hands it to [determineScannerID]. *)
Definition prepared (fname : string) (pars : list string) : CDMamStruct unit :=
  set_parsCDCOM pars (set_imageFileName fname
    (set_verbose false (set_imnum 0 (blank (1, 2)%nat)))).

Definition fitted (cs : CDMamStruct unit) : CDMamStruct unit :=
  mkStruct (imnum cs) (verbose cs) (imageFileName cs) (parsCDCOM cs) (filtername cs)
    (energypresentation cs) (groundtruth_shape cs)
    [fq 6 100; fq 8 100; fq 1 10] [fq 3 2; fq 9 10] (fq 123 10)
    ["threshold.jpg"] ["fit.jpg"] (rest cs).

Definition geometry_error : exn :=
  OtherError "GeometryError" "cell window outside the image".

Definition single (score : Score) (cs : CDMamStruct unit) (n : nat)
    : Outcome (CDMamStruct unit * Score) * nat :=
  if String.eqb (imageFileName cs) "bad.dcm"
  then (Raise geometry_error, S n)
  else (Return (cs, score), S n).

Definition long_value : string := repeat_char "x" 150.

Definition lib : Library := {|
  Env := nat;
  Dicom := string;
  Pixels := unit;
  DicomMode := unit;
  QCLib := unit;
  Rest := unit;
  prepareInput := fun inputfile _ _ n =>
    match inputfile with
    | f :: _ => (Return (f, tt, tt), n)
    | [] => (Raise (ValueError "no input file"), n)
    end;
  new_CDMam := fun n => (Return tt, n);
  new_CDMamStruct := fun _ _ v n =>
    if known_version v then (Return (blank (1, 2)%nat), n)
    else (Raise (ValueError "unknown phantom version"), n);
  qcversion := fun _ => PyInt 20170825;
  determineScannerID := fun _ cs n => (Return (scanned cs), n);
  CDMamSingle := fun _ => single [[float_of_Z 1; float_of_Z 0]];
  CDCOMSingle := fun _ => single [[float_of_Z 0; float_of_Z 1]];
  thresholdThickness := fun _ cs _ n => (Return (fitted cs), n);
  DICOMInfo := fun _ cs _ n =>
    (Return (cs, [("StationName", PyStr long_value); ("kVp", PyInt 28)]), n);
  splitext_root := fun fn => fn
|}.

Definition params_builtin : gmap string PyVal :=
  <["phantomversion" := PyStr "3.2"]> (<["modeCDCOM" := PyStr "False"]> ∅).

Definition params_cdcom : gmap string PyVal :=
  <["phantomversion" := PyStr "3.4"]> (<["modeCDCOM" := PyBool true]>
    (<["parsCDCOM" := PyStr "c;high"]> ∅)).

Definition action_of (params : gmap string PyVal) : Action :=
  {| action_items := <["params" := params]> ∅ |}.

(** Three score matrices of flags. *)
Definition flags_a : Score := [[float_of_Z 1; float_of_Z 0]].
Definition flags_b : Score := [[float_of_Z 0; float_of_Z 1]].
Definition flags_c : Score := [[float_of_Z 1; float_of_Z 1]].

Definition cdcom_ready : CDMamStruct unit := ready "img1.dcm" ["c"; "high"].
Definition builtin_ready : CDMamStruct unit := ready "img1.dcm" [""].
Definition bad_ready : CDMamStruct unit := set_imnum 1 (ready "bad.dcm" [""]).
Definition one_image : Data := {| series_filelist := [["img1.dcm"]] |}.
Definition three_images : Data := {| series_filelist := [["img1.dcm"; "bad.dcm"; "img3.dcm"]] |}.

End Demo.

(** ** The module: the date of acquisition and the dispatch of the actions *)

(** What the [results] object of [pyWADinput] holds: the results of the
    wrapper functions and dates, in the order they were added. *)
Inductive Written (DT : Type) : Type :=
| wrapper_result (r : Result)
| addDateTime (name : string) (value : DT).
Arguments wrapper_result {DT} r.
Arguments addDateTime {DT} name value.

(** What the module imports besides: the reader of pydicom, the date
    function of [wadwrapper_lib], and the method of [results] that stores
    what the object holds. *)
Class ModuleLibrary (L : Library) : Type := {
  Dataset : Type;
  DateTime : Type;
  (** [dicom.read_file(fname, stop_before_pixels=...)] *)
  read_file : string -> bool -> Env -> Outcome Dataset * Env;
  (** [wadwrapper_lib.acqdatetime_series(dcmInfile)] *)
  acqdatetime : Dataset -> Env -> Outcome DateTime * Env;
  (** [results.write()], for what the object holds *)
  write : list (Written DateTime) -> Env -> Outcome unit * Env
}.

(** [config]: a dict; the value of ['actions'] is a dict of actions, here
    the list of its items in the order [items()] gives them. *)
Record Config : Type := { config_items : gmap string (list (string * Action)) }.

(** Lines 42-43, run when the module is imported: [os.environ] gets a
    place for the files of matplotlib unless it names one. *)
Definition set_MPLCONFIGDIR (environ : gmap string string) : gmap string string :=
  if negb (bool_decide (is_Some (environ !! "MPLCONFIGDIR")))
  then <["MPLCONFIGDIR" := "/tmp/.matplotlib"]> environ
  else environ.

Section Module.
Context {L : Library} {D : ModuleLibrary L}.

Inductive ModuleEvent : Type :=
| ev_wrapper (ev : Event)
| ev_read_file (fname : string) (stop_before_pixels : bool) (out : Outcome Dataset)
| ev_acqdatetime (dcmInfile : Dataset) (out : Outcome DateTime)
| ev_write (results : list (Written DateTime)) (out : Outcome unit).

(** One run at the level of the module: how it ended, the world it left,
    the calls it made, and what the [results] object holds after it. *)
Record ModuleRun (A : Type) : Type := mkModuleRun {
  m_outcome : Outcome A;
  m_env : Env;
  m_calls : list ModuleEvent;
  m_results : list (Written DateTime)
}.
Global Arguments mkModuleRun {A}.
Global Arguments m_outcome {A}.
Global Arguments m_env {A}.
Global Arguments m_calls {A}.
Global Arguments m_results {A}.

(** A computation of the module starts from what [results] holds. *)
Definition P (A : Type) : Type := list (Written DateTime) -> Env -> ModuleRun A.

Definition m_and_then {A B : Type} (r : ModuleRun A) (k : A -> P B) : ModuleRun B :=
  match m_outcome r with
  | Return a =>
      let r' := k a (m_results r) (m_env r) in
      mkModuleRun (m_outcome r') (m_env r') (m_calls r ++ m_calls r') (m_results r')
  | Raise e => mkModuleRun (Raise e) (m_env r) (m_calls r) (m_results r)
  end.

Global Instance P_ret : MRet P := fun A a rs env => mkModuleRun (Return a) env [] rs.
Global Instance P_bind : MBind P := fun A B k m rs env => m_and_then (m rs env) k.

Definition m_lift {A : Type} (o : Outcome A) : P A := fun rs env => mkModuleRun o env [] rs.

Definition m_call {A : Type} (ev : Outcome A -> ModuleEvent) (f : Env -> Outcome A * Env)
    : P A :=
  fun rs env => let r := f env in mkModuleRun r.1 r.2 [ev r.1] rs.

(** A function of the wrapper run on the shared [results] object. *)
Definition wrapper {A : Type} (m : M A) : P A :=
  fun rs env =>
    let r := m env in
    mkModuleRun (outcome r) (env_after r) (ev_wrapper <$> calls r)
      (rs ++ (wrapper_result <$> emitted r)).

(** [results.addDateTime(name, dt)] and [results.write()] *)
Definition add_result (w : Written DateTime) : P unit :=
  fun rs env => mkModuleRun (Return tt) env [] (rs ++ [w]).

Definition write_results : P unit :=
  fun rs env => let r := write rs env in mkModuleRun r.1 r.2 [ev_write rs r.1] rs.

(** Read acqdatetime from the dicom headers and write it to the results. *)
Definition acqdatetime_series (data : Data) (action : Action) : P unit :=
  params ← m_lift (try_except (getitem (action_items action) "params") is_KeyError (Return ∅));
  (* 1. read only headers *)
  series ← m_lift (index (series_filelist data) 0);
  fname ← m_lift (index series 0);
  dcmInfile ← m_call (ev_read_file fname true) (read_file fname true);
  dt ← m_call (ev_acqdatetime dcmInfile) (acqdatetime dcmInfile);
  add_result (addDateTime "AcquisitionDateTime" dt).

(** Lines 276-283: one action of the configuration. *)
Definition run_action (data : Data) (name : string) (action : Action) : P unit :=
  if String.eqb name "acqdatetime" then acqdatetime_series data action
  else if String.eqb name "header_series" then wrapper (header_series data action)
  else if String.eqb name "qc_series" then wrapper (qc_series data action)
  else mret tt.

(** Lines 274-287, for the [data], the [results] and the [config] that
    [pyWADinput()] returned. *)
Definition main (data : Data) (config : Config) : P unit :=
  actions ← m_lift (getitem (config_items config) "actions");
  _ ← for_in actions (fun '(name, action) _ => run_action data name action) tt;
  write_results.

End Module.

(** ** Further notions used in the statements *)

(** [sep.join(l)] *)
Fixpoint join (sep : string) (l : list string) : string :=
  match l with
  | [] => ""
  | s :: l' =>
      match l' with
      | [] => s
      | _ :: _ => s +:+ sep +:+ join sep l'
      end
  end.

(** The library function an event is a call of. *)
Definition callee `{L : Library} (ev : Event) : string :=
  match ev with
  | ev_prepareInput _ _ _ => "prepareInput"
  | ev_CDMam _ => "CDMam"
  | ev_CDMamStruct _ _ _ _ => "CDMamStruct"
  | ev_determineScannerID _ _ _ => "determineScannerID"
  | ev_CDMamSingle _ _ _ => "CDMamSingle"
  | ev_CDCOMSingle _ _ _ => "CDCOMSingle"
  | ev_thresholdThickness _ _ _ _ => "thresholdThickness"
  | ev_DICOMInfo _ _ _ _ => "DICOMInfo"
  end.

Definition object_results (rs : list Result) : list (string * string) :=
  omap (fun r => match r with addObject n fn => Some (n, fn) | _ => None end) rs.

(** The image number a detector was called with, and the score it returned. *)
Definition detector_imnum `{L : Library} (ev : Event) : option Z :=
  match ev with
  | ev_CDMamSingle _ cs _ | ev_CDCOMSingle _ cs _ => Some (imnum cs)
  | _ => None
  end.

Definition detector_score `{L : Library} (ev : Event) : option Score :=
  match ev with
  | ev_CDMamSingle _ _ (Return (_, score)) | ev_CDCOMSingle _ _ (Return (_, score)) => Some score
  | _ => None
  end.

(** A float that is a number: not a NaN, not an infinity. *)
Definition is_number (x : pyfloat) : bool :=
  match x with
  | S754_zero _ | S754_finite _ _ _ => true
  | _ => false
  end.

(** A run in which a library call that raised is the last call, and its
    exception the outcome. *)
Definition fail_fast `{L : Library} {A : Type} (r : Run A) : Prop :=
  forall ev e, ev ∈ calls r -> raised ev = Some e ->
               outcome r = Raise e /\ last (calls r) = Some ev.

(** An upper-case ASCII letter. *)
Definition is_upper (c : ascii) : bool :=
  let n := N_of_ascii c in ((65 <=? n) && (n <=? 90))%N.

(** The exception a call of the module ended with, if it did. *)
Definition m_raised `{D : ModuleLibrary} (ev : ModuleEvent) : option exn :=
  match ev with
  | ev_wrapper ev => raised ev
  | ev_read_file _ _ out => exn_of out
  | ev_acqdatetime _ out => exn_of out
  | ev_write _ out => exn_of out
  end.

(** The names that lines 276-283 know. *)
Definition is_action_name (name : string) : bool :=
  String.eqb name "acqdatetime" || String.eqb name "header_series"
  || String.eqb name "qc_series".

(** A run of the module that started with [rs] in the results object: a
    call that raised is the last call and its exception the outcome,
    [results.write()] is not called, and what the object held is still
    there, in front. *)
Definition orderly `{D : ModuleLibrary} {A : Type} (rs : list (Written DateTime))
    (r : ModuleRun A) : Prop :=
  (forall ev e, ev ∈ m_calls r -> m_raised ev = Some e ->
                m_outcome r = Raise e /\ last (m_calls r) = Some ev) /\
  (forall results out, ev_write results out ∉ m_calls r) /\
  rs `prefix_of` m_results r.

(** ** The demonstration library, for the module

    Reading a file gives its name, every file has the same date, and
    storing the results succeeds.  The configuration has the three actions
    of the module and one under a name the module does not know. *)

Module DemoModule.

Definition module_lib : ModuleLibrary Demo.lib := {|
  Dataset := string;
  DateTime := string;
  read_file := fun fname _ n => (Return fname, n);
  acqdatetime := fun _ n => (Return "20170825101500", n);
  write := fun _ n => (Return tt, n)
|}.

Definition actions : list (string * Action) :=
  [("acqdatetime", {| action_items := ∅ |});
   ("acqdatetime_series", {| action_items := ∅ |});
   ("header_series", {| action_items := ∅ |});
   ("qc_series", Demo.action_of Demo.params_builtin)].

Definition config : Config := {| config_items := <["actions" := actions]> ∅ |}.

(** The structure the setup hands to determineScannerID for 'img1.dcm' and
    the parameters of the external detector. *)
Definition unscanned : CDMamStruct unit :=
  set_parsCDCOM ["c"; "high"] (set_imageFileName "img1.dcm"
    (set_verbose false (set_imnum 0 (Demo.blank (1, 2)%nat)))).

Definition bad_image : Data := {| series_filelist := [["bad.dcm"]] |}.

(** The demonstration library with a [prepareInput] that takes an empty
    list of files. *)
Definition lenient : Library := {|
  Env := nat;
  Dicom := string;
  Pixels := unit;
  DicomMode := unit;
  QCLib := unit;
  Rest := unit;
  prepareInput := fun inputfile _ _ n => (Return (default "" (head inputfile), tt, tt), n);
  new_CDMam := new_CDMam (Library := Demo.lib);
  new_CDMamStruct := new_CDMamStruct (Library := Demo.lib);
  qcversion := qcversion (Library := Demo.lib);
  determineScannerID := determineScannerID (Library := Demo.lib);
  CDMamSingle := CDMamSingle (Library := Demo.lib);
  CDCOMSingle := CDCOMSingle (Library := Demo.lib);
  thresholdThickness := thresholdThickness (Library := Demo.lib);
  DICOMInfo := DICOMInfo (Library := Demo.lib);
  splitext_root := splitext_root (Library := Demo.lib)
|}.

End DemoModule.

(** * Properties *)

Section Runs.
Context {L : Library}.

Lemma run_bind {A B : Type} (m : M A) (k : A -> M B) (env : Env) :
  (m ≫= k) env = and_then (m env) k.
Proof. reflexivity. Qed.

Lemma and_then_Return {A B : Type} (r : Run A) (k : A -> M B) (a : A) :
  outcome r = Return a ->
  and_then r k = after (calls r) (emitted r) (k a (env_after r)).
Proof. unfold and_then. intros ->. reflexivity. Qed.

Lemma and_then_Raise {A B : Type} (r : Run A) (k : A -> M B) (e : exn) :
  outcome r = Raise e ->
  and_then r k = mkRun (Raise e) (env_after r) (calls r) (emitted r).
Proof. unfold and_then. intros ->. reflexivity. Qed.

Lemma run_ret {A : Type} (a : A) (env : Env) :
  (mret a : M A) env = mkRun (Return a) env [] [].
Proof. reflexivity. Qed.

End Runs.

(** One step of a run: the first part of a bind either returns, and the run
    goes on, or raises, and the run ends. *)
Ltac run_step :=
  rewrite run_bind;
  lazymatch goal with
  | |- context [and_then ?r ?k] =>
      let H := fresh "Hrun" in
      destruct (outcome r) eqn:H;
      [ rewrite (and_then_Return r k _ H) | rewrite (and_then_Raise r k _ H) ];
      cbn [outcome env_after calls emitted after lift call emit fst snd app] in *
  end.

(** All the steps of a run, each in the case where the ones before returned. *)
Ltac run_steps :=
  first
    [ run_step;
      [ repeat match goal with a : (_ * _)%type |- _ => destruct a end; run_steps | ]
    | rewrite run_ret; cbn [outcome env_after calls emitted after app]
    | idtac ].

(** The value an expression of the wrapper's own came to. *)
Ltac outcome_eq H :=
  cbn in H; unfold mret, Outcome_ret in H; try (injection H as H); simplify_eq/=.

(** An event that occurs in an explicit list of calls is one of them. *)
Ltac among_calls H :=
  repeat (apply elem_of_cons in H as [H | H]; [try discriminate H |]);
  try (apply elem_of_nil in H; destruct H).

Section Setup.
Context {L : Library}.

Lemma index_Raise {A : Type} (l : list A) (i : nat) (e : exn) :
  index l i = Raise e -> l !! i = None.
Proof. unfold index. destruct (l !! i); [discriminate | reflexivity]. Qed.

Lemma index_Return {A : Type} (l : list A) (i : nat) (a : A) :
  index l i = Return a <-> l !! i = Some a.
Proof. unfold index. destruct (l !! i); split; congruence. Qed.

(** The setup writes no result and calls neither a detector nor the
    threshold fit. *)
Lemma setup_emits_nothing inputfile params headers_only env :
  emitted (cdmamsetup_series inputfile params headers_only env) = [].
Proof.
  unfold cdmamsetup_series.
  run_step; [|reflexivity]. destruct a as [[pv mode] pars].
  run_step; [|reflexivity]. destruct a as [[dcm pix] dm].
  do 4 (run_step; [|reflexivity]).
  reflexivity.
Qed.

Lemma setup_calls inputfile params headers_only env :
  Forall (fun ev => is_detector ev = false /\ is_thresholdThickness ev = false)
    (calls (cdmamsetup_series inputfile params headers_only env)).
Proof.
  unfold cdmamsetup_series.
  run_step; [|constructor]. destruct a as [[pv mode] pars].
  run_step; [|repeat constructor]. destruct a as [[dcm pix] dm].
  do 4 (run_step; [|repeat constructor]).
  repeat constructor.
Qed.

Lemma setup_calls_kind inputfile params headers_only env :
  Forall (fun ev => is_setup ev = true)
    (calls (cdmamsetup_series inputfile params headers_only env)).
Proof.
  unfold cdmamsetup_series. run_steps. all: repeat constructor.
Qed.

Lemma filter_setup_calls (f : Event -> bool) inputfile params headers_only env :
  (forall ev, f ev = true -> is_detector ev = true \/ is_thresholdThickness ev = true) ->
  List.filter f (calls (cdmamsetup_series inputfile params headers_only env)) = [].
Proof.
  intros Hf. pose proof (setup_calls inputfile params headers_only env) as H.
  induction H as [|ev l [H1 H2] _ IH]; [reflexivity|].
  cbn. destruct (f ev) eqn:E; [|exact IH].
  destruct (Hf ev E); congruence.
Qed.

(** What the parameter block of line 68-82 leaves when it does not raise. *)
Lemma setup_returns inputfile params env q cs mode :
  outcome (cdmamsetup_series inputfile params false env) = Return (q, cs, mode) ->
  exists pv v, params !! "phantomversion" = Some pv /\ params !! "modeCDCOM" = Some v /\
               mode = String.eqb (lower (str v)) "true".
Proof.
  unfold cdmamsetup_series.
  run_step; [|discriminate]. destruct a as [[pv mode'] pars].
  run_step; [|discriminate]. destruct a as [[dcm pix] dm].
  do 4 (run_step; [|discriminate]).
  intros [= -> -> ->].
  revert Hrun. unfold getitem. cbn.
  destruct (params !! "phantomversion") as [pv'|]; [|discriminate]. cbn.
  destruct (params !! "modeCDCOM") as [v|]; [|discriminate]. cbn.
  destruct (split_val ";" (get params "parsCDCOM" (PyStr ""))) as [l|e]; cbn.
  - intros [= <- <- <-]. eauto.
  - destruct (is_AttributeError e); discriminate.
Qed.

(** The setup when the parameter block has passed with the phantom version
    [pv], the mode [mode] and the flags [pars], the three constructors
    return and there is a first input file: the four calls, the structure
    handed to [determineScannerID], and how the run ends. *)
Lemma setup_completes inputfile (params : gmap string PyVal) (headers_only : bool) env
    (pv : PyVal) (mode : bool) (pars : list string) dcm pix dm env1 q env2 cs0 env3 fname :
  (if headers_only then pv = PyStr "3.2" /\ mode = false /\ pars = []
   else params !! "phantomversion" = Some pv /\
        (exists v, params !! "modeCDCOM" = Some v /\
                   mode = String.eqb (lower (str v)) "true") /\
        split_val ";" (get params "parsCDCOM" (PyStr "")) = Return pars) ->
  prepareInput inputfile headers_only logTag env = (Return (dcm, pix, dm), env1) ->
  new_CDMam env1 = (Return q, env2) ->
  new_CDMamStruct dcm pix pv env2 = (Return cs0, env3) ->
  inputfile !! 0 = Some fname ->
  let cs := set_parsCDCOM pars
              (set_imageFileName fname (set_verbose false (set_imnum 0 cs0))) in
  let d := determineScannerID q cs env3 in
  cdmamsetup_series inputfile params headers_only env
  = mkRun (match d.1 with
           | Return cs' => Return (q, cs', mode)
           | Raise e => Raise e
           end) d.2
      [ev_prepareInput inputfile headers_only (Return (dcm, pix, dm));
       ev_CDMam (Return q);
       ev_CDMamStruct dcm pix pv (Return cs0);
       ev_determineScannerID q cs d.1] [].
Proof.
  intros Hblock Hprep Hq Hcs Hfile. cbv zeta. unfold cdmamsetup_series.
  assert (Hb : (if negb headers_only
                then
                  phantomversion ← try_except (getitem params "phantomversion")
                    is_AttributeError
                    (Raise (ValueError (logTag +:+ " missing phantomversion parameter!")));
                  modeCDCOM ← try_except
                    (v ← getitem params "modeCDCOM";
                     mret (String.eqb (lower (str v)) "true"))
                    is_AttributeError
                    (Raise (ValueError (logTag +:+ " missing cdcommode parameter!")));
                  parsCDCOM ← try_except
                    (let parsCDCOM := get params "parsCDCOM" (PyStr "") in
                     split_val ";" parsCDCOM)
                    is_AttributeError
                    (Raise (ValueError (logTag +:+ " malformed parsCDCOM parameter!")));
                  mret (phantomversion, modeCDCOM, parsCDCOM)
                else mret (PyStr "3.2", false, []))
               = Return (pv, mode, pars)).
  { destruct headers_only; cbn [negb].
    - by destruct Hblock as (-> & -> & ->).
    - destruct Hblock as (Hpv & (v & Hv & ->) & Hsplit).
      unfold getitem. rewrite Hpv, Hv. cbn. rewrite Hsplit. reflexivity. }
  apply index_Return in Hfile.
  run_step; [|congruence].
  rewrite Hb in Hrun. injection Hrun as <-.
  run_step; rewrite Hprep in *; cbn [fst snd] in *; [|discriminate].
  injection Hrun as <-.
  run_step; rewrite Hq in *; cbn [fst snd] in *; [|discriminate].
  injection Hrun as <-.
  run_step; rewrite Hcs in *; cbn [fst snd] in *; [|discriminate].
  injection Hrun as <-.
  run_step; [|congruence].
  rewrite Hfile in Hrun. injection Hrun as <-.
  run_step; rewrite Hrun; reflexivity.
Qed.

End Setup.

(** ** Header-only mode *)

Section HeaderMode.
Context {L : Library}.

(** The structure handed to [determineScannerID] in header-only mode. *)
Lemma header_mode_shape inputfile (params : gmap string PyVal) env q cs out :
  ev_determineScannerID q cs out ∈ calls (cdmamsetup_series inputfile params true env) ->
  parsCDCOM cs = [].
Proof.
  unfold cdmamsetup_series.
  run_steps.
  all: intros H; among_calls H.
  all: outcome_eq Hrun; reflexivity.
Qed.

(** C1. In header-only mode [cdmamsetup_series] never looks at [params]: the
    run is the one for the empty mapping, it fails only where a library call
    fails or where there is no input file, the structure is built for
    phantom version '3.2', [parsCDCOM] is set to the empty list and the mode
    returned is [False].  And the setup does go through: when the three
    constructors return and there is a first input file, it calls
    [determineScannerID] on their structure with [parsCDCOM = []] and
    returns what that call returns, with the mode [False]. *)
Theorem header_mode_needs_no_params inputfile (params : gmap string PyVal) env :
  let r := cdmamsetup_series inputfile params true env in
  r = cdmamsetup_series inputfile ∅ true env /\
  (forall e, outcome r = Raise e ->
     inputfile = [] \/ exists ev, ev ∈ calls r /\ raised ev = Some e) /\
  (forall dcm pix pv out, ev_CDMamStruct dcm pix pv out ∈ calls r -> pv = PyStr "3.2") /\
  (forall q cs out, ev_determineScannerID q cs out ∈ calls r -> parsCDCOM cs = []) /\
  (forall q cs mode, outcome r = Return (q, cs, mode) -> mode = false) /\
  (forall dcm pix dm env1 q env2 cs0 env3 fname,
     prepareInput inputfile true logTag env = (Return (dcm, pix, dm), env1) ->
     new_CDMam env1 = (Return q, env2) ->
     new_CDMamStruct dcm pix (PyStr "3.2") env2 = (Return cs0, env3) ->
     inputfile !! 0 = Some fname ->
     let cs := set_parsCDCOM []
                 (set_imageFileName fname (set_verbose false (set_imnum 0 cs0))) in
     let d := determineScannerID q cs env3 in
     r = mkRun (match d.1 with
                | Return cs' => Return (q, cs', false)
                | Raise e => Raise e
                end) d.2
           [ev_prepareInput inputfile true (Return (dcm, pix, dm));
            ev_CDMam (Return q);
            ev_CDMamStruct dcm pix (PyStr "3.2") (Return cs0);
            ev_determineScannerID q cs d.1] []).
Proof.
  cbv zeta.
  split; [reflexivity|].
  split; [|split; [|split; [|split]]].
  5:{ intros * Hprep Hq Hcs Hfile.
      by apply (setup_completes inputfile params true env (PyStr "3.2") false []
                  dcm pix dm env1 q env2 cs0 env3 fname). }
  all: unfold cdmamsetup_series.
  all: run_steps.
  all: outcome_eq Hrun.
  all: try discriminate.
  all: try (intros * H; among_calls H; by simplify_eq/=).
  all: try (intros; by simplify_eq/=).
  all: intros e' [= <-].
  all: try (left; match goal with H : index _ _ = Raise _ |- _ => apply index_Raise in H end;
            by destruct inputfile).
  all: right; apply Exists_exists.
  all: repeat first
         [ apply Exists_cons_hd; cbn;
           match goal with H : _ = Raise _ |- _ => by rewrite H end
         | apply Exists_cons_tl ].
Qed.

(** C10. Without a parsCDCOM entry the structure handed on in analysis mode
    has [parsCDCOM = ['']], the split of the empty string, while in
    header-only mode it has the empty list; the two differ.  The structure
    is handed on: in either mode, when the parameters pass, the three
    constructors return and there is a first input file, the fourth call of
    the setup is [determineScannerID] on the structure with that list. *)
Theorem parsCDCOM_defaults inputfile (params : gmap string PyVal) env :
  params !! "parsCDCOM" = None ->
  (forall q cs out,
     ev_determineScannerID q cs out ∈ calls (cdmamsetup_series inputfile params false env) ->
     parsCDCOM cs = [""] /\ parsCDCOM cs = split ";" "") /\
  (forall q cs out,
     ev_determineScannerID q cs out ∈ calls (cdmamsetup_series inputfile params true env) ->
     parsCDCOM cs = []) /\
  [""] <> ([] : list string) /\
  (forall pv v dcm pix dm env1 q env2 cs0 env3 fname,
     params !! "phantomversion" = Some pv -> params !! "modeCDCOM" = Some v ->
     prepareInput inputfile false logTag env = (Return (dcm, pix, dm), env1) ->
     new_CDMam env1 = (Return q, env2) ->
     new_CDMamStruct dcm pix pv env2 = (Return cs0, env3) ->
     inputfile !! 0 = Some fname ->
     let cs := set_parsCDCOM [""]
                 (set_imageFileName fname (set_verbose false (set_imnum 0 cs0))) in
     calls (cdmamsetup_series inputfile params false env)
     = [ev_prepareInput inputfile false (Return (dcm, pix, dm));
        ev_CDMam (Return q);
        ev_CDMamStruct dcm pix pv (Return cs0);
        ev_determineScannerID q cs (determineScannerID q cs env3).1]) /\
  (forall dcm pix dm env1 q env2 cs0 env3 fname,
     prepareInput inputfile true logTag env = (Return (dcm, pix, dm), env1) ->
     new_CDMam env1 = (Return q, env2) ->
     new_CDMamStruct dcm pix (PyStr "3.2") env2 = (Return cs0, env3) ->
     inputfile !! 0 = Some fname ->
     let cs := set_parsCDCOM []
                 (set_imageFileName fname (set_verbose false (set_imnum 0 cs0))) in
     calls (cdmamsetup_series inputfile params true env)
     = [ev_prepareInput inputfile true (Return (dcm, pix, dm));
        ev_CDMam (Return q);
        ev_CDMamStruct dcm pix (PyStr "3.2") (Return cs0);
        ev_determineScannerID q cs (determineScannerID q cs env3).1]).
Proof.
  intros Hnone. split; [|split; [|split; [discriminate|split]]].
  - unfold cdmamsetup_series.
    run_steps.
    all: intros * H; among_calls H.
    all: simplify_eq/=.
    all: revert Hrun; unfold getitem, get; rewrite Hnone; cbn.
    all: destruct (params !! "phantomversion"); [|discriminate]; cbn.
    all: destruct (params !! "modeCDCOM"); [|discriminate]; cbn.
    all: intros H; outcome_eq H; split; reflexivity.
  - intros q cs out H.
    by apply (header_mode_shape inputfile params env) in H.
  - intros * Hpv Hv Hprep Hq Hcs Hfile. cbv zeta.
    rewrite (setup_completes inputfile params false env pv
               (String.eqb (lower (str v)) "true") [""]
               dcm pix dm env1 q env2 cs0 env3 fname); try done.
    split; [done|]. split; [by exists v|]. unfold get. by rewrite Hnone.
  - intros * Hprep Hq Hcs Hfile. cbv zeta.
    by rewrite (setup_completes inputfile params true env (PyStr "3.2") false []
                  dcm pix dm env1 q env2 cs0 env3 fname).
Qed.

End HeaderMode.

Lemma header_mode_needs_no_params_witness :
  cdmamsetup_series (L := Demo.lib) ["img1.dcm"] ∅ true 0%nat
  = mkRun (L := Demo.lib) (Return (tt, Demo.ready "img1.dcm" [], false)) 0%nat
      [ev_prepareInput (L := Demo.lib) ["img1.dcm"] true (Return ("img1.dcm", tt, tt));
       ev_CDMam (L := Demo.lib) (Return tt);
       ev_CDMamStruct (L := Demo.lib) "img1.dcm" tt (PyStr "3.2")
         (Return (Demo.blank (1, 2)%nat));
       ev_determineScannerID (L := Demo.lib) tt (Demo.prepared "img1.dcm" [])
         (Return (Demo.ready "img1.dcm" []))] [] /\
  cdmamsetup_series (L := Demo.lib) ["img1.dcm"] Demo.params_cdcom true 0%nat
  = cdmamsetup_series (L := Demo.lib) ["img1.dcm"] ∅ true 0%nat.
Proof.
  split.
  - exact (proj2 (proj2 (proj2 (proj2 (proj2
             (header_mode_needs_no_params (L := Demo.lib) ["img1.dcm"] ∅ 0%nat)))))
             "img1.dcm" tt tt 0%nat tt 0%nat (Demo.blank (1, 2)%nat) 0%nat "img1.dcm"
             eq_refl eq_refl eq_refl eq_refl).
  - exact (proj1 (header_mode_needs_no_params (L := Demo.lib) ["img1.dcm"]
                    Demo.params_cdcom 0%nat)).
Defined.

Lemma parsCDCOM_defaults_witness :
  Demo.params_builtin !! "parsCDCOM" = None /\
  calls (cdmamsetup_series (L := Demo.lib) ["img1.dcm"] Demo.params_builtin false 0%nat)
  = [ev_prepareInput (L := Demo.lib) ["img1.dcm"] false (Return ("img1.dcm", tt, tt));
     ev_CDMam (L := Demo.lib) (Return tt);
     ev_CDMamStruct (L := Demo.lib) "img1.dcm" tt (PyStr "3.2")
       (Return (Demo.blank (1, 2)%nat));
     ev_determineScannerID (L := Demo.lib) tt (Demo.prepared "img1.dcm" [""])
       (Return (Demo.ready "img1.dcm" [""]))] /\
  calls (cdmamsetup_series (L := Demo.lib) ["img1.dcm"] Demo.params_builtin true 0%nat)
  = [ev_prepareInput (L := Demo.lib) ["img1.dcm"] true (Return ("img1.dcm", tt, tt));
     ev_CDMam (L := Demo.lib) (Return tt);
     ev_CDMamStruct (L := Demo.lib) "img1.dcm" tt (PyStr "3.2")
       (Return (Demo.blank (1, 2)%nat));
     ev_determineScannerID (L := Demo.lib) tt (Demo.prepared "img1.dcm" [])
       (Return (Demo.ready "img1.dcm" []))].
Proof.
  assert (H : Demo.params_builtin !! "parsCDCOM" = None) by (vm_compute; reflexivity).
  destruct (parsCDCOM_defaults (L := Demo.lib) ["img1.dcm"] Demo.params_builtin 0%nat H)
    as (_ & _ & _ & Hanalysis & Hheader).
  split; [exact H|]. split.
  - exact (Hanalysis (PyStr "3.2") (PyStr "False") "img1.dcm" tt tt 0%nat tt 0%nat
             (Demo.blank (1, 2)%nat) 0%nat "img1.dcm"
             eq_refl eq_refl eq_refl eq_refl eq_refl eq_refl).
  - exact (Hheader "img1.dcm" tt tt 0%nat tt 0%nat (Demo.blank (1, 2)%nat) 0%nat "img1.dcm"
             eq_refl eq_refl eq_refl eq_refl).
Defined.

(** ** Analysis mode: the parameter check *)

Section ParameterCheck.
Context {L : Library}.

(** C2. Without a phantomversion entry the setup in analysis mode ends at
    line 70 with [KeyError('phantomversion')]: the handler of line 71 is
    for [AttributeError] and lets it pass, so the [ValueError] of line 72
    is not raised; no library is called. *)
Theorem missing_phantomversion inputfile (params : gmap string PyVal) env :
  params !! "phantomversion" = None ->
  cdmamsetup_series inputfile params false env
  = mkRun (Raise (KeyError "phantomversion")) env [] [].
Proof.
  intros Hnone. unfold cdmamsetup_series.
  rewrite run_bind. unfold and_then. cbn.
  unfold getitem. rewrite Hnone. reflexivity.
Qed.

End ParameterCheck.

Lemma missing_phantomversion_witness :
  (∅ : gmap string PyVal) !! "phantomversion" = None /\
  outcome (cdmamsetup_series (L := Demo.lib) ["img1.dcm"] ∅ false 0%nat)
  = Raise (KeyError "phantomversion").
Proof.
  assert (H : (∅ : gmap string PyVal) !! "phantomversion" = None) by reflexivity.
  split; [exact H|].
  rewrite (missing_phantomversion (L := Demo.lib) ["img1.dcm"] ∅ 0%nat H). reflexivity.
Defined.

(** ** The analysis of one image *)

Section QcSeries.
Context {L : Library}.

(** A loop that only writes results. *)
Lemma emit_loop {A : Type} (body : A -> unit -> M unit) (f : A -> Result) (l : list A) env :
  (forall a u, body a u = emit (f a)) ->
  for_in l body tt env = mkRun (Return tt) env [] (map f l).
Proof.
  intros Hbody. induction l as [|a l IH]; [reflexivity|].
  cbn [for_in]. rewrite run_bind, Hbody.
  unfold and_then; cbn [outcome emit env_after calls emitted].
  rewrite IH. reflexivity.
Qed.

(** [action['params']], or the empty dict. *)
Lemma action_params (action : Action) :
  try_except (getitem (action_items action) "params") is_KeyError (Return ∅)
  = Return (default ∅ (action_items action !! "params")).
Proof. unfold getitem. by destruct (action_items action !! "params"). Qed.

Lemma after_nil {A : Type} (r : Run A) : after [] [] r = r.
Proof. by destruct r. Qed.

Lemma and_then_ext {A B : Type} (r : Run A) (k k' : A -> M B) :
  (forall a env, k a env = k' a env) -> and_then r k = and_then r k'.
Proof. intros H. unfold and_then. destruct (outcome r); [|reflexivity]. by rewrite H. Qed.

Lemma bind_ext {A B : Type} (m : M A) (k k' : A -> M B) env :
  (forall a env, k a env = k' a env) -> (m ≫= k) env = (m ≫= k') env.
Proof. intros H. rewrite !run_bind. by apply and_then_ext. Qed.

Lemma bind_lift_Return {A B : Type} (a : A) (k : A -> M B) env :
  (lift (Return a) ≫= k) env = k a env.
Proof. rewrite run_bind. unfold and_then. cbn. apply after_nil. Qed.

(** [qc_series] as the setup, the detector, the fit and the report. *)
Lemma qc_series_run data action env :
  qc_series data action env =
  (lift (index (series_filelist data) 0) ≫= fun inputfile =>
    cdmamsetup_series inputfile (default ∅ (action_items action !! "params")) false ≫=
    fun '(qclib, cs, modeCDCOM) =>
      (if negb modeCDCOM then call (ev_CDMamSingle qclib cs) (CDMamSingle qclib cs)
       else call (ev_CDCOMSingle qclib cs) (CDCOMSingle qclib cs)) ≫=
      fun '(cs, score) =>
        call (ev_thresholdThickness qclib cs score) (thresholdThickness qclib cs score) ≫=
        fun cs => emit_all (report cs)) env.
Proof.
  unfold qc_series. rewrite action_params, bind_lift_Return.
  apply bind_ext. intros inputfile env1.
  apply bind_ext. intros [[qclib cs] mode] env2.
  apply bind_ext. intros [cs1 score] env3.
  apply bind_ext. intros cs2 env4.
  rewrite run_bind.
  rewrite (emit_loop _ (limit_float (identifyName cs2))) by (by intros [di lim] u).
  unfold and_then at 1. cbn [outcome env_after calls emitted].
  rewrite run_bind. unfold and_then at 1. cbn [outcome env_after calls emitted emit].
  rewrite run_bind.
  rewrite (emit_loop _ (fun fn => addObject (splitext_root fn) fn)) by done.
  unfold and_then at 1. cbn [outcome env_after calls emitted].
  rewrite (emit_loop _ (fun fn => addObject (splitext_root fn) fn)) by done.
  reflexivity.
Qed.

Lemma lower_ascii_is (t c : ascii) :
  (t = "t" \/ t = "r" \/ t = "u" \/ t = "e")%char ->
  lower_ascii c = t <-> c = t \/ c = ascii_of_N (N_of_ascii t - 32).
Proof.
  intros Ht.
  destruct c as [[] [] [] [] [] [] [] []];
    destruct Ht as [-> | [-> | [-> | ->]]]; vm_compute;
    (split; [intros H; first [discriminate H | by left | by right]
            | intros [H | H]; first [discriminate H | reflexivity]]).
Qed.

(** The test of line 75 is a comparison with "true" that ignores case. *)
Lemma lower_true (s : string) :
  String.eqb (lower s) "true" = true <-> is_true_nocase s.
Proof.
  rewrite String.eqb_eq. unfold is_true_nocase. split.
  - destruct s as [|a [|b [|c [|d [|? ?]]]]]; try discriminate.
    cbn. intros [= Ha Hb Hc Hd].
    apply lower_ascii_is in Ha, Hb, Hc, Hd; try tauto.
    exists a, b, c, d. tauto.
  - intros (a & b & c & d & -> & Ha & Hb & Hc & Hd). cbn.
    assert (lower_ascii a = "t"%char) as -> by (apply lower_ascii_is; tauto).
    assert (lower_ascii b = "r"%char) as -> by (apply lower_ascii_is; tauto).
    assert (lower_ascii c = "u"%char) as -> by (apply lower_ascii_is; tauto).
    assert (lower_ascii d = "e"%char) as -> by (apply lower_ascii_is; tauto).
    reflexivity.
Qed.

(** C3. When the setup of [qc_series] returns, the detector it calls is
    CDCOMSingle exactly when the string form of params['modeCDCOM'] reads
    "true" with the case ignored, and CDMamSingle otherwise; that call is
    the only detector call of the run, and the score it returns is the one
    handed to thresholdThickness, together with the structure. *)
Theorem detector_selected_by_modeCDCOM data action env inputfile q cs mode :
  let params := default ∅ (action_items action !! "params") in
  let setup := cdmamsetup_series inputfile params false env in
  let r := qc_series data action env in
  series_filelist data !! 0 = Some inputfile ->
  outcome setup = Return (q, cs, mode) ->
  exists v,
    params !! "modeCDCOM" = Some v /\
    (mode = true <-> is_true_nocase (str v)) /\
    let det := (if mode then CDCOMSingle q cs else CDMamSingle q cs) (env_after setup) in
    List.filter is_detector (calls r)
    = [(if mode then ev_CDCOMSingle q cs else ev_CDMamSingle q cs) det.1] /\
    List.filter is_thresholdThickness (calls r)
    = match det.1 with
      | Return (cs', score) =>
          [ev_thresholdThickness q cs' score (thresholdThickness q cs' score det.2).1]
      | Raise _ => []
      end.
Proof.
  cbv zeta. intros Hfile Hsetup.
  destruct (setup_returns _ _ _ _ _ _ Hsetup) as (pv & v & _ & Hv & Hmode).
  exists v. split; [exact Hv|]. split.
  { rewrite Hmode. apply lower_true. }
  rewrite qc_series_run.
  apply index_Return in Hfile.
  rewrite run_bind, (and_then_Return (lift _ env) _ _ Hfile).
  cbn [lift outcome env_after calls emitted after app].
  rewrite run_bind, (and_then_Return _ _ _ Hsetup).
  cbn [outcome env_after calls emitted after app].
  rewrite !List.filter_app.
  rewrite !filter_setup_calls by (intros ev; destruct ev; cbn; auto).
  generalize (env_after (cdmamsetup_series inputfile
                (default ∅ (action_items action !! "params")) false env)).
  clear. intros env1.
  destruct mode; cbn [negb].
  - destruct (CDCOMSingle q cs env1) as [[[cs' score]|e] env2] eqn:Hdet;
      rewrite run_bind; unfold and_then; cbn; rewrite Hdet; cbn; [|done].
    rewrite run_bind. unfold and_then; cbn.
    by destruct (thresholdThickness q cs' score env2) as [[?|?] ?].
  - destruct (CDMamSingle q cs env1) as [[[cs' score]|e] env2] eqn:Hdet;
      rewrite run_bind; unfold and_then; cbn; rewrite Hdet; cbn; [|done].
    rewrite run_bind. unfold and_then; cbn.
    by destruct (thresholdThickness q cs' score env2) as [[?|?] ?].
Qed.

Lemma length_append (s t : string) :
  String.length (s +:+ t) = (String.length s + String.length t)%nat.
Proof. induction s as [|c s IH]; simpl; [reflexivity | by rewrite IH]. Qed.

Lemma length_repeat_char (c : ascii) (n : nat) : String.length (repeat_char c n) = n.
Proof. induction n as [|n IH]; cbn; [reflexivity | by rewrite IH]. Qed.

(** [zfill] pads to at least the width. *)
Lemma zfill_length (width : nat) (s : string) :
  (width <= String.length (zfill width s))%nat.
Proof.
  unfold zfill. destruct (Nat.leb_spec width (String.length s)) as [H|H]; [exact H|].
  destruct s as [|c s].
  - rewrite length_repeat_char. cbn. lia.
  - destruct (Ascii.eqb c "+" || Ascii.eqb c "-"); cbn [String.length] in *;
      rewrite length_append, length_repeat_char; cbn [String.length]; lia.
Qed.

Lemma float_results_limits idname (l : list (pyfloat * pyfloat)) :
  float_results (map (limit_float idname) l)
  = map (fun p => ("limit_um_" +:+ zfill 4 (format_0_2f p.1) +:+ idname, p.2)) l.
Proof. induction l as [|p l IH]; cbn; [reflexivity | by rewrite <- IH]. Qed.

Lemma float_results_objects (f : string -> string) (l : list string) :
  float_results (map (fun fn => addObject (f fn) fn) l) = [].
Proof. induction l as [|p l IH]; cbn; [reflexivity | exact IH]. Qed.

(** The float results of the report: a limit for each pair, then the iqf. *)
Lemma float_results_report (cs : CDMamStruct Rest) :
  float_results (report cs)
  = map (fun p => ("limit_um_" +:+ zfill 4 (format_0_2f p.1) +:+ identifyName cs, p.2))
      (zip (diam_mm cs) (limit_um cs))
    ++ [("iqf" +:+ identifyName cs, iqf cs)].
Proof.
  unfold report, float_results. rewrite !omap_app.
  fold (float_results (map (limit_float (identifyName cs)) (zip (diam_mm cs) (limit_um cs)))).
  rewrite float_results_limits.
  fold (float_results (map (fun fn => addObject (splitext_root fn) fn) (threshold_fnames cs))).
  fold (float_results (map (fun fn => addObject (splitext_root fn) fn) (fit_fnames cs))).
  rewrite !float_results_objects. reflexivity.
Qed.

(** The part of [qc_series] after the setup: the detector, the fit and the
    report. *)
Lemma analysis_run q cs mode env1 :
  let t := ((if negb mode then call (ev_CDMamSingle q cs) (CDMamSingle q cs)
             else call (ev_CDCOMSingle q cs) (CDCOMSingle q cs)) ≫=
            fun '(cs, score) =>
              call (ev_thresholdThickness q cs score) (thresholdThickness q cs score) ≫=
              fun cs => emit_all (report cs)) env1 in
  (exists det cs1 score cs2,
      calls t = [det; ev_thresholdThickness q cs1 score (Return cs2)] /\
      is_thresholdThickness det = false /\
      outcome t = Return tt /\ emitted t = report cs2) \/
  ((forall ev, ev ∈ calls t -> is_thresholdThickness ev = true ->
               exists e, raised ev = Some e) /\
   (exists e, outcome t = Raise e) /\ emitted t = []).
Proof.
  cbv zeta. rewrite run_bind.
  destruct mode; cbn [negb].
  - destruct (CDCOMSingle q cs env1) as [[[cs1 score]|e] env2] eqn:Hdet;
      unfold and_then; cbn; rewrite Hdet; cbn.
    2:{ right. split; [|eauto]. intros ev H. by among_calls H; subst ev. }
    rewrite run_bind. unfold and_then; cbn.
    destruct (thresholdThickness q cs1 score env2) as [[cs2|e] env3]; cbn.
    + left. by exists (ev_CDCOMSingle q cs (Return (cs1, score))), cs1, score, cs2.
    + right. split; [|eauto]. intros ev H. among_calls H; subst ev; [done|]. cbn. eauto.
  - destruct (CDMamSingle q cs env1) as [[[cs1 score]|e] env2] eqn:Hdet;
      unfold and_then; cbn; rewrite Hdet; cbn.
    2:{ right. split; [|eauto]. intros ev H. by among_calls H; subst ev. }
    rewrite run_bind. unfold and_then; cbn.
    destruct (thresholdThickness q cs1 score env2) as [[cs2|e] env3]; cbn.
    + left. by exists (ev_CDMamSingle q cs (Return (cs1, score))), cs1, score, cs2.
    + right. split; [|eauto]. intros ev H. among_calls H; subst ev; [done|]. cbn. eauto.
Qed.

(** Either [qc_series] returns, after one call of thresholdThickness that
    returned the structure the report is written from, or it raises, no
    call of thresholdThickness returned and nothing is written. *)
Lemma qc_series_emitted data action env :
  let r := qc_series data action env in
  (exists cs,
      (forall q cs0 score out, ev_thresholdThickness q cs0 score out ∈ calls r ->
                               out = Return cs) /\
      (exists q cs0 score, ev_thresholdThickness q cs0 score (Return cs) ∈ calls r) /\
      outcome r = Return tt /\ emitted r = report cs) \/
  ((forall q cs0 score cs, ev_thresholdThickness q cs0 score (Return cs) ∉ calls r) /\
   (exists e, outcome r = Raise e) /\ emitted r = []).
Proof.
  cbv zeta. rewrite qc_series_run.
  run_step; [|right; split; [intros * H; among_calls H | eauto]].
  pose proof (setup_calls a (default ∅ (action_items action !! "params")) false env) as Hs.
  rewrite Forall_forall in Hs.
  run_step.
  2:{ right. rewrite setup_emits_nothing. split; [|eauto].
      intros * H. apply Hs in H as [_ H]. discriminate H. }
  destruct a0 as [[q cs] mode]. rewrite setup_emits_nothing. cbn [app].
  destruct (analysis_run q cs mode
              (env_after (cdmamsetup_series a (default ∅ (action_items action !! "params"))
                 false env)))
    as [(det & cs1 & score & cs2 & -> & Hdet & -> & ->) | (Hno & [e ->] & ->)].
  - left. exists cs2. split; [|split; [|done]].
    + intros * H. apply elem_of_app in H as [H | H].
      * apply Hs in H as [_ H]. discriminate H.
      * among_calls H; [|congruence]. subst det. discriminate Hdet.
    + exists q, cs1, score. apply elem_of_app. right. by right; left.
  - right. split; [|eauto].
    intros * H. apply elem_of_app in H as [H | H].
    + apply Hs in H as [_ H]. discriminate H.
    + apply Hno in H as [e' H]; [discriminate H | reflexivity].
Qed.

(** C7. A run of [qc_series] that returns has written, as float results,
    one 'limit_um_<diameter><idname>' for each pair of a diameter and a
    limit of the fitted structure, in order, the diameter formatted with
    '%0.2f' and zero-filled to four characters, and then 'iqf<idname>',
    the only float result of that name; there is no other float result. *)
Theorem qc_series_float_results data action env :
  let r := qc_series data action env in
  outcome r = Return tt ->
  exists q cs0 score cs,
    ev_thresholdThickness q cs0 score (Return cs) ∈ calls r /\
    float_results (emitted r)
    = map (fun p => ("limit_um_" +:+ zfill 4 (format_0_2f p.1) +:+ identifyName cs, p.2))
        (zip (diam_mm cs) (limit_um cs))
      ++ [("iqf" +:+ identifyName cs, iqf cs)] /\
    (forall di, (4 <= String.length (zfill 4 (format_0_2f di)))%nat) /\
    length (results_named ("iqf" +:+ identifyName cs) (float_results (emitted r))) = 1%nat.
Proof.
  cbv zeta. intros Hret.
  destruct (qc_series_emitted data action env)
    as [(cs & _ & (q & cs0 & score & Hev) & _ & Hem) | (_ & [e He] & _)]; [|congruence].
  exists q, cs0, score, cs. split; [exact Hev|].
  rewrite Hem, float_results_report. split; [reflexivity|].
  split; [intros di; apply zfill_length|].
  unfold results_named. rewrite List.filter_app. cbn [List.filter fst].
  rewrite String.eqb_refl, length_app. cbn [length].
  replace (List.filter _ _) with (@nil (string * pyfloat)); [reflexivity|].
  induction (zip (diam_mm cs) (limit_um cs)) as [|p l IH]; [reflexivity|].
  cbn. exact IH.
Qed.

Lemma limit_results_limits (name : pyfloat * pyfloat -> string)
    (l : list (pyfloat * pyfloat)) :
  limit_results (map (fun p => ("limit_um_" +:+ name p, p.2)) l)
  = map (fun p => ("limit_um_" +:+ name p, p.2)) l.
Proof.
  induction l as [|p l IH]; [reflexivity|].
  cbn [map]. unfold limit_results in *. cbn [List.filter fst].
  replace (String.prefix "limit_um_" ("limit_um_" +:+ name p)) with true; [by rewrite IH|].
  cbn. by destruct (name p).
Qed.

(** C9. Whatever the lengths of [cs.diam_mm] and [cs.limit_um] are, a run
    of [qc_series] whose call of thresholdThickness returned does not
    raise, and the number of limit results it has written is the smaller
    of the two lengths. *)
Theorem limit_results_zip_truncation data action env q cs0 score cs :
  let r := qc_series data action env in
  ev_thresholdThickness q cs0 score (Return cs) ∈ calls r ->
  outcome r = Return tt /\
  length (limit_results (float_results (emitted r)))
  = Nat.min (length (diam_mm cs)) (length (limit_um cs)).
Proof.
  cbv zeta. intros Hev.
  destruct (qc_series_emitted data action env)
    as [(cs' & Hall & _ & Hret & Hem) | (Hno & _)]; [|by apply Hno in Hev].
  apply Hall in Hev. injection Hev as Hcs. subst cs'.
  split; [exact Hret|].
  rewrite Hem, float_results_report. unfold limit_results.
  rewrite List.filter_app, length_app.
  fold (limit_results (map (fun p => ("limit_um_" +:+ zfill 4 (format_0_2f p.1)
                                        +:+ identifyName cs, p.2))
                         (zip (diam_mm cs) (limit_um cs)))).
  rewrite (limit_results_limits (fun p => zfill 4 (format_0_2f p.1) +:+ identifyName cs)).
  rewrite length_map, length_zip.
  change (List.filter _ [_]) with (@nil (string * pyfloat)). cbn [length]. lia.
Qed.

End QcSeries.

Lemma detector_selected_witness :
  let r := qc_series (L := Demo.lib) Demo.one_image (Demo.action_of Demo.params_cdcom) 0%nat in
  List.filter is_detector (calls r)
  = [ev_CDCOMSingle (L := Demo.lib) tt Demo.cdcom_ready
       (Return (Demo.cdcom_ready, [[float_of_Z 0; float_of_Z 1]]))].
Proof.
  destruct (detector_selected_by_modeCDCOM (L := Demo.lib) Demo.one_image
              (Demo.action_of Demo.params_cdcom) 0%nat ["img1.dcm"] tt
              Demo.cdcom_ready true)
    as (v & _ & _ & Hdet & _); [reflexivity | vm_compute; reflexivity |].
  exact Hdet.
Defined.

Lemma qc_series_float_results_witness :
  let r := qc_series (L := Demo.lib) Demo.one_image (Demo.action_of Demo.params_builtin) 0%nat in
  exists cs,
    map fst (float_results (emitted r))
    = ["limit_um_0.06_RHsupres"; "limit_um_0.08_RHsupres"; "iqf_RHsupres"] /\
    length (results_named ("iqf" +:+ identifyName (L := Demo.lib) cs)
              (float_results (emitted r))) = 1%nat.
Proof.
  destruct (qc_series_float_results (L := Demo.lib) Demo.one_image
              (Demo.action_of Demo.params_builtin) 0%nat)
    as (q & cs0 & score & cs & _ & _ & _ & Hiqf); [vm_compute; reflexivity|].
  exists cs. split; [vm_compute; reflexivity | exact Hiqf].
Defined.

Lemma limit_results_witness :
  let r := qc_series (L := Demo.lib) Demo.one_image (Demo.action_of Demo.params_builtin) 0%nat in
  outcome r = Return tt /\
  length (limit_results (float_results (emitted r))) = Nat.min 3 2.
Proof.
  apply (limit_results_zip_truncation (L := Demo.lib) Demo.one_image
           (Demo.action_of Demo.params_builtin) 0%nat tt Demo.builtin_ready
           [[float_of_Z 1; float_of_Z 0]] (Demo.fitted Demo.builtin_ready)).
  apply (list_elem_of_lookup_2 _ 5). vm_compute. reflexivity.
Defined.

(** ** The header fields *)

Section HeaderSeries.
Context {L : Library}.

Lemma slice_to_length (k : nat) (s : string) :
  (k <= String.length s)%nat -> String.length (slice_to k s) = k.
Proof.
  unfold slice_to. revert s. induction k as [|k IH]; intros [|c s] H; cbn in *; try lia.
  all: try reflexivity.
  f_equal. apply IH. lia.
Qed.



Lemma slice_to_prefix (k : nat) (s : string) : String.prefix (slice_to k s) s = true.
Proof.
  unfold slice_to. revert s. induction k as [|k IH]; intros [|c s]; cbn; try reflexivity.
  destruct (ascii_dec c c); [apply IH | congruence].
Qed.

Lemma string_results_fields idname (l : list (string * PyVal)) :
  string_results (map (field_string idname) l)
  = map (fun di => (di.1 +:+ idname,
                    slice_to (Nat.min (String.length (str di.2)) 100) (str di.2))) l.
Proof. induction l as [|p l IH]; cbn; [reflexivity | by rewrite <- IH]. Qed.

(** [header_series] as the setup, the field list and what is written. *)
Lemma header_series_run data action env :
  header_series data action env =
  (lift (index (series_filelist data) 0) ≫= fun inputfile =>
    cdmamsetup_series inputfile (default ∅ (action_items action !! "params")) true ≫=
    fun '(qclib, cs, modeCDCOM) =>
      call (ev_DICOMInfo qclib cs "qc") (DICOMInfo qclib cs "qc") ≫=
      fun '(cs, dicominfo) =>
        emit_all (addString ("pluginversion" +:+ identifyName cs) (str (qcversion qclib))
                  :: map (field_string (identifyName cs)) dicominfo)) env.
Proof.
  unfold header_series. rewrite action_params, bind_lift_Return.
  apply bind_ext. intros inputfile env1.
  apply bind_ext. intros [[qclib cs] mode] env2.
  apply bind_ext. intros [cs1 info] env3.
  rewrite run_bind. unfold and_then at 1. cbn [outcome env_after calls emitted emit].
  rewrite (emit_loop _ (field_string (identifyName cs1))) by done.
  reflexivity.
Qed.

Local Opaque cdmamsetup_series.

(** C8. Of the strings [header_series] writes, the first is the plugin
    version and the others are the fields of DICOMInfo, one each: the
    string form of the field value cut to its first min(len, 100)
    characters, so none of them is longer than 100 characters. *)
Theorem header_fields_truncated data action env :
  let r := header_series data action env in
  (forall q cs0 cs info,
      ev_DICOMInfo q cs0 "qc" (Return (cs, info)) ∈ calls r ->
      string_results (emitted r)
      = ("pluginversion" +:+ identifyName cs, str (qcversion q))
        :: map (fun di => (di.1 +:+ identifyName cs,
                           slice_to (Nat.min (String.length (str di.2)) 100) (str di.2)))
             info) /\
  Forall (fun p => (String.length p.2 <= 100)%nat) (tail (string_results (emitted r))) /\
  (forall s, let v := slice_to (Nat.min (String.length s) 100) s in
             String.length v = Nat.min (String.length s) 100 /\ String.prefix v s = true).
Proof.
  cbv zeta. rewrite header_series_run.
  split; [|split].
  3:{ intros s. split; [apply slice_to_length; lia | apply slice_to_prefix]. }
  - run_step; [|intros * H; among_calls H].
    pose proof (setup_calls_kind a (default ∅ (action_items action !! "params")) true env) as Hs.
    rewrite Forall_forall in Hs.
    run_step; [|intros * H; apply Hs in H; discriminate H].
    destruct a0 as [[q cs] mode]. rewrite setup_emits_nothing. cbn [app].
    run_step; [destruct a0 as [cs1 info1]; cbn [emit_all calls emitted app]|];
      intros q' cs0 cs' info H; apply elem_of_app in H as [H | H];
      try (apply Hs in H; discriminate H); among_calls H; simplify_eq.
    + rewrite Hrun1 in H1. simplify_eq.
      cbn. f_equal. apply string_results_fields.
    + congruence.
  - run_step; [|constructor].
    run_step; [|rewrite setup_emits_nothing; constructor].
    destruct a0 as [[q cs] mode]. rewrite setup_emits_nothing. cbn [app].
    run_step; [|constructor].
    destruct a0 as [cs1 info1]. cbn.
    fold (string_results (map (field_string (identifyName cs1)) info1)).
    rewrite string_results_fields. apply Forall_map, Forall_forall.
    intros di _. cbn. rewrite slice_to_length; lia.
Qed.
End HeaderSeries.

(** Header-only mode on the demonstration library: no parameter is needed,
    and the long field comes out cut to 100 characters. *)
Example header_series_demo :
  let r := header_series (L := Demo.lib) Demo.one_image {| action_items := ∅ |} 0%nat in
  outcome r = Return tt /\
  string_results (emitted r)
  = [("pluginversion_RHsupres", "20170825");
     ("StationName_RHsupres", repeat_char "x" 100);
     ("kVp_RHsupres", "28")].
Proof. vm_compute. split; reflexivity. Qed.

(** ** The analysis of a list of images *)

Section ImageList.
Context {L : Library}.

Local Opaque cdmamsetup_series.

(** One image: nothing is written, thresholdThickness is not called, and a
    detector that raises ends the run with its exception. *)
Lemma image_run (params : gmap string PyVal) fname st env :
  let r := cdmamqc_list_image params fname st env in
  emitted r = [] /\
  List.filter is_thresholdThickness (calls r) = [] /\
  (forall ev e, ev ∈ calls r -> is_detector ev = true -> raised ev = Some e ->
                outcome r = Raise e).
Proof.
  cbv zeta. unfold cdmamqc_list_image.
  pose proof (setup_calls [fname] params false env) as Hs. rewrite Forall_forall in Hs.
  run_step.
  2:{ rewrite setup_emits_nothing, filter_setup_calls by (intros []; cbn; auto).
      repeat split. intros ev e' H Hd. apply Hs in H as [H _]. congruence. }
  destruct a as [[q cs] mode]. rewrite setup_emits_nothing. cbn [app].
  rewrite List.filter_app, filter_setup_calls by (intros []; cbn; auto). cbn [app].
  destruct mode; cbn [negb]; run_steps.
  all: repeat split.
  all: intros ev e' H Hd Hr.
  all: apply elem_of_app in H as [H | H]; [apply Hs in H as [H _]; congruence|].
  all: among_calls H; subst ev; cbn in Hr.
  all: try match goal with H : _ = Raise _ |- _ => rewrite H in Hr end.
  all: try match goal with H : _ = Return _ |- _ => rewrite H in Hr end.
  all: cbn in Hr; by simplify_eq.
Qed.

(** The loop over the images, likewise. *)
Lemma images_run (params : gmap string PyVal) filelist st env :
  let r := for_in filelist (cdmamqc_list_image params) st env in
  emitted r = [] /\
  List.filter is_thresholdThickness (calls r) = [] /\
  (forall ev e, ev ∈ calls r -> is_detector ev = true -> raised ev = Some e ->
                outcome r = Raise e).
Proof.
  cbv zeta. revert st env. induction filelist as [|fname filelist IH]; intros st env.
  { repeat split. intros ev e H. among_calls H. }
  cbn [for_in].
  destruct (image_run params fname st env) as (Hem & Hthr & Hdet).
  run_step.
  - destruct (IH a (env_after (cdmamqc_list_image params fname st env)))
      as (Hem' & Hthr' & Hdet').
    rewrite Hem, Hem', List.filter_app, Hthr, Hthr'. split; [done|]. split; [done|].
    intros ev e H Hd Hr. apply elem_of_app in H as [H | H]; [|by eapply Hdet'].
    specialize (Hdet ev e H Hd Hr). congruence.
  - split; [done|]. split; [done|].
    intros ev e' H Hd Hr. specialize (Hdet ev e' H Hd Hr). congruence.
Qed.

(** Lines 152-154 when evaluating the count raises: the exception comes
    out at the first cell; without a first cell the loops do nothing. *)
Lemma average_undefined (e : exn) (fs : Score) :
  average (Raise e) fs
  = match fs with
    | (_ :: _) :: _ => Raise e
    | _ => Return fs
    end.
Proof.
  destruct fs as [|[|f row] rows]; [reflexivity | | reflexivity].
  unfold average. generalize (range (length ([] :: rows))). intros l.
  induction l as [|y l IH]; [reflexivity|]. cbn [for_in]. exact IH.
Qed.

(** C5. [cdmamqc_list] stops at its first statement, line 133: [cs] is a
    local of the function, assigned only inside the loop, so reading it
    raises UnboundLocalError and no image is processed.  Lines 152-154
    would not divide by the number of images either: [imagelist] is bound
    nowhere, so the division raises NameError at the first cell, and the
    only matrix lines 135-156 can hand to thresholdThickness is one on
    which the division did not run, for it has no first cell. *)
Theorem cdmamqc_list_never_averages data (params : gmap string PyVal) env :
  cdmamqc_list data params env = mkRun (Raise (UnboundLocalError "cs")) env [] [] /\
  (forall f row rows,
      average (imagelist ← undefined_global "imagelist";
               mret (Z.of_nat (length (imagelist : list string))))
              ((f :: row) :: rows)
      = Raise (NameError "imagelist")) /\
  (forall st q cs score out,
      ev_thresholdThickness q cs score out ∈ calls (cdmamqc_list_from st data params env) ->
      match score with (_ :: _) :: _ => False | _ => True end).
Proof.
  split; [reflexivity|]. split; [reflexivity|].
  intros st q cs score out. unfold cdmamqc_list_from. cbv zeta.
  run_step; [|intros H; among_calls H].
  destruct (images_run params a
              (mkLocals (l_finalscore st) (l_qclib st) (l_cs st) 0) env)
    as (_ & Hthr & _).
  assert (Hno : forall ev, is_thresholdThickness ev = true ->
              ev ∉ calls (for_in a (cdmamqc_list_image params)
                            (mkLocals (l_finalscore st) (l_qclib st) (l_cs st) 0) env)).
  { intros ev Hev H. apply list_elem_of_In in H.
    assert (Hin : In ev []) by (rewrite <- Hthr; apply List.filter_In; done). destruct Hin. }
  run_step; [|intros H; by apply Hno in H].
  run_step.
  2:{ rewrite app_nil_r. intros H; by apply Hno in H. }
  change (undefined_global "imagelist" ≫= _) with (@Raise Z (NameError "imagelist")) in Hrun1.
  rewrite average_undefined in Hrun1.
  run_steps.
  all: intros H; apply elem_of_app in H as [H | H]; [by apply Hno in H|].
  all: among_calls H; simplify_eq.
  all: by destruct (l_finalscore a0) as [|[|? ?] ?]; simplify_eq.
Qed.

(** C6. In lines 135-156 of [cdmamqc_list], whatever the locals are when
    the loop starts: if CDMamSingle or CDCOMSingle raises on an image, the
    run ends with that exception, thresholdThickness is not called and no
    result is written. *)
Theorem detector_failure_aborts st data (params : gmap string PyVal) env q cs e :
  let r := cdmamqc_list_from st data params env in
  ev_CDMamSingle q cs (Raise e) ∈ calls r \/ ev_CDCOMSingle q cs (Raise e) ∈ calls r ->
  outcome r = Raise e /\
  List.filter is_thresholdThickness (calls r) = [] /\
  emitted r = [].
Proof.
  cbv zeta. intros Hev.
  assert (exists ev, ev ∈ calls (cdmamqc_list_from st data params env) /\
                     is_detector ev = true /\ raised ev = Some e) as (ev & H & Hd & Hr).
  { destruct Hev as [H | H].
    - by exists (ev_CDMamSingle q cs (Raise e)).
    - by exists (ev_CDCOMSingle q cs (Raise e)). }
  clear Hev. revert H. unfold cdmamqc_list_from. cbv zeta.
  run_step; [|intros H; among_calls H].
  destruct (images_run params a
              (mkLocals (l_finalscore st) (l_qclib st) (l_cs st) 0) env)
    as (Hem & Hthr & Hdet).
  run_step.
  2:{ intros H. pose proof (Hdet ev e H Hd Hr) as Hx.
      split; [congruence|]. split; assumption. }
  intros H. exfalso.
  assert (Hno : ev ∉ calls (for_in a (cdmamqc_list_image params)
                              (mkLocals (l_finalscore st) (l_qclib st) (l_cs st) 0) env)).
  { intros H'. pose proof (Hdet ev e H' Hd Hr) as Hx. congruence. }
  revert H. run_steps.
  all: intros H; apply elem_of_app in H as [H | H]; [done|].
  all: among_calls H; by subst ev.
Qed.

End ImageList.

Lemma detector_failure_witness :
  let r := cdmamqc_list_from (L := Demo.lib) (mkLocals (zeros (1, 2)%nat) None None 0)
             Demo.three_images Demo.params_builtin 0%nat in
  outcome r = Raise Demo.geometry_error /\
  List.filter is_thresholdThickness (calls r) = [] /\
  emitted r = [].
Proof.
  apply (detector_failure_aborts (L := Demo.lib) _ _ _ _ tt Demo.bad_ready).
  left. apply (list_elem_of_lookup_2 _ 9). vm_compute. reflexivity.
Defined.

(** The list analysis on the demonstration library: as written it stops at
    line 133; from line 135 on, with one image, it stops at the division. *)
Example cdmamqc_list_demo :
  outcome (cdmamqc_list (L := Demo.lib) Demo.one_image Demo.params_builtin 0%nat)
  = Raise (UnboundLocalError "cs") /\
  outcome (cdmamqc_list_from (L := Demo.lib) (mkLocals (zeros (1, 2)%nat) None None 0)
             Demo.one_image Demo.params_builtin 0%nat)
  = Raise (NameError "imagelist").
Proof. vm_compute. split; reflexivity. Qed.

(** ** Sums of flags in binary64 *)

Section FlagSums.
Local Open Scope Z_scope.

Lemma shr_1_even (p : positive) :
  shr_1 (exact_record (Zpos p~0)) = exact_record (Zpos p).
Proof. reflexivity. Qed.

(** Shifting out [n] zero bits is exact. *)
Lemma shr_zeros (n p : positive) :
  SpecFloat.iter_pos shr_1 n (exact_record (Zpos (Pos.iter xO p n))) = exact_record (Zpos p).
Proof.
  revert p. induction n as [n IH|n IH|]; intros p; cbn [SpecFloat.iter_pos Pos.iter].
  - by rewrite shr_1_even, !IH.
  - by rewrite !IH.
  - apply shr_1_even.
Qed.

Lemma digits_shift (n p : positive) :
  digits2_pos (Pos.iter xO p n) = (digits2_pos p + n)%positive.
Proof.
  revert p. induction n as [n IH|n IH|]; intros p; cbn.
  - rewrite !IH. lia.
  - rewrite !IH. lia.
  - lia.
Qed.

Lemma value_shift (n p : positive) :
  Zpos (Pos.iter xO p n) = Zpos p * 2 ^ Zpos n.
Proof.
  revert p. induction n as [n IH|n IH|]; intros p; cbn [Pos.iter].
  - rewrite Pos2Z.inj_xO, !IH.
    replace (Zpos n~1) with (Zpos n + Zpos n + 1) by lia.
    rewrite !Z.pow_add_r by lia. lia.
  - rewrite !IH.
    replace (Zpos n~0) with (Zpos n + Zpos n) by lia.
    rewrite !Z.pow_add_r by lia. lia.
  - lia.
Qed.

Lemma digits_bounds (p : positive) :
  2 ^ (Zpos (digits2_pos p) - 1) <= Zpos p < 2 ^ Zpos (digits2_pos p).
Proof.
  induction p as [p IH|p IH|]; cbn [digits2_pos].
  - rewrite Pos2Z.inj_succ.
    replace (Z.succ (Zpos (digits2_pos p)) - 1) with (Z.succ (Zpos (digits2_pos p) - 1)) by lia.
    rewrite !Z.pow_succ_r by lia. lia.
  - rewrite Pos2Z.inj_succ.
    replace (Z.succ (Zpos (digits2_pos p)) - 1) with (Z.succ (Zpos (digits2_pos p) - 1)) by lia.
    rewrite !Z.pow_succ_r by lia. lia.
  - cbn. lia.
Qed.

Lemma digits_unique (p : positive) (d : Z) :
  2 ^ (d - 1) <= Zpos p < 2 ^ d -> 0 < d -> Zpos (digits2_pos p) = d.
Proof.
  intros [Hlo Hhi] Hd. pose proof (digits_bounds p) as [Hlo' Hhi'].
  destruct (Z.lt_trichotomy (Zpos (digits2_pos p)) d) as [H | [H | H]]; [|exact H|].
  - assert (2 ^ Zpos (digits2_pos p) <= 2 ^ (d - 1)) by (apply Z.pow_le_mono_r; lia). lia.
  - assert (2 ^ d <= 2 ^ (Zpos (digits2_pos p) - 1)) by (apply Z.pow_le_mono_r; lia). lia.
Qed.

Lemma fexp_eq (x : Z) : -1021 <= x -> fexp 53 1024 x = x - 53.
Proof. intros H. unfold fexp, emin. lia. Qed.

Lemma round_canonical (m : positive) (e : Z) :
  Zpos (digits2_pos m) = 53 -> -1074 <= e <= 971 ->
  binary_round_aux 53 1024 false (Zpos m) e loc_Exact = S754_finite false m e.
Proof.
  intros Hd He. unfold binary_round_aux, shr_fexp. cbn [Zdigits2 shr_record_of_loc].
  rewrite Hd, fexp_eq by lia.
  replace (53 + e - 53 - e) with 0 by lia. cbn [shr shr_m loc_of_shr_record round_nearest_even Zdigits2].
  rewrite Hd, fexp_eq by lia.
  replace (53 + e - 53 - e) with 0 by lia. cbn [shr shr_m shr_record_of_loc].
  replace (e <=? 1024 - 53) with true by (symmetry; apply Z.leb_le; lia).
  reflexivity.
Qed.

Lemma round_shifted (q n : positive) (e : Z) :
  Zpos (digits2_pos q) = 53 -> -1074 <= e + Zpos n <= 971 ->
  binary_round 53 1024 false (Pos.iter xO q n) e = S754_finite false q (e + Zpos n).
Proof.
  intros Hd He. unfold binary_round.
  rewrite digits_shift, Pos2Z.inj_add, Hd, fexp_eq by lia.
  unfold shl_align. replace (53 + Zpos n + e - 53 - e) with (Zpos n) by lia.
  unfold binary_round_aux, shr_fexp. cbn [Zdigits2 shr_record_of_loc].
  rewrite digits_shift, Pos2Z.inj_add, Hd, fexp_eq by lia.
  replace (53 + Zpos n + e - 53 - e) with (Zpos n) by lia.
  cbn [shr]. fold (exact_record (Zpos (Pos.iter xO q n))).
  rewrite shr_zeros. unfold exact_record.
  cbn [shr_m loc_of_shr_record round_nearest_even Zdigits2 shr_record_of_loc].
  rewrite Hd, fexp_eq by lia.
  replace (53 + (e + Zpos n) - 53 - (e + Zpos n)) with 0 by lia. cbn [shr shr_m].
  replace (e + Zpos n <=? 1024 - 53) with true by (symmetry; apply Z.leb_le; lia).
  reflexivity.
Qed.

Lemma digits_of_shift (p : positive) (z : Z) :
  0 <= z -> Zpos (digits2_pos (shift p z)) = Zpos (digits2_pos p) + z.
Proof.
  intros Hz. destruct z as [|n|n]; cbn [shift]; [lia | | lia].
  rewrite digits_shift. lia.
Qed.

Lemma value_of_shift (p : positive) (z : Z) :
  0 <= z -> Zpos (shift p z) = Zpos p * 2 ^ z.
Proof.
  intros Hz. destruct z as [|n|n]; cbn [shift]; [lia | | lia].
  apply value_shift.
Qed.

Lemma float_of_Z_pos (p : positive) :
  Zpos (digits2_pos p) <= 53 ->
  float_of_Z (Zpos p)
  = S754_finite false (shift p (53 - Zpos (digits2_pos p))) (Zpos (digits2_pos p) - 53).
Proof.
  intros Hd. unfold float_of_Z, binary_normalize, binary_round.
  rewrite fexp_eq by lia. unfold shl_align.
  replace (Zpos (digits2_pos p) + 0 - 53 - 0) with (- (53 - Zpos (digits2_pos p))) by lia.
  destruct (53 - Zpos (digits2_pos p)) as [|n|n] eqn:Hn; cbv beta iota delta [Z.opp shift]; [| |lia].
  - rewrite round_canonical by lia. f_equal. lia.
  - rewrite round_canonical; [f_equal; lia | rewrite digits_shift; lia | lia].
Qed.

Lemma add_one_exact (k : positive) :
  Zpos k + 1 < 2 ^ 53 -> float_add (float_of_Z (Zpos k)) (float_of_Z 1) = float_of_Z (Zpos k + 1).
Proof.
  intros Hk.
  pose proof (digits_bounds k) as Hbk.
  assert (Hdk : Zpos (digits2_pos k) <= 53).
  { destruct (Z.le_gt_cases (Zpos (digits2_pos k)) 53) as [H|H]; [exact H|].
    assert (2 ^ 53 <= 2 ^ (Zpos (digits2_pos k) - 1)) by (apply Z.pow_le_mono_r; lia). lia. }
  replace (Zpos k + 1) with (Zpos (k + 1)) in * by lia.
  pose proof (digits_bounds (k + 1)) as Hbk1.
  assert (Hdk1 : Zpos (digits2_pos (k + 1)) <= 53).
  { destruct (Z.le_gt_cases (Zpos (digits2_pos (k + 1))) 53) as [H|H]; [exact H|].
    assert (2 ^ 53 <= 2 ^ (Zpos (digits2_pos (k + 1)) - 1)) by (apply Z.pow_le_mono_r; lia). lia. }
  assert (Hd2 : 2 <= Zpos (digits2_pos (k + 1))).
  { destruct (Z.le_gt_cases 2 (Zpos (digits2_pos (k + 1)))) as [H|H]; [exact H|].
    assert (Zpos (digits2_pos (k + 1)) = 1) as Heq by lia. rewrite Heq in Hbk1.
    change (2 ^ 1) with 2 in Hbk1. lia. }
  rewrite (float_of_Z_pos k), (float_of_Z_pos (k + 1)) by assumption.
  change (float_of_Z 1) with (S754_finite false 4503599627370496 (-52)).
  unfold float_add, SFadd.
  set (dk := Zpos (digits2_pos k)) in *. set (d1 := Zpos (digits2_pos (k + 1))) in *.
  replace (Z.min (dk - 53) (-52)) with (-52) by lia.
  assert (Ha : fst (shl_align (shift k (53 - dk)) (dk - 53) (-52)) = shift k 52).
  { unfold shl_align. replace (-52 - (dk - 53)) with (- (dk - 1)) by lia.
    destruct (dk - 1) as [|n|n] eqn:Hn; cbv beta iota delta [Z.opp fst]; [| |lia].
    - f_equal. lia.
    - apply Pos2Z.inj. rewrite value_shift, !value_of_shift by lia.
      rewrite <- Z.mul_assoc, <- Z.pow_add_r by lia. f_equal. f_equal. lia. }
  rewrite Ha.
  change (fst (shl_align 4503599627370496 (-52) (-52))) with 4503599627370496%positive.
  cbv beta iota delta [cond_Zopp].
  change (Z.pos (shift k 52) + 4503599627370496)
    with (Z.pos (shift k 52 + 4503599627370496)).
  cbv beta iota delta [binary_normalize].
  replace (shift k 52 + 4503599627370496)%positive
    with (Pos.iter xO (shift (k + 1) (53 - d1)) (Z.to_pos (d1 - 1))).
  2:{ apply Pos2Z.inj. rewrite value_shift, Pos2Z.inj_add, !value_of_shift by lia.
      rewrite Z2Pos.id by lia. rewrite <- Z.mul_assoc, <- Z.pow_add_r by lia.
      replace (53 - d1 + (d1 - 1)) with 52 by lia.
      change (2 ^ 52) with 4503599627370496. rewrite Pos2Z.inj_add. ring. }
  rewrite round_shifted.
  - f_equal. rewrite Z2Pos.id by lia. lia.
  - rewrite digits_of_shift by lia. lia.
  - rewrite Z2Pos.id by lia. lia.
Qed.

(** The float of a count is +0.0 or a positive finite float. *)
Lemma capped_cases (n : nat) :
  capped n = S754_zero false \/ exists m e, capped n = S754_finite false m e.
Proof.
  unfold capped.
  destruct (Z.min (Z.of_nat n) (2 ^ 53)) as [|p|p] eqn:Hp; [by left | right | lia].
  destruct (Z.eq_dec (Zpos p) (2 ^ 53)) as [Heq|Hne].
  - rewrite Heq. by eexists _, _.
  - pose proof (digits_bounds p) as Hb.
    rewrite float_of_Z_pos; [by eexists _, _|].
    destruct (Z.le_gt_cases (Zpos (digits2_pos p)) 53) as [H|H]; [exact H|].
    assert (2 ^ 53 <= 2 ^ (Zpos (digits2_pos p) - 1)) by (apply Z.pow_le_mono_r; lia). lia.
Qed.

(** Adding a flag to the float of a count gives the float of the next count,
    or leaves it: sums of flags are exact up to 2^53, and stay there. *)
Lemma add_flag (k : nat) (x : pyfloat) :
  is_flag x -> float_add (capped k) x = capped (k + flag_value x).
Proof.
  intros [-> | ->].
  - change (flag_value (float_of_Z 0)) with 0%nat. rewrite Nat.add_0_r.
    destruct (capped_cases k) as [-> | (m & e & ->)]; reflexivity.
  - change (flag_value (float_of_Z 1)) with 1%nat. unfold capped.
    destruct (Z.lt_trichotomy (Z.of_nat k + 1) (2 ^ 53)) as [Hlt | [Heq | Hgt]].
    + rewrite !Z.min_l by lia.
      destruct (Z.of_nat k) as [|p|p] eqn:Hp; [| |lia].
      * replace (Z.of_nat (k + 1)) with 1 by lia. reflexivity.
      * replace (Z.of_nat (k + 1)) with (Zpos p + 1) by lia. by apply add_one_exact.
    + rewrite !Z.min_l by lia.
      replace (Z.of_nat (k + 1)) with (2 ^ 53) by lia.
      replace (Z.of_nat k) with (2 ^ 53 - 1) by lia. vm_compute. reflexivity.
    + rewrite !Z.min_r by lia. vm_compute. reflexivity.
Qed.

Lemma sum_flags (col : list pyfloat) (k : nat) :
  Forall is_flag col ->
  fold_left float_add col (capped k) = capped (k + sum_list_with flag_value col).
Proof.
  intros Hcol. revert k. induction Hcol as [|x col Hx _ IH]; intros k; cbn [fold_left sum_list_with].
  - by rewrite Nat.add_0_r.
  - rewrite add_flag, IH by done. f_equal. lia.
Qed.

End FlagSums.

(** ** Accumulating score matrices *)

Section Aggregation.

Lemma for_seq_rule {S : Type} (P : nat -> S -> Prop) (body : nat -> S -> Outcome S)
    (len start : nat) (s : S) :
  P start s ->
  (forall i s, (start <= i < start + len)%nat -> P i s ->
               exists s', body i s = Return s' /\ P (Datatypes.S i) s') ->
  exists s', for_in (seq start len) body s = Return s' /\ P (start + len)%nat s'.
Proof.
  revert start s. induction len as [|len IH]; intros start s Hs Hbody.
  - exists s. by rewrite Nat.add_0_r.
  - destruct (Hbody start s) as (s1 & Hb & Hs1); [lia | done |].
    destruct (IH (Datatypes.S start) s1) as (s2 & Hl & Hs2);
      [done | intros; apply Hbody; [lia | done] |].
    exists s2. split.
    + cbn [seq for_in]. rewrite Hb. exact Hl.
    + by replace (start + Datatypes.S len)%nat with (Datatypes.S start + len)%nat by lia.
Qed.

Lemma for_range_rule {S : Type} (P : nat -> S -> Prop) (body : nat -> S -> Outcome S)
    (n : nat) (s : S) :
  P 0%nat s ->
  (forall i s, (i < n)%nat -> P i s ->
               exists s', body i s = Return s' /\ P (Datatypes.S i) s') ->
  exists s', for_in (range n) body s = Return s' /\ P n s'.
Proof.
  intros Hs Hbody. apply (for_seq_rule P body n 0 s Hs).
  intros i s' [_ Hi]. by apply Hbody.
Qed.

(** Cells of matrices of a shape. *)
Lemma shape_row sh (m : Score) y :
  has_shape sh m -> (y < sh.1)%nat -> exists row, m !! y = Some row /\ length row = sh.2.
Proof.
  intros [Hlen Hrows] Hy.
  destruct (lookup_lt_is_Some_2 m y) as [row Hrow]; [lia|].
  exists row. split; [done|]. by eapply (Forall_lookup_1 _ _ _ _ Hrows).
Qed.

Lemma shape_cell sh (m : Score) y x :
  has_shape sh m -> (y < sh.1)%nat -> (x < sh.2)%nat ->
  exists row f, m !! y = Some row /\ row !! x = Some f /\ cell m y x = Some f.
Proof.
  intros Hm Hy Hx. destruct (shape_row sh m y Hm Hy) as (row & Hrow & Hlen).
  destruct (lookup_lt_is_Some_2 row x) as [f Hf]; [lia|].
  exists row, f. unfold cell. rewrite Hrow. by cbn.
Qed.

Lemma shape_no_cell sh (m : Score) y x :
  has_shape sh m -> (sh.1 <= y)%nat \/ (sh.2 <= x)%nat -> cell m y x = None.
Proof.
  intros [Hlen Hrows] Hout. unfold cell.
  destruct (m !! y) as [row|] eqn:Hrow; [|done]. cbn.
  destruct Hout as [Hy | Hx].
  - apply lookup_lt_Some in Hrow. lia.
  - apply lookup_ge_None. rewrite (Forall_lookup_1 _ _ _ _ Hrows Hrow). done.
Qed.

Lemma shape_ext sh (a b : Score) :
  has_shape sh a -> has_shape sh b -> (forall y x, cell a y x = cell b y x) -> a = b.
Proof.
  intros Ha Hb Hcells. apply list_eq. intros y.
  destruct (decide (y < sh.1)%nat) as [Hy|Hy].
  - destruct (shape_row sh a y Ha Hy) as (ra & Hra & Hla).
    destruct (shape_row sh b y Hb Hy) as (rb & Hrb & Hlb).
    rewrite Hra, Hrb. f_equal. apply list_eq. intros x.
    specialize (Hcells y x). unfold cell in Hcells. by rewrite Hra, Hrb in Hcells.
  - destruct Ha as [Ha _], Hb as [Hb _].
    rewrite !(proj2 (lookup_ge_None _ _)); [done | lia | lia].
Qed.

Lemma cell_insert (m : Score) y x v row y' x' :
  m !! y = Some row -> (x < length row)%nat ->
  cell (<[y := <[x := v]> row]> m) y' x'
  = if decide (y' = y /\ x' = x) then Some v else cell m y' x'.
Proof.
  intros Hrow Hx. unfold cell.
  destruct (decide (y' = y)) as [->|Hy].
  - rewrite list_lookup_insert_eq by (by eapply lookup_lt_Some). cbn.
    rewrite Hrow. cbn.
    destruct (decide (x' = x)) as [->|Hx'].
    + rewrite list_lookup_insert_eq by done. by rewrite decide_True.
    + rewrite list_lookup_insert_ne by done. by rewrite decide_False by tauto.
  - rewrite list_lookup_insert_ne by done. by rewrite decide_False by tauto.
Qed.

Lemma shape_insert sh (m : Score) y x v row :
  has_shape sh m -> m !! y = Some row ->
  has_shape sh (<[y := <[x := v]> row]> m).
Proof.
  intros [Hlen Hrows] Hrow. split.
  - by rewrite length_insert.
  - apply Forall_insert; [done|]. rewrite length_insert.
    by eapply (Forall_lookup_1 _ _ _ _ Hrows).
Qed.


(** A loop over the cells of row [y] that replaces each cell [f] at [x] by
    [g x f]. *)
Lemma row_loop sh (g : nat -> pyfloat -> pyfloat) (body : nat -> Score -> Outcome Score)
    y (fs : Score) :
  has_shape sh fs -> (y < sh.1)%nat ->
  (forall x (cur : Score) row f, (x < sh.2)%nat -> cur !! y = Some row -> row !! x = Some f ->
      body x cur = Return (<[y := <[x := g x f]> row]> cur)) ->
  exists fs', for_in (range sh.2) body fs = Return fs' /\ has_shape sh fs' /\
    forall y' x', cell fs' y' x'
                  = if decide (y' = y) then g x' <$> cell fs y' x' else cell fs y' x'.
Proof.
  intros Hfs Hy Hbody.
  destruct (for_range_rule
    (fun i (cur : Score) => has_shape sh cur /\
       forall y' x', cell cur y' x'
         = if decide (y' = y /\ (x' < i)%nat) then g x' <$> cell fs y' x' else cell fs y' x')
    body sh.2 fs) as (fs' & Hrun & Hsh & Hcells).
  - split; [done|]. intros y' x'. by rewrite decide_False by lia.
  - intros i cur Hi [Hcur Hc].
    destruct (shape_cell sh cur y i Hcur Hy Hi) as (row & f & Hrow & Hf & Hcf).
    exists (<[y := <[i := g i f]> row]> cur). split; [by eapply Hbody|].
    split; [by apply shape_insert|].
    intros y' x'. rewrite (cell_insert cur y i _ row) by (done || by eapply lookup_lt_Some).
    rewrite Hc. rewrite Hc, decide_False in Hcf by lia.
    destruct (decide (y' = y /\ x' = i)) as [[-> ->]|Hne].
    + rewrite decide_True by lia. by rewrite Hcf.
    + destruct (decide (y' = y /\ (x' < i)%nat)) as [[-> Hlt]|Hge].
      * by rewrite decide_True by lia.
      * by rewrite decide_False by lia.
  - exists fs'. split; [done|]. split; [done|].
    intros y' x'. rewrite Hcells.
    destruct (decide (y' = y)) as [->|Hne].
    + destruct (decide (x' < sh.2)%nat).
      * by rewrite decide_True by lia.
      * rewrite decide_False by lia.
        by rewrite (shape_no_cell sh fs y x') by (done || lia).
    + by rewrite decide_False by tauto.
Qed.

(** A loop over the rows in which row [y] is treated by such a loop. *)
Lemma matrix_loop sh (g : nat -> nat -> pyfloat -> pyfloat)
    (obody : nat -> Score -> Outcome Score) (fs : Score) :
  has_shape sh fs ->
  (forall y (cur : Score), (y < sh.1)%nat -> has_shape sh cur ->
      exists cur', obody y cur = Return cur' /\ has_shape sh cur' /\
        forall y' x', cell cur' y' x'
                      = if decide (y' = y) then g y x' <$> cell cur y' x' else cell cur y' x') ->
  exists fs', for_in (range sh.1) obody fs = Return fs' /\ has_shape sh fs' /\
    forall y x, cell fs' y x = g y x <$> cell fs y x.
Proof.
  intros Hfs Hbody.
  destruct (for_range_rule
    (fun i (cur : Score) => has_shape sh cur /\
       forall y' x', cell cur y' x'
         = if decide (y' < i)%nat then g y' x' <$> cell fs y' x' else cell fs y' x')
    obody sh.1 fs) as (fs' & Hrun & Hsh & Hcells).
  - split; [done|]. intros y' x'. by rewrite decide_False by lia.
  - intros i cur Hi [Hcur Hc].
    destruct (Hbody i cur Hi Hcur) as (cur' & Hb & Hsh' & Hc').
    exists cur'. split; [done|]. split; [done|].
    intros y' x'. rewrite Hc', !Hc.
    destruct (decide (y' = i)) as [->|Hne].
    + rewrite decide_False by lia. by rewrite decide_True by lia.
    + destruct (decide (y' < i)%nat).
      * by rewrite decide_True by lia.
      * by rewrite decide_False by lia.
  - exists fs'. split; [done|]. split; [done|].
    intros y x. rewrite Hcells.
    destruct (decide (y < sh.1)%nat); [done|].
    by rewrite (shape_no_cell sh fs y x) by (done || lia).
Qed.

(** Lines 145-147 on matrices of one shape: the sum, cell by cell. *)
Lemma accumulate_spec sh (fs score : Score) :
  has_shape sh fs -> has_shape sh score ->
  exists fs', accumulate fs score = Return fs' /\ has_shape sh fs' /\
    forall y x, cell fs' y x
                = (fun f => float_add f (default (S754_zero false) (cell score y x)))
                  <$> cell fs y x.
Proof.
  intros Hfs Hscore. unfold accumulate.
  replace (length score) with sh.1 by (symmetry; apply Hscore).
  apply (matrix_loop sh
           (fun y x f => float_add f (default (S754_zero false) (cell score y x)))); [done|].
  intros y cur Hy Hcur.
  destruct (shape_row sh score 0 Hscore) as (row0 & Hrow0 & Hlen0); [lia|].
  unfold index at 1. rewrite Hrow0. cbn. rewrite Hlen0.
  apply (row_loop sh
           (fun x f => float_add f (default (S754_zero false) (cell score y x)))); [done..|].
  intros x cur' row f Hx Hrow Hf.
  destruct (shape_cell sh score y x Hscore Hy Hx) as (srow & s & Hsrow & Hs & Hcs).
  unfold iadd_cell, index. rewrite Hrow. cbn. rewrite Hf. cbn.
  rewrite Hsrow. cbn. rewrite Hs. cbn. by rewrite Hcs.
Qed.

Lemma shape_zeros sh : has_shape sh (zeros sh).
Proof.
  unfold zeros. split; [by rewrite length_replicate|].
  apply Forall_replicate. by rewrite length_replicate.
Qed.

Lemma cell_zeros sh y x :
  (y < sh.1)%nat -> (x < sh.2)%nat -> cell (zeros sh) y x = Some (S754_zero false).
Proof.
  intros Hy Hx. unfold cell, zeros.
  rewrite lookup_replicate_2 by done. cbn. by rewrite lookup_replicate_2.
Qed.

(** All the images accumulated: every cell is the sum, from the left, of
    that cell over the images. *)
Lemma accumulate_all_spec sh (scores : list Score) (fs : Score) :
  Forall (has_shape sh) scores -> has_shape sh fs ->
  exists fs', for_in scores (fun score fs => accumulate fs score) fs = Return fs' /\
    has_shape sh fs' /\
    forall y x, cell fs' y x = (fun f => fold_left float_add (column y x scores) f)
                               <$> cell fs y x.
Proof.
  intros Hscores. revert fs. induction Hscores as [|score scores Hscore _ IH]; intros fs Hfs.
  - exists fs. split; [done|]. split; [done|]. intros y x. by destruct (cell fs y x).
  - destruct (accumulate_spec sh fs score Hfs Hscore) as (fs1 & Hacc & Hsh1 & Hc1).
    destruct (IH fs1 Hsh1) as (fs2 & Hrest & Hsh2 & Hc2).
    exists fs2. split; [cbn [for_in]; rewrite Hacc; exact Hrest|]. split; [done|].
    intros y x. rewrite Hc2, Hc1. by destruct (cell fs y x).
Qed.

Lemma column_flags y x (scores : list Score) :
  Forall flag_matrix scores -> Forall is_flag (column y x scores).
Proof.
  intros Hscores. unfold column. apply Forall_fmap.
  eapply Forall_impl; [exact Hscores|]. intros m Hm. cbn.
  unfold cell. destruct (m !! y) as [row|] eqn:Hrow; cbn; [|by left].
  destruct (row !! x) as [f|] eqn:Hf; cbn; [|by left].
  eapply (Forall_lookup_1 _ _ _ _ (Forall_lookup_1 _ _ _ _ Hm Hrow) Hf).
Qed.

End Aggregation.

(** ** The parameter block of the setup *)

Section ParameterBlock.
Context {L : Library}.

(** X1. Without a modeCDCOM entry the setup in analysis mode ends at line 75
    with [KeyError('modeCDCOM')], before any library is called: the handler
    of line 76 is for [AttributeError]. *)
Theorem missing_modeCDCOM inputfile (params : gmap string PyVal) env pv :
  params !! "phantomversion" = Some pv ->
  params !! "modeCDCOM" = None ->
  cdmamsetup_series inputfile params false env
  = mkRun (Raise (KeyError "modeCDCOM")) env [] [].
Proof.
  intros Hpv Hnone. unfold cdmamsetup_series.
  rewrite run_bind. unfold and_then. cbn.
  unfold getitem. rewrite Hpv, Hnone. reflexivity.
Qed.

(** X2. A parsCDCOM entry that is not a string has no [split]: the setup
    ends at line 82 with the [ValueError] for a malformed parameter, before
    any library is called. *)
Theorem malformed_parsCDCOM inputfile (params : gmap string PyVal) env pv mode v :
  params !! "phantomversion" = Some pv ->
  params !! "modeCDCOM" = Some mode ->
  params !! "parsCDCOM" = Some v ->
  (forall s, v <> PyStr s) ->
  cdmamsetup_series inputfile params false env
  = mkRun (Raise (ValueError "[CDMam_wadwrapper]  malformed parsCDCOM parameter!")) env [] [].
Proof.
  intros Hpv Hmode Hpars Hv. unfold cdmamsetup_series.
  rewrite run_bind. unfold and_then. cbn.
  unfold getitem, get. rewrite Hpv, Hmode, Hpars. cbn.
  destruct v; try reflexivity. by destruct (Hv s).
Qed.

(** X3. In analysis mode a library is called exactly when the parameters
    pass the block of lines 68-82: both required entries are there and
    parsCDCOM is absent or a string. The first call is then [prepareInput]
    on the input files, with [headers_only=False]. *)
Theorem library_reached inputfile (params : gmap string PyVal) env :
  let r := cdmamsetup_series inputfile params false env in
  (calls r <> [] <->
   exists pv mode, params !! "phantomversion" = Some pv /\
     params !! "modeCDCOM" = Some mode /\
     (params !! "parsCDCOM" = None \/ exists s, params !! "parsCDCOM" = Some (PyStr s))) /\
  (calls r <> [] ->
   head (calls r)
   = Some (ev_prepareInput inputfile false (prepareInput inputfile false logTag env).1)).
Proof.
  cbv zeta. unfold cdmamsetup_series.
  run_step.
  - destruct a as [[pv' mode'] pars].
    assert (Hhead : forall (t : Run (QCLib * CDMamStruct Rest * bool)) ev,
              calls t = ev :: tail (calls t) -> calls t <> [] /\ head (calls t) = Some ev).
    { intros t ev ->. done. }
    match goal with |- (calls ?t <> [] <-> _) /\ _ =>
      destruct (Hhead t (ev_prepareInput inputfile false
                           (prepareInput inputfile false logTag env).1)) as [Hne Hhd]
    end.
    { run_step; [destruct a as [[dcm pix] dm]|]; reflexivity. }
    split; [|by intros _]. split; [intros _|done].
    revert Hrun. cbn. unfold getitem, get.
    destruct (params !! "phantomversion") as [pv|]; [|discriminate]. cbn.
    destruct (params !! "modeCDCOM") as [mode|]; [|discriminate]. cbn.
    destruct (params !! "parsCDCOM") as [[| | |s|]|]; cbn; try discriminate; eauto 10.
  - split; [|done]. split; [done|].
    intros (pv & mode & Hpv & Hmode & Hpars). revert Hrun. cbn. unfold getitem, get.
    rewrite Hpv, Hmode. cbn. by destruct Hpars as [-> | [s ->]].
Qed.

End ParameterBlock.

Lemma missing_modeCDCOM_witness :
  cdmamsetup_series (L := Demo.lib) ["img1.dcm"] (<["phantomversion" := PyStr "3.2"]> ∅)
    false 0%nat
  = mkRun (L := Demo.lib) (Raise (KeyError "modeCDCOM")) 0%nat [] [].
Proof.
  apply (missing_modeCDCOM (L := Demo.lib) ["img1.dcm"]
           (<["phantomversion" := PyStr "3.2"]> ∅) 0%nat (PyStr "3.2")).
  - reflexivity.
  - reflexivity.
Defined.

Lemma malformed_parsCDCOM_witness :
  cdmamsetup_series (L := Demo.lib) ["img1.dcm"]
    (<["parsCDCOM" := PyInt 3]> Demo.params_builtin) false 0%nat
  = mkRun (L := Demo.lib)
      (Raise (ValueError "[CDMam_wadwrapper]  malformed parsCDCOM parameter!"))
      0%nat [] [].
Proof.
  apply (malformed_parsCDCOM (L := Demo.lib) ["img1.dcm"]
           (<["parsCDCOM" := PyInt 3]> Demo.params_builtin) 0%nat
           (PyStr "3.2") (PyStr "False") (PyInt 3)).
  - reflexivity.
  - reflexivity.
  - reflexivity.
  - discriminate.
Defined.

(** ** What the setup hands on *)

Section SetupStructure.
Context {L : Library}.

(** In analysis mode the [parsCDCOM] handed to determineScannerID is the
    parsing of the parameter or of its default. *)
Lemma setup_parsCDCOM inputfile (params : gmap string PyVal) env q cs out :
  ev_determineScannerID q cs out ∈ calls (cdmamsetup_series inputfile params false env) ->
  split_val ";" (get params "parsCDCOM" (PyStr "")) = Return (parsCDCOM cs).
Proof.
  unfold cdmamsetup_series.
  run_steps.
  all: intros H; among_calls H.
  all: simplify_eq/=.
  all: revert Hrun; unfold getitem; cbn.
  all: destruct (params !! "phantomversion"); [|discriminate]; cbn.
  all: destruct (params !! "modeCDCOM"); [|discriminate]; cbn.
  all: destruct (split_val ";" (get params "parsCDCOM" (PyStr ""))) as [pars|e']; cbn.
  all: try (intros [= <- <- <-]; reflexivity).
  all: destruct (is_AttributeError e'); discriminate.
Qed.

(** X4. The structure handed to [determineScannerID] is the one the
    constructor of [CDMamStruct] returned for the data of [prepareInput],
    with four attributes overwritten: [imnum] is 0, [verbose] is False,
    [imageFileName] is the first input file and [parsCDCOM] is the parsed
    parameter, that is the split of params['parsCDCOM'] (or of '') in
    analysis mode and the empty list in header-only mode; the scanner is
    identified by the object [CDMam()] returned.  The phantom version given
    to the constructor is '3.2' in header-only mode and the parameter, as it
    is, in analysis mode. *)
Theorem scanner_structure inputfile (params : gmap string PyVal) headers_only env q cs out :
  let r := cdmamsetup_series inputfile params headers_only env in
  ev_determineScannerID q cs out ∈ calls r ->
  exists dcm pix dm pv cs0,
    calls r = [ev_prepareInput inputfile headers_only (Return (dcm, pix, dm));
               ev_CDMam (Return q);
               ev_CDMamStruct dcm pix pv (Return cs0);
               ev_determineScannerID q cs out] /\
    (if headers_only then pv = PyStr "3.2" else params !! "phantomversion" = Some pv) /\
    inputfile !! 0 = Some (imageFileName cs) /\
    cs = set_parsCDCOM (parsCDCOM cs)
           (set_imageFileName (imageFileName cs) (set_verbose false (set_imnum 0 cs0))) /\
    (if headers_only then parsCDCOM cs = []
     else split_val ";" (get params "parsCDCOM" (PyStr "")) = Return (parsCDCOM cs)).
Proof.
  cbv zeta. intros Hev.
  assert (Hpars : if headers_only then parsCDCOM cs = []
                  else split_val ";" (get params "parsCDCOM" (PyStr ""))
                       = Return (parsCDCOM cs)).
  { destruct headers_only.
    - by apply (header_mode_shape inputfile params env) in Hev.
    - by apply setup_parsCDCOM in Hev. }
  revert Hev. unfold cdmamsetup_series.
  run_steps.
  all: intros H; among_calls H.
  all: simplify_eq.
  all: match goal with H : index _ _ = Return _ |- _ => apply index_Return in H end.
  all: repeat match goal with H : _.1 = Return _ |- _ => rewrite H end.
  all: eexists _, _, _, _, _; split; [reflexivity|]; split;
         [|split; [eassumption | split; [reflexivity | exact Hpars]]].
  all: clear Hpars.
  all: destruct headers_only; revert Hrun; cbn; unfold getitem.
  all: try (intros [= <- <- <-]; reflexivity).
  all: destruct (params !! "phantomversion") as [pv|]; [|discriminate]; cbn.
  all: destruct (params !! "modeCDCOM") as [v|]; [|discriminate]; cbn.
  all: destruct (split_val ";" (get params "parsCDCOM" (PyStr ""))) as [pars|e']; cbn.
  all: try (intros [= <- <- <-]; reflexivity).
  all: destruct (is_AttributeError e'); discriminate.
Qed.

(** X5. With an empty list of input files the setup fails, but not at once:
    whenever the parameters pass (and in header-only mode there is nothing
    to pass) the first call is [prepareInput], on the empty list, and when
    the three constructors return, the run is these three calls and then the
    [IndexError] of line 96; [determineScannerID] is not called. *)
Theorem setup_without_files (params : gmap string PyVal) (headers_only : bool) env :
  let r := cdmamsetup_series [] params headers_only env in
  (exists e, outcome r = Raise e) /\
  (forall q cs out, ev_determineScannerID q cs out ∉ calls r) /\
  (forall dcm pix pv cs0,
      ev_CDMamStruct dcm pix pv (Return cs0) ∈ calls r ->
      outcome r = Raise (IndexError "list index out of range")) /\
  (forall inputfile ho out, ev_prepareInput inputfile ho out ∈ calls r -> inputfile = []) /\
  (headers_only = true \/
   (exists pv mode, params !! "phantomversion" = Some pv /\
      params !! "modeCDCOM" = Some mode /\
      (params !! "parsCDCOM" = None \/ exists s, params !! "parsCDCOM" = Some (PyStr s))) ->
   head (calls r)
   = Some (ev_prepareInput [] headers_only (prepareInput [] headers_only logTag env).1)) /\
  (forall pv dcm pix dm env1 q env2 cs0 env3,
     headers_only = true /\ pv = PyStr "3.2" \/
     (headers_only = false /\ params !! "phantomversion" = Some pv /\
      (exists mode, params !! "modeCDCOM" = Some mode) /\
      (params !! "parsCDCOM" = None \/ exists s, params !! "parsCDCOM" = Some (PyStr s))) ->
     prepareInput [] headers_only logTag env = (Return (dcm, pix, dm), env1) ->
     new_CDMam env1 = (Return q, env2) ->
     new_CDMamStruct dcm pix pv env2 = (Return cs0, env3) ->
     r = mkRun (Raise (IndexError "list index out of range")) env3
           [ev_prepareInput [] headers_only (Return (dcm, pix, dm));
            ev_CDMam (Return q);
            ev_CDMamStruct dcm pix pv (Return cs0)] []).
Proof.
  cbv zeta.
  assert (Hblock : forall pv,
    headers_only = true /\ pv = PyStr "3.2" \/
    (headers_only = false /\ params !! "phantomversion" = Some pv /\
     (exists mode, params !! "modeCDCOM" = Some mode) /\
     (params !! "parsCDCOM" = None \/ exists s, params !! "parsCDCOM" = Some (PyStr s))) ->
    exists mode pars,
      (if negb headers_only
       then
         phantomversion ← try_except (getitem params "phantomversion")
           is_AttributeError
           (Raise (ValueError (logTag +:+ " missing phantomversion parameter!")));
         modeCDCOM ← try_except
           (v ← getitem params "modeCDCOM";
            mret (String.eqb (lower (str v)) "true"))
           is_AttributeError
           (Raise (ValueError (logTag +:+ " missing cdcommode parameter!")));
         parsCDCOM ← try_except
           (let parsCDCOM := get params "parsCDCOM" (PyStr "") in
            split_val ";" parsCDCOM)
           is_AttributeError
           (Raise (ValueError (logTag +:+ " malformed parsCDCOM parameter!")));
         mret (phantomversion, modeCDCOM, parsCDCOM)
       else mret (PyStr "3.2", false, []))
      = Return (pv, mode, pars)).
  { intros pv [[-> ->] | (-> & Hpv & [mode Hmode] & Hpars)]; cbn [negb].
    - by eexists _, _.
    - unfold getitem, get. rewrite Hpv, Hmode. cbn.
      destruct Hpars as [-> | [s ->]]; cbn; by eexists _, _. }
  split; [|split; [|split; [|split; [|split]]]].
  5:{ intros Hok.
      assert (exists pv, headers_only = true /\ pv = PyStr "3.2" \/
                (headers_only = false /\ params !! "phantomversion" = Some pv /\
                 (exists mode, params !! "modeCDCOM" = Some mode) /\
                 (params !! "parsCDCOM" = None \/
                  exists s, params !! "parsCDCOM" = Some (PyStr s)))) as [pv Hpv].
      { destruct Hok as [-> | (pv & mode & ? & ? & ?)]; [by exists (PyStr "3.2"); left|].
        destruct headers_only; [by exists (PyStr "3.2"); left|].
        exists pv. right. eauto 10. }
      destruct (Hblock pv Hpv) as (mode & pars & Hb).
      unfold cdmamsetup_series.
      run_step; [|congruence]. destruct a as [[pv' mode'] pars'].
      run_step; [destruct a as [[dcm pix] dm]|]; reflexivity. }
  5:{ intros * Hok Hprep Hq Hcs.
      destruct (Hblock pv Hok) as (mode & pars & Hb).
      unfold cdmamsetup_series.
      run_step; [|congruence].
      rewrite Hb in Hrun. injection Hrun as <-.
      run_step; rewrite Hprep in *; cbn [fst snd] in *; [|discriminate].
      injection Hrun as <-.
      run_step; rewrite Hq in *; cbn [fst snd] in *; [|discriminate].
      injection Hrun as <-.
      run_step; rewrite Hcs in *; cbn [fst snd] in *; [|discriminate].
      injection Hrun as <-.
      run_step; [discriminate|].
      cbn in Hrun. by injection Hrun as <-. }
  all: clear Hblock.
  all: unfold cdmamsetup_series.
  all: run_steps.
  all: try match goal with H : index [] 0 = Return _ |- _ => discriminate H end.
  all: eauto.
  all: try (intros * H; among_calls H; by simplify_eq).
  all: intros * H; among_calls H; simplify_eq.
  all: cbn in *; congruence.
Qed.

(** X6. The detector mode for the values a configuration can give to
    modeCDCOM: a JSON boolean switches as it says, a string when it reads
    'true' in any case, and a number or null never switches the external
    detector on. *)
Theorem modeCDCOM_values inputfile (params : gmap string PyVal) env q cs mode v :
  outcome (cdmamsetup_series inputfile params false env) = Return (q, cs, mode) ->
  params !! "modeCDCOM" = Some v ->
  mode = match v with
         | PyBool b => b
         | PyNone | PyInt _ => false
         | PyStr s | PyObj s => String.eqb (lower s) "true"
         end.
Proof.
  intros Hret Hv.
  destruct (setup_returns _ _ _ _ _ _ Hret) as (pv & v' & _ & Hv' & ->).
  rewrite Hv in Hv'. injection Hv' as <-.
  destruct v as [|[]|z|s|s]; try reflexivity.
  cbn [str]. destruct (Z.to_int z) as [d|d]; destruct d; reflexivity.
Qed.

End SetupStructure.

Lemma scanner_structure_witness :
  exists dcm pix dm pv cs0,
    calls (cdmamsetup_series (L := Demo.lib) ["img1.dcm"] Demo.params_cdcom false 0%nat)
    = [ev_prepareInput (L := Demo.lib) ["img1.dcm"] false (Return (dcm, pix, dm));
       ev_CDMam (L := Demo.lib) (Return tt);
       ev_CDMamStruct (L := Demo.lib) dcm pix pv (Return cs0);
       ev_determineScannerID (L := Demo.lib) tt DemoModule.unscanned
         (Return Demo.cdcom_ready)] /\
    Demo.params_cdcom !! "phantomversion" = Some pv /\
    ["img1.dcm"] !! 0%nat = Some (imageFileName DemoModule.unscanned) /\
    DemoModule.unscanned
    = set_parsCDCOM (parsCDCOM DemoModule.unscanned)
        (set_imageFileName (imageFileName DemoModule.unscanned)
           (set_verbose false (set_imnum 0 cs0))) /\
    split_val ";" (get Demo.params_cdcom "parsCDCOM" (PyStr ""))
    = Return (parsCDCOM DemoModule.unscanned).
Proof.
  apply (scanner_structure (L := Demo.lib) ["img1.dcm"] Demo.params_cdcom false 0%nat tt
           DemoModule.unscanned (Return Demo.cdcom_ready)).
  apply (list_elem_of_lookup_2 _ 3). vm_compute. reflexivity.
Defined.

Lemma setup_without_files_witness :
  cdmamsetup_series (L := DemoModule.lenient) [] ∅ true 0%nat
  = mkRun (L := DemoModule.lenient) (Raise (IndexError "list index out of range")) 0%nat
      [ev_prepareInput (L := DemoModule.lenient) [] true (Return ("", tt, tt));
       ev_CDMam (L := DemoModule.lenient) (Return tt);
       ev_CDMamStruct (L := DemoModule.lenient) "" tt (PyStr "3.2")
         (Return (Demo.blank (1, 2)%nat))] [].
Proof.
  exact (proj2 (proj2 (proj2 (proj2 (proj2
           (setup_without_files (L := DemoModule.lenient) ∅ true 0%nat)))))
           (PyStr "3.2") "" tt tt 0%nat tt 0%nat (Demo.blank (1, 2)%nat) 0%nat
           (or_introl (conj eq_refl eq_refl)) eq_refl eq_refl eq_refl).
Defined.

Lemma modeCDCOM_values_witness :
  outcome (cdmamsetup_series (L := Demo.lib) ["img1.dcm"] Demo.params_cdcom false 0%nat)
  = Return (tt, Demo.cdcom_ready, true) /\
  Demo.params_cdcom !! "modeCDCOM" = Some (PyBool true) /\
  true = match PyBool true with
         | PyBool b => b
         | PyNone | PyInt _ => false
         | PyStr s | PyObj s => String.eqb (lower s) "true"
         end.
Proof.
  assert (Hret : outcome (cdmamsetup_series (L := Demo.lib) ["img1.dcm"] Demo.params_cdcom
                            false 0%nat)
                 = Return (tt, Demo.cdcom_ready, true)) by (vm_compute; reflexivity).
  assert (Hv : Demo.params_cdcom !! "modeCDCOM" = Some (PyBool true)) by reflexivity.
  split; [exact Hret|]. split; [exact Hv|].
  exact (modeCDCOM_values (L := Demo.lib) ["img1.dcm"] Demo.params_cdcom 0%nat tt
           Demo.cdcom_ready true (PyBool true) Hret Hv).
Defined.

(** ** Library failures *)

Section FailFast.
Context {L : Library}.

Lemma fail_fast_lift {A : Type} (o : Outcome A) env : fail_fast (lift o env).
Proof. intros ev e H. among_calls H. Qed.

Lemma fail_fast_ret {A : Type} (a : A) env : fail_fast ((mret a : M A) env).
Proof. intros ev e H. among_calls H. Qed.

Lemma fail_fast_emit (res : Result) env : fail_fast (emit res env).
Proof. intros ev e H. among_calls H. Qed.

Lemma fail_fast_call {A : Type} (ev : Outcome A -> Event) f env :
  (forall out, raised (ev out) = exn_of out) -> fail_fast (call ev f env).
Proof.
  intros Hev ev' e H. cbn in H. among_calls H. subst ev'. rewrite Hev. cbn.
  destruct (f env).1; cbn; [discriminate|]. by intros [= ->].
Qed.

Lemma fail_fast_bind {A B : Type} (m : M A) (k : A -> M B) env :
  fail_fast (m env) -> (forall a env', fail_fast (k a env')) -> fail_fast ((m ≫= k) env).
Proof.
  intros Hm Hk ev e. run_step.
  - intros H Hr. apply elem_of_app in H as [H | H].
    + destruct (Hm ev e H Hr) as [Ho _]. congruence.
    + destruct (Hk a _ ev e H Hr) as [Ho Hl]. split; [done|].
      destruct (calls (k a (env_after (m env)))) as [|ev0 l] using rev_ind; [by among_calls H|].
      rewrite app_assoc, last_snoc. by rewrite last_snoc in Hl.
  - intros H Hr. destruct (Hm ev e H Hr) as [Ho Hl]. split; [congruence | done].
Qed.

Lemma fail_fast_for_in {A S : Type} (l : list A) (body : A -> S -> M S) s env :
  (forall a s env, fail_fast (body a s env)) -> fail_fast (for_in l body s env).
Proof.
  intros Hbody. revert s env. induction l as [|a l IH]; intros s env.
  - apply fail_fast_ret.
  - cbn [for_in]. apply fail_fast_bind; [apply Hbody | intros; apply IH].
Qed.

End FailFast.

(** A computation built from calls, expressions of the wrapper's own and
    results is fail-fast. *)
Ltac solve_fail_fast :=
  repeat first
    [ apply fail_fast_lift
    | apply fail_fast_ret
    | apply fail_fast_emit
    | apply fail_fast_call; intros; reflexivity
    | apply fail_fast_for_in; intros
    | apply fail_fast_bind; [| intros; repeat case_match ]
    | case_match ].

Section Failures.
Context {L : Library}.

Lemma setup_fail_fast inputfile params headers_only env :
  fail_fast (cdmamsetup_series inputfile params headers_only env).
Proof. unfold cdmamsetup_series. solve_fail_fast. Qed.

Lemma qc_series_fail_fast data action env : fail_fast (qc_series data action env).
Proof. unfold qc_series. solve_fail_fast. all: apply setup_fail_fast. Qed.

Lemma header_series_fail_fast data action env : fail_fast (header_series data action env).
Proof. unfold header_series. solve_fail_fast. all: apply setup_fail_fast. Qed.

End Failures.

(** ** The calls and the results of the two series functions *)

Section Series.
Context {L : Library}.

Lemma setup_callees inputfile (params : gmap string PyVal) headers_only env :
  let r := cdmamsetup_series inputfile params headers_only env in
  (exists k, ["prepareInput"; "CDMam"; "CDMamStruct"; "determineScannerID"]
             = (callee <$> calls r) ++ k /\
             forall a, outcome r = Return a -> k = []) /\
  (forall inputfile' ho out, ev_prepareInput inputfile' ho out ∈ calls r ->
                             inputfile' = inputfile /\ ho = headers_only) /\
  (forall q cs level out, ev_DICOMInfo q cs level out ∉ calls r).
Proof.
  cbv zeta. unfold cdmamsetup_series. run_steps.
  all: split; [eexists; split; [reflexivity | try done]|].
  all: split; intros * H; among_calls H; by simplify_eq.
Qed.

(** X7. [qc_series] calls the libraries in one order: prepareInput on the
    first series with [headers_only=False], CDMam, CDMamStruct,
    determineScannerID, one of the two detectors, thresholdThickness. A run
    stops early only by raising; a run that returns made all six calls.
    DICOMInfo is not called. *)
Theorem qc_series_call_sequence data action env :
  let r := qc_series data action env in
  (exists det, (det = "CDMamSingle" \/ det = "CDCOMSingle") /\
     (callee <$> calls r) `prefix_of`
       ["prepareInput"; "CDMam"; "CDMamStruct"; "determineScannerID"; det;
        "thresholdThickness"] /\
     (outcome r = Return tt ->
      callee <$> calls r
      = ["prepareInput"; "CDMam"; "CDMamStruct"; "determineScannerID"; det;
         "thresholdThickness"])) /\
  (forall inputfile ho out, ev_prepareInput inputfile ho out ∈ calls r ->
     ho = false /\ series_filelist data !! 0 = Some inputfile) /\
  (forall q cs level out, ev_DICOMInfo q cs level out ∉ calls r).
Proof.
  cbv zeta. rewrite qc_series_run.
  run_step.
  2:{ split; [exists "CDMamSingle"; split; [by left|]; split; [by eexists | done]|].
      split; intros * H; among_calls H. }
  apply index_Return in Hrun.
  destruct (setup_callees a (default ∅ (action_items action !! "params")) false env)
    as ((k & Hk & Hret) & Hprep & Hinfo).
  run_step.
  2:{ split; [exists "CDMamSingle"; split; [by left|]; split; [|done]|].
      - exists (k ++ ["CDMamSingle"; "thresholdThickness"]).
        rewrite app_assoc, <- Hk. reflexivity.
      - split; [intros * H; apply Hprep in H as [-> ->]; done | apply Hinfo]. }
  destruct a0 as [[q cs] mode]. rewrite (Hret _ eq_refl), app_nil_r in Hk.
  assert (Hsplit : forall (t : Run unit) det,
    (det = "CDMamSingle" \/ det = "CDCOMSingle") ->
    ((callee <$> calls t) `prefix_of` [det; "thresholdThickness"] /\
     (outcome t = Return tt -> callee <$> calls t = [det; "thresholdThickness"]) /\
     (forall inputfile ho out, ev_prepareInput inputfile ho out ∉ calls t) /\
     (forall q cs level out, ev_DICOMInfo q cs level out ∉ calls t)) ->
    let cl := calls (cdmamsetup_series a (default ∅ (action_items action !! "params"))
                       false env) ++ calls t in
    (exists det, (det = "CDMamSingle" \/ det = "CDCOMSingle") /\
       (callee <$> cl) `prefix_of`
         ["prepareInput"; "CDMam"; "CDMamStruct"; "determineScannerID"; det;
          "thresholdThickness"] /\
       (outcome t = Return tt ->
        callee <$> cl
        = ["prepareInput"; "CDMam"; "CDMamStruct"; "determineScannerID"; det;
           "thresholdThickness"])) /\
    (forall inputfile ho out, ev_prepareInput inputfile ho out ∈ cl ->
       ho = false /\ series_filelist data !! 0 = Some inputfile) /\
    (forall q cs level out, ev_DICOMInfo q cs level out ∉ cl)).
  { intros t det Hdet ([k' Hpre] & Hall & Hnoprep & Hnoinfo). cbv zeta.
    rewrite fmap_app, <- Hk.
    split; [exists det; split; [done|]; split|split].
    - exists k'. rewrite <- app_assoc, <- Hpre. reflexivity.
    - intros Ht. by rewrite (Hall Ht).
    - intros * H. apply elem_of_app in H as [H | H]; [|by apply Hnoprep in H].
      apply Hprep in H as [-> ->]. done.
    - intros * H. apply elem_of_app in H as [H | H]; [by apply Hinfo in H|].
      by apply Hnoinfo in H. }
  destruct mode; cbn [negb].
  - match goal with |- context [outcome ?t = Return tt] =>
      apply (Hsplit t "CDCOMSingle"); [by right|] end.
    run_steps.
    all: split; [by eexists|]. all: split; [done|].
    all: split; intros * H; among_calls H.
  - match goal with |- context [outcome ?t = Return tt] =>
      apply (Hsplit t "CDMamSingle"); [by left|] end.
    run_steps.
    all: split; [by eexists|]. all: split; [done|].
    all: split; intros * H; among_calls H.
Qed.

End Series.

Section SeriesResults.
Context {L : Library}.

(** X8. [header_series] calls prepareInput on the first series with
    [headers_only=True], CDMam, CDMamStruct, determineScannerID and
    DICOMInfo at level 'qc', in this order; it calls no detector and no
    threshold fit, and what it writes are strings only. *)
Theorem header_series_call_sequence data action env :
  let r := header_series data action env in
  (callee <$> calls r) `prefix_of`
    ["prepareInput"; "CDMam"; "CDMamStruct"; "determineScannerID"; "DICOMInfo"] /\
  (outcome r = Return tt ->
   callee <$> calls r
   = ["prepareInput"; "CDMam"; "CDMamStruct"; "determineScannerID"; "DICOMInfo"]) /\
  (forall inputfile ho out, ev_prepareInput inputfile ho out ∈ calls r ->
     ho = true /\ series_filelist data !! 0 = Some inputfile) /\
  (forall q cs level out, ev_DICOMInfo q cs level out ∈ calls r -> level = "qc") /\
  float_results (emitted r) = [] /\ object_results (emitted r) = [].
Proof.
  cbv zeta. rewrite header_series_run.
  run_step.
  2:{ split; [by eexists|]. split; [done|].
      split; [intros * H; among_calls H|]. split; [intros * H; among_calls H|]. done. }
  apply index_Return in Hrun.
  destruct (setup_callees a (default ∅ (action_items action !! "params")) true env)
    as ((k & Hk & Hret) & Hprep & Hinfo).
  run_step.
  2:{ rewrite setup_emits_nothing. split; [|split; [done|split; [|split; [|done]]]].
      - exists (k ++ ["DICOMInfo"]). rewrite app_assoc, <- Hk. reflexivity.
      - intros * H. by apply Hprep in H as [-> ->].
      - intros * H. by apply Hinfo in H. }
  destruct a0 as [[q cs] mode]. rewrite (Hret _ eq_refl), app_nil_r in Hk.
  rewrite setup_emits_nothing. cbn [app].
  run_step; rewrite fmap_app, <- Hk.
  - destruct a0 as [cs1 info]. cbn [emit_all calls emitted outcome app fmap list_fmap].
    split; [by exists []|]. split; [done|]. split; [|split; [|split]].
    + intros * H. apply elem_of_app in H as [H | H]; [|by among_calls H].
      by apply Hprep in H as [-> ->].
    + intros * H. apply elem_of_app in H as [H | H]; [by apply Hinfo in H|].
      among_calls H. by simplify_eq.
    + cbn. clear. induction info as [|di info IH]; [reflexivity | exact IH].
    + cbn. clear. induction info as [|di info IH]; [reflexivity | exact IH].
  - split; [by exists []|]. split; [done|]. split; [|split; [|done]].
    + intros * H. apply elem_of_app in H as [H | H]; [|by among_calls H].
      by apply Hprep in H as [-> ->].
    + intros * H. apply elem_of_app in H as [H | H]; [by apply Hinfo in H|].
      among_calls H. by simplify_eq.
Qed.

(** X9. A library call of [qc_series] that raises ends the run: it is the
    last call, its exception is the exception of the run, and no result has
    been written. Results are written only by a run that returns, which
    writes at least the iqf. *)
Theorem qc_series_failures data action env :
  let r := qc_series data action env in
  (forall ev e, ev ∈ calls r -> raised ev = Some e ->
     outcome r = Raise e /\ last (calls r) = Some ev) /\
  (emitted r = [] <-> exists e, outcome r = Raise e).
Proof.
  cbv zeta. split; [apply qc_series_fail_fast|].
  destruct (qc_series_emitted data action env)
    as [(cs & _ & _ & Hret & Hem) | (_ & [e He] & Hem)].
  - rewrite Hem, Hret. split; [|by intros [e He]].
    unfold report. intros H. apply app_eq_nil in H as [_ H]. discriminate H.
  - rewrite Hem, He. split; eauto.
Qed.

Lemma header_series_emitted data action env :
  let r := header_series data action env in
  (outcome r = Return tt /\ emitted r <> []) \/
  ((exists e, outcome r = Raise e) /\ emitted r = []).
Proof.
  cbv zeta. rewrite header_series_run.
  run_step; [|right; eauto].
  run_step; rewrite setup_emits_nothing; [|right; eauto].
  destruct a0 as [[q cs] mode].
  run_step; [|right; eauto].
  destruct a0 as [cs1 info]. left. done.
Qed.

(** X10. The same for [header_series]: a library failure is the last call
    and the exception of the run, and results are written only by a run that
    returns, which writes at least the plugin version. *)
Theorem header_series_failures data action env :
  let r := header_series data action env in
  (forall ev e, ev ∈ calls r -> raised ev = Some e ->
     outcome r = Raise e /\ last (calls r) = Some ev) /\
  (emitted r = [] <-> exists e, outcome r = Raise e).
Proof.
  cbv zeta. split; [apply header_series_fail_fast|].
  destruct (header_series_emitted data action env) as [[Hret Hem] | [[e He] Hem]].
  - rewrite Hret. split; [done | by intros [e He]].
  - rewrite Hem, He. split; eauto.
Qed.

(** X11. An action without a 'params' entry makes [qc_series] fall back to
    the empty dict, which the setup then rejects: the run ends with
    [KeyError('phantomversion')] before any library is called. *)
Theorem qc_series_needs_params data action env inputfile :
  action_items action !! "params" = None ->
  series_filelist data !! 0 = Some inputfile ->
  qc_series data action env = mkRun (Raise (KeyError "phantomversion")) env [] [].
Proof.
  intros Hnone Hfile. rewrite qc_series_run, Hnone. cbn [default].
  apply index_Return in Hfile.
  rewrite run_bind, (and_then_Return (lift _ env) _ _ Hfile).
  cbn [lift outcome env_after calls emitted].
  rewrite run_bind.
  assert (Hs : cdmamsetup_series inputfile ∅ false env
               = mkRun (Raise (KeyError "phantomversion")) env [] []).
  { unfold cdmamsetup_series. rewrite run_bind. unfold and_then. reflexivity. }
  rewrite Hs. reflexivity.
Qed.

(** X12. Without a series in [data.series_filelist] both series functions
    end with [IndexError] at their line [inputfile =
    data.series_filelist[0]], before any library is called. *)
Theorem no_series data action env :
  series_filelist data = [] ->
  qc_series data action env
  = mkRun (Raise (IndexError "list index out of range")) env [] [] /\
  header_series data action env
  = mkRun (Raise (IndexError "list index out of range")) env [] [].
Proof.
  intros Hnil. rewrite qc_series_run, header_series_run, Hnil. split; reflexivity.
Qed.

(** X13. [header_series] does not depend on the action: the parameters it
    reads from it are not used in header-only mode. *)
Theorem header_series_ignores_action data action action' env :
  header_series data action env = header_series data action' env.
Proof.
  rewrite !header_series_run.
  apply bind_ext. intros inputfile env1. reflexivity.
Qed.

Lemma object_results_floats (f : pyfloat * pyfloat -> Result) (l : list (pyfloat * pyfloat)) :
  (forall p, exists n v, f p = addFloat n v) -> object_results (map f l) = [].
Proof.
  intros Hf. induction l as [|p l IH]; [reflexivity|].
  cbn. destruct (Hf p) as (n & v & ->). exact IH.
Qed.

Lemma object_results_objects (f : string -> string) (l : list string) :
  object_results (map (fun fn => addObject (f fn) fn) l) = map (fun fn => (f fn, fn)) l.
Proof. induction l as [|fn l IH]; cbn; [reflexivity | by rewrite <- IH]. Qed.

Lemma string_results_none (rs : list Result) :
  Forall (fun r => match r with addString _ _ => False | _ => True end) rs ->
  string_results rs = [].
Proof.
  induction 1 as [|r rs Hr _ IH]; [reflexivity|]. destruct r; cbn; [exact IH | done | exact IH].
Qed.

(** X14. A run of [qc_series] whose threshold fit returned has written the
    floats first and then the images: one object result for each file name
    in [cs.threshold_fnames] and then in [cs.fit_fnames], named by the file
    name without its extension; it has written no string. *)
Theorem qc_series_object_results data action env q cs0 score cs :
  let r := qc_series data action env in
  ev_thresholdThickness q cs0 score (Return cs) ∈ calls r ->
  object_results (emitted r)
  = map (fun fn => (splitext_root fn, fn)) (threshold_fnames cs ++ fit_fnames cs) /\
  emitted r
  = map (fun p => addFloat p.1 p.2) (float_results (emitted r)) ++
    map (fun p => addObject p.1 p.2) (object_results (emitted r)) /\
  string_results (emitted r) = [] /\
  length (emitted r)
  = (Nat.min (length (diam_mm cs)) (length (limit_um cs)) + 1
     + length (threshold_fnames cs) + length (fit_fnames cs))%nat.
Proof.
  cbv zeta. intros Hev.
  destruct (qc_series_emitted data action env)
    as [(cs' & Hall & _ & Hret & Hem) | (Hno & _)]; [|by apply Hno in Hev].
  apply Hall in Hev. injection Hev as Hcs. subst cs'.
  assert (Hobj : object_results (report cs)
                 = map (fun fn => (splitext_root fn, fn)) (threshold_fnames cs ++ fit_fnames cs)).
  { unfold report, object_results. rewrite !omap_app.
    fold (object_results (map (limit_float (identifyName cs)) (zip (diam_mm cs) (limit_um cs)))).
    rewrite object_results_floats by (intros p; by eexists _, _).
    fold (object_results (map (fun fn => addObject (splitext_root fn) fn) (threshold_fnames cs))).
    fold (object_results (map (fun fn => addObject (splitext_root fn) fn) (fit_fnames cs))).
    rewrite !object_results_objects, map_app. reflexivity. }
  rewrite Hem, Hobj, float_results_report. split; [reflexivity|]. split; [|split].
  - unfold report. rewrite !map_app, !map_map. cbn [map fst snd]. rewrite <- !app_assoc.
    reflexivity.
  - apply string_results_none. unfold report. rewrite !Forall_app, !Forall_map.
    repeat split; try (apply Forall_forall; intros; exact I). by repeat constructor.
  - unfold report. rewrite !length_app, !length_map, length_zip. cbn [length]. lia.
Qed.

End SeriesResults.

Lemma qc_series_needs_params_witness :
  qc_series (L := Demo.lib) Demo.one_image {| action_items := ∅ |} 0%nat
  = mkRun (L := Demo.lib) (Raise (KeyError "phantomversion")) 0%nat [] [].
Proof.
  apply (qc_series_needs_params (L := Demo.lib) Demo.one_image {| action_items := ∅ |}
           0%nat ["img1.dcm"]).
  - reflexivity.
  - reflexivity.
Defined.

Lemma no_series_witness :
  qc_series (L := Demo.lib) {| series_filelist := [] |} (Demo.action_of Demo.params_builtin)
    0%nat
  = mkRun (L := Demo.lib) (Raise (IndexError "list index out of range")) 0%nat [] [] /\
  header_series (L := Demo.lib) {| series_filelist := [] |}
    (Demo.action_of Demo.params_builtin) 0%nat
  = mkRun (L := Demo.lib) (Raise (IndexError "list index out of range")) 0%nat [] [].
Proof.
  apply (no_series (L := Demo.lib) {| series_filelist := [] |}
           (Demo.action_of Demo.params_builtin) 0%nat).
  reflexivity.
Defined.

Lemma qc_series_object_results_witness :
  let r := qc_series (L := Demo.lib) Demo.one_image (Demo.action_of Demo.params_builtin) 0%nat in
  object_results (emitted r) = [("threshold.jpg", "threshold.jpg"); ("fit.jpg", "fit.jpg")] /\
  length (emitted r) = 5%nat.
Proof.
  destruct (qc_series_object_results (L := Demo.lib) Demo.one_image
              (Demo.action_of Demo.params_builtin) 0%nat tt Demo.builtin_ready
              [[float_of_Z 1; float_of_Z 0]] (Demo.fitted Demo.builtin_ready))
    as (Hobj & _ & _ & Hlen).
  - apply (list_elem_of_lookup_2 _ 5). vm_compute. reflexivity.
  - split; [exact Hobj | exact Hlen].
Defined.

(** ** Strings: the identification tag, the diameter in a name, parsCDCOM *)

Section Names.
Context {L : Library}.

Lemma append_nil_r (s : string) : s +:+ "" = s.
Proof.
  induction s as [|c s IH]; [reflexivity|].
  change (String c (s +:+ "") = String c s). by rewrite IH.
Qed.

Lemma append_assoc (s t u : string) : (s +:+ t) +:+ u = s +:+ t +:+ u.
Proof.
  induction s as [|c s IH]; [reflexivity|].
  change (String c ((s +:+ t) +:+ u) = String c (s +:+ t +:+ u)). by rewrite IH.
Qed.

(** X15. The tag is a filter part, an energy part and a presentation part,
    each from a fixed set, so it has between 3 and 9 characters and starts
    with an underscore. *)
Theorem identifyName_form (cs : CDMamStruct Rest) :
  exists a b c,
    identifyName cs = a +:+ b +:+ c /\
    a ∈ ["_XX"; "_RH"; "_MO"; "_AL"; "_AG"] /\
    b ∈ [""; "su"; "hi"; "lo"] /\
    c ∈ [""; "proc"; "pres"] /\
    (3 <= String.length (identifyName cs) <= 9)%nat /\
    String.prefix "_" (identifyName cs) = true.
Proof.
  exists (if contains "RHO" (filtername cs) then "_RH"
          else if contains "MOL" (filtername cs) then "_MO"
          else if contains "ALU" (filtername cs) then "_AL"
          else if contains "SILV" (filtername cs) then "_AG" else "_XX"),
         (if contains "SUM" (energypresentation cs) then "su"
          else if contains "HIGH" (energypresentation cs) then "hi"
          else if contains "LOW" (energypresentation cs) then "lo" else ""),
         (if contains "PROC" (energypresentation cs) then "proc"
          else if contains "PRES" (energypresentation cs) then "pres" else "").
  set (a := if contains "RHO" (filtername cs) then _ else _).
  set (b := if contains "SUM" (energypresentation cs) then _ else _).
  set (c := if contains "PROC" (energypresentation cs) then _ else _).
  assert (Ha : a ∈ ["_XX"; "_RH"; "_MO"; "_AL"; "_AG"] /\ String.length a = 3%nat /\
               String.prefix "_" a = true).
  { subst a. destruct (contains "RHO" (filtername cs)), (contains "MOL" (filtername cs)),
      (contains "ALU" (filtername cs)), (contains "SILV" (filtername cs)).
    all: split; [repeat constructor | split; reflexivity]. }
  assert (Hb : b ∈ [""; "su"; "hi"; "lo"] /\ (String.length b <= 2)%nat).
  { subst b. destruct (contains "SUM" (energypresentation cs)),
      (contains "HIGH" (energypresentation cs)), (contains "LOW" (energypresentation cs)).
    all: split; [repeat constructor | vm_compute; lia]. }
  assert (Hc : c ∈ [""; "proc"; "pres"] /\ (String.length c <= 4)%nat).
  { subst c. destruct (contains "PROC" (energypresentation cs)),
      (contains "PRES" (energypresentation cs)).
    all: split; [repeat constructor | vm_compute; lia]. }
  assert (Heq : identifyName cs = a +:+ b +:+ c).
  { unfold identifyName. subst b c.
    destruct (contains "SUM" (energypresentation cs)),
      (contains "HIGH" (energypresentation cs)), (contains "LOW" (energypresentation cs)),
      (contains "PROC" (energypresentation cs)), (contains "PRES" (energypresentation cs)).
    all: cbv zeta; fold a.
    all: rewrite ?append_assoc, ?append_nil_r; reflexivity. }
  destruct Ha as (Ha & Hla & Hpa), Hb as (Hb & Hlb), Hc as (Hc & Hlc).
  split; [exact Heq|]. do 3 (split; [assumption|]).
  rewrite Heq, !length_append. split; [lia|].
  destruct a as [|x a']; [discriminate Hla|].
  change (String.prefix "_" (String x (a' +:+ b +:+ c)) = true).
  cbn [String.prefix] in *.
  destruct (ascii_dec "_" x); [by destruct (a' +:+ b +:+ c) | done].
Qed.

Lemma lower_not_upper (d : ascii) : is_upper (lower_ascii d) = false.
Proof. destruct d as [[] [] [] [] [] [] [] []]; reflexivity. Qed.

Lemma contains_lower (c : ascii) (sub s : string) :
  is_upper c = true -> contains (String c sub) (lower s) = false.
Proof.
  intros Hc. induction s as [|d s IH]; [reflexivity|].
  cbn [lower contains String.prefix]. rewrite IH.
  destruct (ascii_dec c (lower_ascii d)) as [->|_]; [|reflexivity].
  by rewrite lower_not_upper in Hc.
Qed.

(** X16. The tag is matched in upper case only: a filter name and an energy
    presentation without upper-case letters give the tag '_XX'. *)
Theorem identifyName_case_sensitive (cs : CDMamStruct Rest) (f e : string) :
  filtername cs = lower f -> energypresentation cs = lower e ->
  identifyName cs = "_XX".
Proof.
  intros Hf He. unfold identifyName. rewrite Hf, He.
  by rewrite !contains_lower by reflexivity.
Qed.

Lemma uint_string_length (d : Decimal.uint) :
  (1 <= String.length (NilZero.string_of_uint d))%nat.
Proof. destruct d; cbn; lia. Qed.

Lemma fixed2_length (h : Z) : (4 <= String.length (fixed2 h))%nat.
Proof.
  unfold fixed2, two_digits. rewrite !length_append. cbn [String.length].
  pose proof (uint_string_length (N.to_uint (Z.to_N (h / 100)))).
  pose proof (uint_string_length (N.to_uint (Z.to_N ((h mod 100) / 10)))).
  pose proof (uint_string_length (N.to_uint (Z.to_N ((h mod 100) mod 10)))).
  lia.
Qed.

(** X17. Line 206 formats the diameter with '%0.2f' and fills it with zeros
    to four characters. For a diameter that is a number the fill adds
    nothing: '%0.2f' gives at least four characters. *)
Theorem zfill_keeps_numbers (di : pyfloat) :
  is_number di = true -> zfill 4 (format_0_2f di) = format_0_2f di.
Proof.
  intros Hnum. unfold zfill.
  replace (4 <=? String.length (format_0_2f di))%nat with true; [reflexivity|].
  symmetry. apply Nat.leb_le.
  destruct di as [[]|[]| |s m e]; try discriminate Hnum; try (cbn; lia).
  unfold format_0_2f. rewrite length_append.
  pose proof (fixed2_length (hundredths m e)). lia.
Qed.

Lemma split_nonempty (sep : ascii) (s : string) : split sep s <> [].
Proof.
  destruct s as [|c s]; [done|]. cbn.
  destruct (Ascii.eqb c sep); [done|]. by destruct (split sep s).
Qed.

Lemma join_cons (sep s : string) (l : list string) :
  l <> [] -> join sep (s :: l) = s +:+ sep +:+ join sep l.
Proof. by destruct l. Qed.

Lemma join_split (sep : ascii) (s : string) :
  join (String sep "") (split sep s) = s.
Proof.
  induction s as [|c s IH]; [reflexivity|]. cbn [split].
  destruct (Ascii.eqb_spec c sep) as [->|Hne].
  - rewrite join_cons by apply split_nonempty. cbn. by rewrite IH.
  - pose proof (split_nonempty sep s) as Hs.
    destruct (split sep s) as [|h t]; [done|].
    destruct t as [|h' t].
    + cbn in *. by rewrite IH.
    + rewrite join_cons by done. rewrite join_cons in IH by done.
      change (String c (h +:+ String sep "" +:+ join (String sep "") (h' :: t)) = String c s).
      by rewrite IH.
Qed.

Lemma split_no_sep (sep : ascii) (s : string) :
  Forall (fun p => contains (String sep "") p = false) (split sep s).
Proof.
  induction s as [|c s IH]; [by repeat constructor|]. cbn [split].
  destruct (Ascii.eqb_spec c sep) as [->|Hne].
  - constructor; [reflexivity | exact IH].
  - pose proof (split_nonempty sep s) as Hs.
    destruct (split sep s) as [|h t]; [done|].
    inversion IH as [|? ? Hh Ht]; subst. constructor; [|done].
    cbn [contains String.prefix]. rewrite Hh.
    destruct (ascii_dec sep c) as [->|_]; [done | reflexivity].
Qed.

(** X18. The parsCDCOM parameter is split at its semicolons and nothing is
    lost: the pieces handed to determineScannerID contain no semicolon, and
    joined by semicolons they give the parameter back. *)
Theorem parsCDCOM_round_trip inputfile (params : gmap string PyVal) env s q cs out :
  params !! "parsCDCOM" = Some (PyStr s) ->
  ev_determineScannerID q cs out ∈ calls (cdmamsetup_series inputfile params false env) ->
  join ";" (parsCDCOM cs) = s /\
  Forall (fun p => contains ";" p = false) (parsCDCOM cs) /\
  parsCDCOM cs <> [].
Proof.
  intros Hpars Hev. apply setup_parsCDCOM in Hev.
  unfold get in Hev. rewrite Hpars in Hev. cbn in Hev. injection Hev as <-.
  split; [apply join_split|]. split; [apply split_no_sep | apply split_nonempty].
Qed.

End Names.

Lemma identifyName_case_sensitive_witness :
  identifyName (L := Demo.lib)
    (mkStruct 0 false "" [] "rhodium" "sumpres" (1, 2)%nat [] [] (S754_zero false) [] [] tt)
  = "_XX".
Proof.
  apply (identifyName_case_sensitive (L := Demo.lib) _ "Rhodium" "SUMPRES").
  - reflexivity.
  - reflexivity.
Defined.

Lemma zfill_keeps_numbers_witness :
  zfill 4 (format_0_2f (Demo.fq 6 100)) = format_0_2f (Demo.fq 6 100).
Proof. apply zfill_keeps_numbers. reflexivity. Defined.

Lemma parsCDCOM_round_trip_witness :
  join ";" (parsCDCOM DemoModule.unscanned) = "c;high" /\
  Forall (fun p => contains ";" p = false) (parsCDCOM DemoModule.unscanned) /\
  parsCDCOM DemoModule.unscanned <> [].
Proof.
  apply (parsCDCOM_round_trip (L := Demo.lib) ["img1.dcm"] Demo.params_cdcom 0%nat "c;high"
           tt DemoModule.unscanned (Return Demo.cdcom_ready)).
  - reflexivity.
  - apply (list_elem_of_lookup_2 _ 3). vm_compute. reflexivity.
Defined.

(** ** The loop over the images *)

Section ImageLoop.
Context {L : Library}.

Lemma setup_no_detector inputfile (params : gmap string PyVal) headers_only env :
  omap detector_imnum (calls (cdmamsetup_series inputfile params headers_only env)) = [] /\
  omap detector_score (calls (cdmamsetup_series inputfile params headers_only env)) = [].
Proof. unfold cdmamsetup_series. run_steps. all: split; reflexivity. Qed.

(** Lines 137-149 for one image. *)
Lemma image_step (params : gmap string PyVal) fname st env :
  let r := cdmamqc_list_image params fname st env in
  (forall inputfile ho out, ev_prepareInput inputfile ho out ∈ calls r ->
     inputfile = [fname] /\ ho = false) /\
  match outcome r with
  | Return st' =>
      exists score,
        omap detector_imnum (calls r) = [l_imnum st] /\
        omap detector_score (calls r) = [score] /\
        accumulate (l_finalscore st) score = Return (l_finalscore st') /\
        l_imnum st' = (l_imnum st + 1)%Z
  | Raise _ =>
      omap detector_imnum (calls r) = [] \/ omap detector_imnum (calls r) = [l_imnum st]
  end.
Proof.
  cbv zeta. unfold cdmamqc_list_image.
  destruct (setup_no_detector [fname] params false env) as [Hnum Hscore].
  destruct (setup_callees [fname] params false env) as (_ & Hprep & _).
  run_step; [|split; [exact Hprep | by left]].
  destruct a as [[q cs] mode]. rewrite !omap_app, Hnum, Hscore. cbn [app].
  destruct mode; cbn [negb]; run_steps.
  all: split; [intros * H; apply elem_of_app in H as [H | H];
               [by apply Hprep in H | by among_calls H]|].
  all: cbn [omap detector_imnum detector_score imnum set_imnum l_finalscore l_imnum].
  all: repeat match goal with H : _.1 = _ |- _ => rewrite H end.
  all: try (by left). all: try (by right).
  all: eexists; repeat split; eassumption.
Qed.

(** X19. The loop of lines 136-149 sets up each image on its own, as an
    input of one file in analysis mode, and numbers the images: the
    detectors are called with [cs.imnum] counting up from the start value.
    When the loop returns, every image has been scored, the final score is
    the start matrix with the scores the detectors returned accumulated into
    it, in order, and [imnum] has advanced by the number of images. *)
Theorem image_loop (params : gmap string PyVal) filelist st env :
  let r := for_in filelist (cdmamqc_list_image params) st env in
  (forall inputfile ho out, ev_prepareInput inputfile ho out ∈ calls r ->
     ho = false /\ exists fname, inputfile = [fname] /\ fname ∈ filelist) /\
  (exists n, (n <= length filelist)%nat /\
     omap detector_imnum (calls r) = (fun k => (l_imnum st + Z.of_nat k)%Z) <$> seq 0 n) /\
  (forall st', outcome r = Return st' ->
     length (omap detector_score (calls r)) = length filelist /\
     length (omap detector_imnum (calls r)) = length filelist /\
     for_in (omap detector_score (calls r)) (fun score fs => accumulate fs score)
       (l_finalscore st) = Return (l_finalscore st') /\
     l_imnum st' = (l_imnum st + Z.of_nat (length filelist))%Z).
Proof.
  cbv zeta. revert st env. induction filelist as [|fname filelist IH]; intros st env.
  { split; [intros * H; among_calls H|]. split; [by exists 0%nat|].
    intros st' [= <-]. cbn. repeat split. lia. }
  cbn [for_in].
  destruct (image_step params fname st env) as [Hprep Hstep].
  run_step.
  - destruct Hstep as (score & Hnum & Hscore & Hacc & Himnum).
    destruct (IH a (env_after (cdmamqc_list_image params fname st env)))
      as (Hprep' & (n & Hn & Hnums) & Hret).
    rewrite !omap_app, Hnum, Hscore, Hnums. cbn [app].
    split; [|split].
    + intros * H. apply elem_of_app in H as [H | H].
      * apply Hprep in H as [-> ->]. split; [done|]. exists fname. split; [done | by left].
      * apply Hprep' in H as (-> & f & -> & Hf). split; [done|]. exists f. split; [done | by right].
    + exists (S n). split; [cbn; lia|]. cbn [seq fmap list_fmap]. f_equal; [f_equal; lia|].
      rewrite <- seq_shift, <- list_fmap_compose. apply list_fmap_ext.
      intros i k _. cbn. lia.
    + intros st' Hst'. destruct (Hret st' Hst') as (Hl1 & Hl2 & Hfold & Hfin).
      rewrite Hnums in Hl2. cbn [length for_in]. rewrite Hacc.
      split; [by rewrite Hl1|]. split; [by rewrite Hl2|]. split; [exact Hfold|]. lia.
  - split; [|split; [|done]].
    + intros * H. apply Hprep in H as [-> ->]. split; [done|]. exists fname. split; [done | by left].
    + destruct Hstep as [-> | ->]; [exists 0%nat | exists 1%nat]; (split; [cbn; lia|]).
      * reflexivity.
      * cbn. do 2 f_equal. lia.
Qed.

Lemma image_fail_fast (params : gmap string PyVal) fname st env :
  fail_fast (cdmamqc_list_image params fname st env).
Proof. unfold cdmamqc_list_image. solve_fail_fast. all: apply setup_fail_fast. Qed.

Lemma list_fail_fast st data (params : gmap string PyVal) env :
  fail_fast (cdmamqc_list_from st data params env).
Proof. unfold cdmamqc_list_from. solve_fail_fast. all: apply image_fail_fast. Qed.

(** X20. Lines 135-156 of [cdmamqc_list] stop at the first library call that
    raises, whichever it is: it is the last call and its exception the
    exception of the run. And [cdmamqc_list] never writes to [results]: the
    fit of the averaged score is left in the structure. *)
Theorem cdmamqc_list_failures st data (params : gmap string PyVal) env :
  let r := cdmamqc_list_from st data params env in
  (forall ev e, ev ∈ calls r -> raised ev = Some e ->
     outcome r = Raise e /\ last (calls r) = Some ev) /\
  emitted r = [] /\
  emitted (cdmamqc_list data params env) = [].
Proof.
  cbv zeta. split; [apply list_fail_fast|]. split; [|reflexivity].
  unfold cdmamqc_list_from. cbv zeta.
  run_step; [|reflexivity].
  destruct (images_run params a
              (mkLocals (l_finalscore st) (l_qclib st) (l_cs st) 0) env) as (Hem & _ & _).
  run_step; rewrite Hem; [|reflexivity].
  run_steps; reflexivity.
Qed.

End ImageLoop.

(** ** Accumulating scores: counts of flags, and matrices that do not fit *)

Section Accumulation.

Lemma flag_sum_le (col : list pyfloat) :
  (sum_list_with flag_value col <= length col)%nat.
Proof.
  induction col as [|x col IH]; cbn; [lia|].
  assert (flag_value x <= 1)%nat by (destruct x; cbn; lia). lia.
Qed.

(** X21. Accumulating matrices of flags counts: with at most 2^53 images
    every cell of the accumulated matrix is, exactly, the float of the
    number of images whose flag is set there. *)
Theorem flag_counts_exact sh (scores : list Score) :
  Forall (has_shape sh) scores -> Forall flag_matrix scores ->
  (Z.of_nat (length scores) <= 2 ^ 53)%Z ->
  exists fs,
    for_in scores (fun score fs => accumulate fs score) (zeros sh) = Return fs /\
    has_shape sh fs /\
    forall y x, (y < sh.1)%nat -> (x < sh.2)%nat ->
      cell fs y x
      = Some (float_of_Z (Z.of_nat (sum_list_with flag_value (column y x scores)))).
Proof.
  intros Hshape Hflags Hlen.
  destruct (accumulate_all_spec sh scores (zeros sh) Hshape (shape_zeros sh))
    as (fs & Hacc & Hsh & Hc).
  exists fs. split; [done|]. split; [done|].
  intros y x Hy Hx. rewrite Hc, cell_zeros by done. cbn. f_equal.
  change (S754_zero false) with (capped 0).
  rewrite sum_flags by (by apply column_flags). cbn [Nat.add]. unfold capped.
  pose proof (flag_sum_le (column y x scores)) as Hle.
  unfold column in Hle at 2. rewrite length_fmap in Hle.
  by rewrite Z.min_l by lia.
Qed.

(** What a loop that returned went through, and what a loop raises. *)
Lemma for_in_keeps {A S : Type} (P : S -> Prop) (body : A -> S -> Outcome S)
    (l : list A) (s s' : S) :
  (forall a s s', P s -> body a s = Return s' -> P s') ->
  P s -> for_in l body s = Return s' -> P s'.
Proof.
  intros Hbody. revert s. induction l as [|b l IH]; intros s Hs Hrun.
  - by injection Hrun as <-.
  - cbn [for_in] in Hrun. destruct (body b s) as [s1|e] eqn:Hb; [|discriminate].
    eapply (IH s1); [by eapply Hbody | exact Hrun].
Qed.

Lemma for_in_returns {A S : Type} (P : S -> Prop) (body : A -> S -> Outcome S)
    (l : list A) (s s' : S) (a : A) :
  (forall a s s', P s -> body a s = Return s' -> P s') ->
  P s -> for_in l body s = Return s' -> a ∈ l ->
  exists s1 s2, P s1 /\ body a s1 = Return s2.
Proof.
  intros Hbody. revert s. induction l as [|b l IH]; intros s Hs Hrun Ha; [by among_calls Ha|].
  cbn [for_in] in Hrun. destruct (body b s) as [s1|e] eqn:Hb; [|discriminate].
  apply elem_of_cons in Ha as [-> | Ha]; [by exists s, s1|].
  eapply (IH s1); [by eapply Hbody | exact Hrun | exact Ha].
Qed.

Lemma for_in_raises {A S : Type} (Q : exn -> Prop) (body : A -> S -> Outcome S)
    (l : list A) (s : S) (e : exn) :
  (forall a s e, body a s = Raise e -> Q e) -> for_in l body s = Raise e -> Q e.
Proof.
  intros Hbody. revert s. induction l as [|a l IH]; intros s Hrun; [discriminate|].
  cbn [for_in] in Hrun. destruct (body a s) as [s1|e1] eqn:Ha.
  - by eapply IH.
  - injection Hrun as <-. by eapply Hbody.
Qed.

(** Line 147 raises nothing but [IndexError], and when it returns the cell
    was there in both matrices and the shape is kept. *)
Lemma iadd_cell_raises (fs score : Score) y x e :
  iadd_cell fs score y x = Raise e -> e = IndexError "list index out of range".
Proof.
  unfold iadd_cell, index.
  destruct (fs !! y) as [frow|]; cbn; [|by intros [= <-]].
  destruct (frow !! x) as [f|]; cbn; [|by intros [= <-]].
  destruct (score !! y) as [srow|]; cbn; [|by intros [= <-]].
  destruct (srow !! x) as [s|]; cbn; [discriminate | by intros [= <-]].
Qed.

Lemma iadd_cell_returns sh (fs score fs' : Score) y x :
  has_shape sh fs -> iadd_cell fs score y x = Return fs' ->
  has_shape sh fs' /\ (y < sh.1)%nat /\ (x < sh.2)%nat.
Proof.
  intros Hfs. unfold iadd_cell, index.
  destruct (fs !! y) as [frow|] eqn:Hrow; cbn; [|discriminate].
  destruct (frow !! x) as [f|] eqn:Hf; cbn; [|discriminate].
  destruct (score !! y) as [srow|]; cbn; [|discriminate].
  destruct (srow !! x) as [s|]; cbn; [|discriminate].
  intros [= <-]. split; [by apply shape_insert|].
  destruct Hfs as [Hlen Hrows].
  pose proof (Forall_lookup_1 _ _ _ _ Hrows Hrow) as Hl. cbn in Hl.
  apply lookup_lt_Some in Hrow, Hf. lia.
Qed.

(** A loop over the first [w] cells of row [y]. *)
Lemma row_block sh (g : nat -> pyfloat -> pyfloat) (body : nat -> Score -> Outcome Score)
    y w (fs : Score) :
  has_shape sh fs -> (y < sh.1)%nat -> (w <= sh.2)%nat ->
  (forall x (cur : Score) row f, (x < w)%nat -> cur !! y = Some row -> row !! x = Some f ->
      body x cur = Return (<[y := <[x := g x f]> row]> cur)) ->
  exists fs', for_in (range w) body fs = Return fs' /\ has_shape sh fs' /\
    forall y' x', cell fs' y' x'
                  = if decide (y' = y /\ (x' < w)%nat) then g x' <$> cell fs y' x'
                    else cell fs y' x'.
Proof.
  intros Hfs Hy Hw Hbody.
  apply (for_range_rule
    (fun i (cur : Score) => has_shape sh cur /\
       forall y' x', cell cur y' x'
         = if decide (y' = y /\ (x' < i)%nat) then g x' <$> cell fs y' x' else cell fs y' x')
    body w fs).
  - split; [done|]. intros y' x'. by rewrite decide_False by lia.
  - intros i cur Hi [Hcur Hc].
    destruct (shape_cell sh cur y i Hcur Hy) as (row & f & Hrow & Hf & Hcf); [lia|].
    exists (<[y := <[i := g i f]> row]> cur). split; [by eapply Hbody|].
    split; [by apply shape_insert|].
    intros y' x'. rewrite (cell_insert cur y i _ row) by (done || by eapply lookup_lt_Some).
    rewrite Hc. rewrite Hc, decide_False in Hcf by lia.
    destruct (decide (y' = y /\ x' = i)) as [[-> ->]|Hne].
    + rewrite decide_True by lia. by rewrite Hcf.
    + destruct (decide (y' = y /\ (x' < i)%nat)) as [[-> Hlt]|Hge].
      * by rewrite decide_True by lia.
      * by rewrite decide_False by lia.
Qed.

(** A loop over the first [h] rows in which row [y] is treated so. *)
Lemma matrix_block sh (g : nat -> nat -> pyfloat -> pyfloat)
    (obody : nat -> Score -> Outcome Score) h w (fs : Score) :
  has_shape sh fs -> (h <= sh.1)%nat ->
  (forall y (cur : Score), (y < h)%nat -> has_shape sh cur ->
      exists cur', obody y cur = Return cur' /\ has_shape sh cur' /\
        forall y' x', cell cur' y' x'
                      = if decide (y' = y /\ (x' < w)%nat) then g y x' <$> cell cur y' x'
                        else cell cur y' x') ->
  exists fs', for_in (range h) obody fs = Return fs' /\ has_shape sh fs' /\
    forall y x, cell fs' y x
                = if decide ((y < h)%nat /\ (x < w)%nat) then g y x <$> cell fs y x
                  else cell fs y x.
Proof.
  intros Hfs Hh Hbody.
  apply (for_range_rule
    (fun i (cur : Score) => has_shape sh cur /\
       forall y' x', cell cur y' x'
         = if decide ((y' < i)%nat /\ (x' < w)%nat) then g y' x' <$> cell fs y' x'
           else cell fs y' x')
    obody h fs).
  - split; [done|]. intros y' x'. by rewrite decide_False by lia.
  - intros i cur Hi [Hcur Hc].
    destruct (Hbody i cur Hi Hcur) as (cur' & Hb & Hsh' & Hc').
    exists cur'. split; [done|]. split; [done|].
    intros y' x'. rewrite Hc', !Hc.
    destruct (decide (y' = i /\ (x' < w)%nat)) as [[-> Hlt]|Hne].
    + rewrite decide_False by lia. by rewrite decide_True by lia.
    + destruct (decide ((y' < i)%nat /\ (x' < w)%nat)) as [[Hlt Hlt']|Hge].
      * by rewrite decide_True by lia.
      * by rewrite decide_False by lia.
Qed.

(** X22. Lines 145-147 on a score of another shape than the final score. The
    loops run over the rows of [score] and the length of its first row: a
    score that fits into the final score is added into its upper left block
    and the other cells are left as they are, without a word; a score that
    is higher or wider ends in [IndexError]. *)
Theorem accumulate_fits sh sh' (fs score : Score) :
  has_shape sh fs -> has_shape sh' score -> (0 < sh'.1)%nat -> (0 < sh'.2)%nat ->
  if decide ((sh'.1 <= sh.1)%nat /\ (sh'.2 <= sh.2)%nat) then
    exists fs', accumulate fs score = Return fs' /\ has_shape sh fs' /\
      forall y x, cell fs' y x
                  = if decide ((y < sh'.1)%nat /\ (x < sh'.2)%nat)
                    then (fun f => float_add f (default (S754_zero false) (cell score y x)))
                         <$> cell fs y x
                    else cell fs y x
  else accumulate fs score = Raise (IndexError "list index out of range").
Proof.
  intros Hfs Hscore Hh Hw.
  destruct (shape_row sh' score 0 Hscore Hh) as (row0 & Hrow0 & Hlen0).
  destruct (decide ((sh'.1 <= sh.1)%nat /\ (sh'.2 <= sh.2)%nat)) as [[Hfit1 Hfit2]|Hnofit].
  - unfold accumulate. replace (length score) with sh'.1 by (symmetry; apply Hscore).
    apply (matrix_block sh
             (fun y x f => float_add f (default (S754_zero false) (cell score y x))));
      [done..|].
    intros y cur Hy Hcur.
    unfold index at 1. rewrite Hrow0. cbn. rewrite Hlen0.
    apply (row_block sh
             (fun x f => float_add f (default (S754_zero false) (cell score y x))));
      [done | lia | done |].
    intros x cur' row f Hx Hrow Hf.
    destruct (shape_cell sh' score y x Hscore Hy Hx) as (srow & s & Hsrow & Hs & Hcs).
    unfold iadd_cell, index. rewrite Hrow. cbn. rewrite Hf. cbn.
    rewrite Hsrow. cbn. rewrite Hs. cbn. by rewrite Hcs.
  - assert (Hcell : forall x (t t' : Score) y,
              has_shape sh t -> iadd_cell t score y x = Return t' -> has_shape sh t').
    { intros x t t' y Ht Hc. by apply (iadd_cell_returns sh) in Hc as [? _]. }
    assert (Hrow : forall y (s s' : Score), has_shape sh s ->
              (row0 ← index score 0;
               for_in (range (length row0)) (fun x fs0 => iadd_cell fs0 score y x) s)
              = Return s' -> has_shape sh s').
    { intros y s s' Hs. unfold index at 1. rewrite Hrow0. cbn. intros Hrun.
      eapply (for_in_keeps (has_shape sh) _ _ s s'); [|done|exact Hrun].
      intros x t t'. apply Hcell. }
    destruct (accumulate fs score) as [fs'|e] eqn:Hacc.
    + exfalso. apply Hnofit. unfold accumulate in Hacc.
      replace (length score) with sh'.1 in Hacc by (symmetry; apply Hscore).
      destruct (for_in_returns (has_shape sh) _ _ _ _ (sh'.1 - 1)%nat Hrow Hfs Hacc)
        as (s1 & s2 & Hs1 & Hrun); [apply elem_of_seq; lia|].
      cbn in Hrun. unfold index at 1 in Hrun. rewrite Hrow0 in Hrun. cbn in Hrun.
      rewrite Hlen0 in Hrun.
      destruct (for_in_returns (has_shape sh) _ _ _ _ (sh'.2 - 1)%nat
                  (fun x t t' => Hcell x t t' (sh'.1 - 1)%nat) Hs1 Hrun)
        as (s3 & s4 & Hs3 & Hc); [apply elem_of_seq; lia|].
      apply (iadd_cell_returns sh) in Hc as (_ & Hy & Hx); [lia | done].
    + f_equal. revert Hacc. unfold accumulate.
      apply (for_in_raises (fun e => e = IndexError "list index out of range")).
      intros y s e'. unfold index at 1. rewrite Hrow0. cbn.
      apply (for_in_raises (fun e => e = IndexError "list index out of range")).
      intros x s' e''. apply iadd_cell_raises.
Qed.

End Accumulation.

Lemma flag_counts_exact_witness :
  exists fs,
    for_in [Demo.flags_a; Demo.flags_b; Demo.flags_c] (fun score fs => accumulate fs score)
      (zeros (1, 2)%nat) = Return fs /\
    has_shape (1, 2)%nat fs /\
    forall y x, (y < 1)%nat -> (x < 2)%nat ->
      cell fs y x
      = Some (float_of_Z (Z.of_nat (sum_list_with flag_value
                (column y x [Demo.flags_a; Demo.flags_b; Demo.flags_c])))).
Proof.
  apply (flag_counts_exact (1, 2)%nat [Demo.flags_a; Demo.flags_b; Demo.flags_c]).
  - repeat first [apply Forall_cons; split | apply Forall_nil | split | reflexivity].
  - unfold flag_matrix, is_flag.
    repeat first [left; reflexivity | right; reflexivity | constructor].
  - vm_compute. discriminate.
Defined.

Lemma accumulate_fits_witness :
  accumulate (zeros (1, 2)%nat) [[float_of_Z 1; float_of_Z 0]; [float_of_Z 0; float_of_Z 1]]
  = Raise (IndexError "list index out of range").
Proof.
  apply (accumulate_fits (1, 2)%nat (2, 2)%nat (zeros (1, 2)%nat)
           [[float_of_Z 1; float_of_Z 0]; [float_of_Z 0; float_of_Z 1]]).
  - repeat first [apply Forall_cons; split | apply Forall_nil | split | reflexivity].
  - repeat first [apply Forall_cons; split | apply Forall_nil | split | reflexivity].
  - cbn. lia.
  - cbn. lia.
Defined.

(** ** The list analysis yields no averaged score *)

Section NoAverage.
Context {L : Library}.

Lemma iadd_cell_keeps_first (fs score fs' : Score) y x :
  iadd_cell fs score y x = Return fs' ->
  is_Some (cell fs 0 0) -> is_Some (cell fs' 0 0).
Proof.
  unfold iadd_cell, index.
  destruct (fs !! y) as [frow|] eqn:Hrow; cbn; [|discriminate].
  destruct (frow !! x) as [f|] eqn:Hf; cbn; [|discriminate].
  destruct (score !! y) as [srow|]; cbn; [|discriminate].
  destruct (srow !! x) as [s|]; cbn; [|discriminate].
  intros [= <-] Hcell.
  rewrite (cell_insert fs y x _ frow) by (done || by eapply lookup_lt_Some).
  by destruct (decide (0%nat = y /\ 0%nat = x)).
Qed.

Lemma accumulate_keeps_first (fs score fs' : Score) :
  accumulate fs score = Return fs' ->
  is_Some (cell fs 0 0) -> is_Some (cell fs' 0 0).
Proof.
  intros Hacc Hcell. unfold accumulate in Hacc.
  refine (for_in_keeps (fun m : Score => is_Some (cell m 0 0)) _ _ _ _ _ Hcell Hacc).
  intros y s s' Hs Hrow. unfold mbind, Outcome_bind in Hrow.
  destruct (index score 0) as [row0|e]; [|discriminate Hrow].
  refine (for_in_keeps (fun m : Score => is_Some (cell m 0 0)) _ _ _ _ _ Hs Hrow).
  intros x t t' Ht Hc. by eapply iadd_cell_keeps_first.
Qed.

Lemma images_keep_first (params : gmap string PyVal) filelist st env st' :
  outcome (for_in filelist (cdmamqc_list_image params) st env) = Return st' ->
  is_Some (cell (l_finalscore st) 0 0) -> is_Some (cell (l_finalscore st') 0 0).
Proof.
  revert st env. induction filelist as [|fname filelist IH]; intros st env Hret Hcell.
  - cbn in Hret. by injection Hret as <-.
  - cbn [for_in] in Hret. rewrite run_bind in Hret.
    destruct (image_step params fname st env) as [_ Hstep].
    destruct (outcome (cdmamqc_list_image params fname st env)) as [st1|e] eqn:Hout.
    + rewrite (and_then_Return _ _ _ Hout) in Hret. cbn [outcome after] in Hret.
      apply IH in Hret; [done|].
      destruct Hstep as (score & _ & _ & Hacc & _).
      by eapply accumulate_keeps_first.
    + rewrite (and_then_Raise _ _ _ Hout) in Hret. discriminate Hret.
Qed.

(** C4. [cdmamqc_list] yields no averaged score matrix, in no order of the
    images.  As written it stops at line 133 with UnboundLocalError before
    it reads an image, so the run is the same for every image list.  From
    line 135 on, whenever the final score has a cell, the run raises (at the
    latest the NameError of line 154, at the first division) and
    thresholdThickness is not called: no matrix is ever divided by the
    number of images. *)
Theorem cdmamqc_list_yields_no_average data data' (params : gmap string PyVal) env :
  cdmamqc_list data params env = mkRun (Raise (UnboundLocalError "cs")) env [] [] /\
  cdmamqc_list data' params env = cdmamqc_list data params env /\
  (forall st f, cell (l_finalscore st) 0 0 = Some f ->
     let r := cdmamqc_list_from st data params env in
     (exists e, outcome r = Raise e) /\
     List.filter is_thresholdThickness (calls r) = []).
Proof.
  split; [reflexivity|]. split; [reflexivity|].
  intros st f Hcell. cbv zeta. unfold cdmamqc_list_from. cbv zeta.
  run_step; [|eauto].
  destruct (images_run params a
              (mkLocals (l_finalscore st) (l_qclib st) (l_cs st) 0) env)
    as (_ & Hthr & _).
  pose proof (images_keep_first params a
                (mkLocals (l_finalscore st) (l_qclib st) (l_cs st) 0) env) as Hkeep.
  run_step; [|eauto].
  destruct (Hkeep a0 eq_refl) as [f' Hf']; [by exists f|].
  rewrite run_bind.
  change (undefined_global "imagelist" ≫= _) with (@Raise Z (NameError "imagelist")).
  rewrite average_undefined.
  destruct (l_finalscore a0) as [|[|f0 row] rows]; try discriminate Hf'.
  unfold and_then. cbn. rewrite app_nil_r. eauto.
Qed.

End NoAverage.

(** ** The module: the date of acquisition and the dispatch *)

(** X23. After the import MPLCONFIGDIR is set: to what it was, if it was
    set, and to '/tmp/.matplotlib' otherwise. No other variable of the
    environment is touched, and a second import changes nothing. *)
Theorem MPLCONFIGDIR_default (environ : gmap string string) :
  let environ' := set_MPLCONFIGDIR environ in
  environ' !! "MPLCONFIGDIR"
  = Some (default "/tmp/.matplotlib" (environ !! "MPLCONFIGDIR")) /\
  (forall k, k <> "MPLCONFIGDIR" -> environ' !! k = environ !! k) /\
  set_MPLCONFIGDIR environ' = environ'.
Proof.
  cbv zeta. unfold set_MPLCONFIGDIR.
  destruct (environ !! "MPLCONFIGDIR") as [v|] eqn:Hv.
  - rewrite bool_decide_true by done. cbn. rewrite Hv.
    rewrite bool_decide_true by done. done.
  - rewrite bool_decide_false by (by intros [? ?]). cbn.
    rewrite lookup_insert_eq, bool_decide_true by done.
    split; [done|]. split; [|done]. intros k Hk. by rewrite lookup_insert_ne.
Qed.

Section ModuleRuns.
Context {L : Library} {D : ModuleLibrary L}.

Lemma m_run_bind {A B : Type} (m : P A) (k : A -> P B) rs env :
  (m ≫= k) rs env = m_and_then (m rs env) k.
Proof. reflexivity. Qed.

Lemma m_and_then_Return {A B : Type} (r : ModuleRun A) (k : A -> P B) (a : A) :
  m_outcome r = Return a ->
  m_and_then r k
  = let r' := k a (m_results r) (m_env r) in
    mkModuleRun (m_outcome r') (m_env r') (m_calls r ++ m_calls r') (m_results r').
Proof. unfold m_and_then. intros ->. reflexivity. Qed.

Lemma m_and_then_Raise {A B : Type} (r : ModuleRun A) (k : A -> P B) (e : exn) :
  m_outcome r = Raise e ->
  m_and_then r k = mkModuleRun (Raise e) (m_env r) (m_calls r) (m_results r).
Proof. unfold m_and_then. intros ->. reflexivity. Qed.

Lemma m_bind_ret {A : Type} (m : P A) rs env :
  m_and_then (m rs env) (fun a => mret a) = m rs env.
Proof.
  unfold m_and_then. destruct (m rs env) as [[a|e] env' cl rs']; cbn; [|reflexivity].
  by rewrite app_nil_r.
Qed.

End ModuleRuns.

(** One step of a run of the module. *)
Ltac m_step :=
  rewrite m_run_bind;
  lazymatch goal with
  | |- context [m_and_then ?r ?k] =>
      let H := fresh "Hrun" in
      destruct (m_outcome r) eqn:H;
      [ rewrite (m_and_then_Return r k _ H) | rewrite (m_and_then_Raise r k _ H) ];
      cbv zeta;
      cbn [m_outcome m_env m_calls m_results m_lift m_call add_result write_results
           fst snd app] in *
  end.

Section Orderly.
Context {L : Library} {D : ModuleLibrary L}.

Lemma orderly_lift {A : Type} (o : Outcome A) rs env : orderly rs (m_lift o rs env).
Proof. split; [|split]; [intros ev e H; among_calls H | intros * H; among_calls H | done]. Qed.

Lemma orderly_ret {A : Type} (a : A) rs env : orderly rs ((mret a : P A) rs env).
Proof. split; [|split]; [intros ev e H; among_calls H | intros * H; among_calls H | done]. Qed.

Lemma orderly_add (w : Written DateTime) rs env : orderly rs (add_result w rs env).
Proof.
  split; [|split]; [intros ev e H; among_calls H | intros * H; among_calls H |].
  by exists [w].
Qed.

Lemma orderly_call {A : Type} (ev : Outcome A -> ModuleEvent) f rs env :
  (forall out, m_raised (ev out) = exn_of out) ->
  (forall out results out', ev out <> ev_write results out') ->
  orderly rs (m_call ev f rs env).
Proof.
  intros Hev Hnw. split; [|split]; [| |done].
  - intros ev' e H. cbn in H. among_calls H. subst ev'. rewrite Hev. cbn.
    destruct (f env).1; cbn; [discriminate|]. by intros [= ->].
  - intros * H. cbn in H. among_calls H. by eapply Hnw.
Qed.

Lemma orderly_wrapper {A : Type} (m : M A) rs env :
  fail_fast (m env) -> orderly rs (wrapper m rs env).
Proof.
  intros Hm. split; [|split].
  - intros ev e H Hr. cbn in H. apply list_elem_of_fmap in H as (ev0 & -> & H).
    destruct (Hm ev0 e H Hr) as [Ho Hl]. split; [exact Ho|].
    cbn. by rewrite fmap_last, Hl.
  - intros * H. cbn in H. by apply list_elem_of_fmap in H as (ev0 & ? & _).
  - by eexists.
Qed.

Lemma orderly_bind {A B : Type} (m : P A) (k : A -> P B) rs env :
  orderly rs (m rs env) -> (forall a rs' env', orderly rs' (k a rs' env')) ->
  orderly rs ((m ≫= k) rs env).
Proof.
  intros (Hff & Hnw & Hpre) Hk. m_step.
  2:{ split; [|by split]. intros ev e0 H Hr. by destruct (Hff ev e0 H Hr) as [[= ->] Hl]. }
  destruct (Hk a (m_results (m rs env)) (m_env (m rs env))) as (Hff' & Hnw' & Hpre').
  split; [|split]; cbn [m_calls m_outcome m_results].
  - intros ev e H Hr. apply elem_of_app in H as [H | H].
    + destruct (Hff ev e H Hr) as [Ho _]. congruence.
    + destruct (Hff' ev e H Hr) as [Ho Hl]. split; [done|].
      destruct (m_calls (k a (m_results (m rs env)) (m_env (m rs env))))
        as [|ev0 l] using rev_ind; [by among_calls H|].
      rewrite app_assoc, last_snoc. by rewrite last_snoc in Hl.
  - intros * H. apply elem_of_app in H as [H | H]; [by apply Hnw in H | by apply Hnw' in H].
  - by etransitivity.
Qed.

Lemma orderly_for_in {A S : Type} (l : list A) (body : A -> S -> P S) s rs env :
  (forall a s rs env, orderly rs (body a s rs env)) -> orderly rs (for_in l body s rs env).
Proof.
  intros Hbody. revert s rs env. induction l as [|a l IH]; intros s rs env.
  - apply orderly_ret.
  - cbn [for_in]. apply orderly_bind; [apply Hbody | intros; apply IH].
Qed.

Lemma acqdatetime_series_orderly data action rs env :
  orderly rs (acqdatetime_series data action rs env).
Proof.
  unfold acqdatetime_series.
  repeat first [ apply orderly_lift | apply orderly_add
               | apply orderly_call; [reflexivity | discriminate]
               | apply orderly_bind; [|intros] ].
Qed.

Lemma run_action_orderly data name action rs env :
  orderly rs (run_action data name action rs env).
Proof.
  unfold run_action. repeat case_match.
  - apply acqdatetime_series_orderly.
  - apply orderly_wrapper, header_series_fail_fast.
  - apply orderly_wrapper, qc_series_fail_fast.
  - apply orderly_ret.
Qed.

(** X24. [acqdatetime_series] reads the first file of the first series with
    [stop_before_pixels=True], asks [wadwrapper_lib] for its date and adds
    it as the one result 'AcquisitionDateTime'; it calls nothing of
    [CDMam_lib] and does not look at the action. When it raises, the results
    are as they were; without a first file it raises [IndexError] before it
    calls anything. *)
Theorem acqdatetime_series_run data action rs env :
  let r := acqdatetime_series data action rs env in
  (forall action', acqdatetime_series data action' rs env = r) /\
  (forall fname sbp out, ev_read_file fname sbp out ∈ m_calls r ->
     sbp = true /\ exists series, series_filelist data !! 0 = Some series /\
                                  series !! 0 = Some fname) /\
  (forall ev, ev_wrapper ev ∉ m_calls r) /\
  (m_outcome r = Return tt ->
   exists dcm dt, ev_acqdatetime dcm (Return dt) ∈ m_calls r /\
                  m_results r = rs ++ [addDateTime "AcquisitionDateTime" dt]) /\
  (forall e, m_outcome r = Raise e -> m_results r = rs) /\
  (series_filelist data = [] \/ series_filelist data !! 0 = Some [] ->
   r = mkModuleRun (Raise (IndexError "list index out of range")) env [] rs).
Proof.
  cbv zeta. split.
  { intros action'. unfold acqdatetime_series. rewrite !action_params. reflexivity. }
  unfold acqdatetime_series. rewrite action_params.
  m_step; [|discriminate]. clear Hrun.
  assert (Hidx : forall {A : Type} (l : list A) e,
            index l 0 = Raise e -> e = IndexError "list index out of range").
  { intros A l e. unfold index. destruct (l !! 0); [discriminate | by intros [= <-]]. }
  m_step.
  2:{ apply Hidx in Hrun as ->. split_and!; try done.
      all: intros * H; among_calls H. }
  apply index_Return in Hrun. rename a0 into series.
  m_step.
  2:{ apply Hidx in Hrun0 as ->. split_and!; try done.
      all: intros * H; among_calls H. }
  apply index_Return in Hrun0. rename a0 into fname.
  assert (Hnot : ~ (series_filelist data = [] \/ series_filelist data !! 0 = Some [])).
  { intros [H | H]; [by rewrite H in Hrun|].
    rewrite Hrun in H. injection H as ->. discriminate Hrun0. }
  m_step; [m_step|].
  all: split_and!; try done.
  all: try (intros * H; among_calls H; simplify_eq; by eauto).
  all: try (intros H; by destruct (Hnot H)).
  intros _. rewrite Hrun2. eexists _, _. split; [|reflexivity]. by right; left.
Qed.

End Orderly.

Section Main.
Context {L : Library} {D : ModuleLibrary L}.

Lemma actions_orderly data (items : list (string * Action)) rs env :
  orderly rs (for_in items (fun '(name, action) _ => run_action data name action) tt rs env).
Proof. apply orderly_for_in. intros [name action] [] rs' env'. apply run_action_orderly. Qed.

(** X25. The module runs the actions in the order of the configuration and
    stores the results once, at the end: [results.write()] is the last call,
    made with everything the actions have added, and it is reached only when
    every action returned. A call that raises, in whichever action, is the
    last call of the module and its exception ends the module, so that
    nothing is stored; what was in the results object stays in it, in front. *)
Theorem main_run data config rs env :
  let r := main data config rs env in
  (forall ev e, ev ∈ m_calls r -> m_raised ev = Some e ->
     m_outcome r = Raise e /\ last (m_calls r) = Some ev) /\
  (forall results out, ev_write results out ∈ m_calls r ->
     last (m_calls r) = Some (ev_write results out) /\
     results = m_results r /\ m_outcome r = out) /\
  ((exists results, ev_write results (Return tt) ∈ m_calls r) <-> m_outcome r = Return tt) /\
  rs `prefix_of` m_results r /\
  (config_items config !! "actions" = None ->
   r = mkModuleRun (Raise (KeyError "actions")) env [] rs).
Proof.
  cbv zeta. unfold main. m_step.
  2:{ split; [intros * H; among_calls H|]. split; [intros * H; among_calls H|].
      split; [split; [intros [? H]; among_calls H | discriminate]|].
      split; [done|]. intros Hnone. revert Hrun. unfold getitem. rewrite Hnone.
      by intros [= <-]. }
  rename a into items.
  assert (Hsome : config_items config !! "actions" <> None).
  { revert Hrun. unfold getitem. by destruct (config_items config !! "actions"). }
  destruct (actions_orderly data items rs env) as (Hff & Hnw & Hpre).
  m_step.
  2:{ split; [intros ev e0 H Hr; by destruct (Hff ev e0 H Hr) as [[= ->] Hl]|].
      split; [intros * H; by apply Hnw in H|].
      split; [split; [intros [? H]; by apply Hnw in H | discriminate]|].
      split; [done|]. intros Hnone. by destruct Hsome. }
  split; [|split; [|split; [|split]]].
  - intros ev e H Hr. apply elem_of_app in H as [H | H].
    + destruct (Hff ev e H Hr) as [Ho _]. discriminate Ho.
    + among_calls H. subst ev. rewrite last_snoc. cbn in Hr.
      destruct (write _ _).1; cbn in *; by simplify_eq.
  - intros results out H. apply elem_of_app in H as [H | H]; [by apply Hnw in H|].
    among_calls H. simplify_eq. by rewrite last_snoc.
  - split.
    + intros [results H]. apply elem_of_app in H as [H | H]; [by apply Hnw in H|].
      among_calls H. by simplify_eq.
    + intros Hret. eexists. apply elem_of_app. right. rewrite Hret. by left.
  - exact Hpre.
  - intros Hnone. by destruct Hsome.
Qed.

Lemma m_and_then_ext {A B : Type} (r : ModuleRun A) (k k' : A -> P B) :
  (forall a rs env, k a rs env = k' a rs env) -> m_and_then r k = m_and_then r k'.
Proof. intros H. unfold m_and_then. destruct (m_outcome r); [|reflexivity]. by rewrite H. Qed.

Lemma m_ret_bind {A B : Type} (a : A) (k : A -> P B) rs env :
  m_and_then ((mret a : P A) rs env) k = k a rs env.
Proof. unfold m_and_then. cbn. by destruct (k a rs env). Qed.

Lemma actions_filter data (items : list (string * Action)) rs env :
  for_in items (fun '(name, action) _ => run_action data name action) tt rs env
  = for_in (List.filter (fun p => is_action_name p.1) items)
      (fun '(name, action) _ => run_action data name action) tt rs env.
Proof.
  revert rs env. induction items as [|[name action] items IH]; intros rs env; [reflexivity|].
  cbn [List.filter fst]. destruct (is_action_name name) eqn:Hname.
  - cbn [for_in]. rewrite !m_run_bind. apply m_and_then_ext. intros [] rs' env'. apply IH.
  - cbn [for_in]. rewrite m_run_bind.
    replace (run_action data name action) with (mret tt : P unit).
    + rewrite m_ret_bind. apply IH.
    + unfold is_action_name in Hname. unfold run_action.
      destruct (String.eqb name "acqdatetime"); [discriminate|].
      destruct (String.eqb name "header_series"); [discriminate|].
      destruct (String.eqb name "qc_series"); [discriminate | reflexivity].
Qed.

(** X26. An action under any other name than 'acqdatetime', 'header_series'
    and 'qc_series' is passed over: the module runs as it does on the
    configuration without it. *)
Theorem main_skips_unknown data config (items : list (string * Action)) rs env :
  config_items config !! "actions" = Some items ->
  main data config rs env
  = main data
      {| config_items := <["actions" := List.filter (fun p => is_action_name p.1) items]>
                           (config_items config) |} rs env.
Proof.
  intros Hitems. unfold main. rewrite !m_run_bind.
  unfold getitem. cbn [config_items]. rewrite Hitems, lookup_insert_eq.
  change (m_lift (Return items) rs env) with ((mret items : P _) rs env).
  change (m_lift (Return (List.filter (fun p => is_action_name p.1) items)) rs env)
    with ((mret (List.filter (fun p : string * Action => is_action_name p.1) items) : P _) rs env).
  rewrite !m_ret_bind, !m_run_bind, <- actions_filter. reflexivity.
Qed.

End Main.

Lemma main_skips_unknown_witness :
  main (L := Demo.lib) (D := DemoModule.module_lib) Demo.one_image DemoModule.config [] 0%nat
  = main (L := Demo.lib) (D := DemoModule.module_lib) Demo.one_image
      {| config_items :=
           <["actions" := List.filter (fun p => is_action_name p.1) DemoModule.actions]>
             (config_items DemoModule.config) |} [] 0%nat.
Proof.
  apply (main_skips_unknown (L := Demo.lib) (D := DemoModule.module_lib) Demo.one_image
           DemoModule.config DemoModule.actions [] 0%nat).
  reflexivity.
Defined.

(** The module on the demonstration library: the unknown action leaves no
    trace, and the results of the three others are stored at the end. *)
Example main_demo :
  let r := main (L := Demo.lib) (D := DemoModule.module_lib) Demo.one_image DemoModule.config []
             0%nat in
  m_outcome r = Return tt /\
  length (m_calls r) = 14%nat /\
  length (m_results r) = 9%nat /\
  last (m_calls r) = Some (ev_write (m_results r) (Return tt)) /\
  head (m_results r) = Some (addDateTime "AcquisitionDateTime" "20170825101500").
Proof. vm_compute. repeat split. Qed.

(** A detector that fails in the last action: nothing is stored, the
    results of the actions before are in the object and go no further. *)
Example main_failure_demo :
  let r := main (L := Demo.lib) (D := DemoModule.module_lib) DemoModule.bad_image DemoModule.config
             [] 0%nat in
  m_outcome r = Raise Demo.geometry_error /\
  length (m_results r) = 4%nat /\
  forallb (fun ev => match ev with ev_write _ _ => false | _ => true end) (m_calls r) = true.
Proof. vm_compute. repeat split. Qed.
